(** * questionnaire-app: scoring, report generation and the assessment service

    A shallow embedding of [internal/models], of the assessment service
    ([StartAssessment], [SaveAnswer], [CompleteAssessment],
    [generateReport], [maxOptionPoints], [generateRecommendations],
    [createModernizationPlan]), of the file-backed storage the service
    talks to and of the HTTP handlers, followed by the properties of the
    scoring and report rules, of the service and of the handlers. *)

From Stdlib Require Import Strings.Ascii.
From Stdlib Require Import ZArith Lia.
From Stdlib Require Import Floats.SpecFloat.
From stdpp Require Import gmap strings list fin_maps sorting.

Local Open Scope string_scope.
Local Open Scope list_scope.
Local Open Scope Z_scope.

(** ** Go's [int]

    The service is built for 64-bit Linux, where [int] is a signed 64-bit
    integer whose [+] and [*] wrap around silently. *)
Module GoInt.

Definition min_int : Z := - 2 ^ 63.
Definition max_int : Z := 2 ^ 63 - 1.

Definition in_range (z : Z) : Prop := min_int <= z <= max_int.

Definition wrap (z : Z) : Z := (z + 2 ^ 63) mod 2 ^ 64 - 2 ^ 63.

Definition add (a b : Z) : Z := wrap (a + b).
Definition mul (a b : Z) : Z := wrap (a * b).

End GoInt.

(** ** Go's [float64]

    IEEE 754 binary64 (53 bits of precision, infinities at exponent 1024),
    through the specification-level floats of the standard library.  The
    conversion [float64(n)] of an integer rounds to nearest, ties to even;
    [/] is the correctly rounded division, with [0/0 = NaN] and
    [x/0 = ±Inf]; [<] is false as soon as one side is NaN. *)
Module Float64.

Definition prec : Z := 53.
Definition emax : Z := 1024.

Definition t : Type := spec_float.

Definition of_int (n : Z) : t := binary_normalize prec emax n 0 false.
Definition div (x y : t) : t := SFdiv prec emax x y.
Definition ltb (x y : t) : bool := SFltb x y.
Definition leb (x y : t) : bool := SFleb x y.

(** The constants [0.5], [0.6] and [0.7] of the source, as the doubles
    nearest to the decimal numbers. *)
Definition c0_5 : t := S754_finite false 4503599627370496 (-53).
Definition c0_6 : t := S754_finite false 5404319552844595 (-53).
Definition c0_7 : t := S754_finite false 6305039478318694 (-53).

(** [float64(a) / float64(b)], the only way the source builds a ratio. *)
Definition ratio (a b : Z) : t := div (of_int a) (of_int b).

End Float64.

Arguments Float64.ratio : simpl never.
Arguments Float64.ltb : simpl never.
Arguments Float64.leb : simpl never.
Arguments Float64.c0_5 : simpl never.
Arguments Float64.c0_6 : simpl never.
Arguments Float64.c0_7 : simpl never.

(** ** [internal/models] *)

Module Option.
Record t := mk { ID : string; Text : string; Points : Z }.
End Option.

Module Question.
Record t := mk {
  ID : string;
  Text : string;
  Category : string;
  Options : list Option.t;
  Weight : Z
}.
End Question.

(** A Go map is nil or allocated.  Reading a nil map finds no entry;
    assigning to one of its entries panics.  [Answers] holds the entries of
    the map and [AnswersNil] tells the nil map from an allocated one:
    [StartAssessment] allocates the map with [make], and the JSON decoder
    allocates one for an "answers" object but leaves the map nil when the
    file has no "answers" or has [null] there. *)
Module Assessment.
Record t := mk {
  ID : string;
  ApplicationID : string;
  CreatedAt : string;
  Answers : gmap string string;
  AnswersNil : bool;
  Status : string
}.

(** [assessment.Answers[questionID] = optionID] on an allocated map. *)
Definition setAnswer (questionID optionID : string) (assessment : t) : t :=
  mk (ID assessment) (ApplicationID assessment) (CreatedAt assessment)
     (<[questionID := optionID]> (Answers assessment)) (AnswersNil assessment)
     (Status assessment).

(** [assessment.Answers[questionID] = optionID]: [None] is the panic
    "assignment to entry in nil map". *)
Definition assignAnswer (questionID optionID : string) (assessment : t) : option t :=
  if AnswersNil assessment then None
  else Some (setAnswer questionID optionID assessment).

(** [assessment.Status = status] *)
Definition setStatus (status : string) (assessment : t) : t :=
  mk (ID assessment) (ApplicationID assessment) (CreatedAt assessment)
     (Answers assessment) (AnswersNil assessment) status.
End Assessment.

Module Application.
Record t := mk {
  ID : string;
  Name : string;
  Description : string;
  Tags : gmap string string
}.
End Application.

Module Recommendation.
Record t := mk { Category : string; Description : string; Priority : string }.
End Recommendation.

Module Risk.
Record t := mk { Category : string; Description : string; Severity : string }.
End Risk.

Module ModernizationStep.
Record t := mk { Order : Z; Description : string; Effort : string }.
End ModernizationStep.

Module Report.
Record t := mk {
  AssessmentID : string;
  ApplicationID : string;
  GeneratedAt : string;
  TotalScore : Z;
  MaxPossibleScore : Z;
  CategoryScores : gmap string Z;
  Recommendations : list Recommendation.t;
  Risks : list Risk.t;
  ModernizationPlan : list ModernizationStep.t
}.

(** Field updates through the [*models.Report] pointer. *)
Definition appendRecommendation (r : Recommendation.t) (report : t) : t :=
  mk (AssessmentID report) (ApplicationID report) (GeneratedAt report)
     (TotalScore report) (MaxPossibleScore report) (CategoryScores report)
     (Recommendations report ++ [r]) (Risks report) (ModernizationPlan report).

Definition appendRisk (r : Risk.t) (report : t) : t :=
  mk (AssessmentID report) (ApplicationID report) (GeneratedAt report)
     (TotalScore report) (MaxPossibleScore report) (CategoryScores report)
     (Recommendations report) (Risks report ++ [r]) (ModernizationPlan report).

Definition setScores (total max : Z) (categories : gmap string Z) (report : t) : t :=
  mk (AssessmentID report) (ApplicationID report) (GeneratedAt report)
     total max categories
     (Recommendations report) (Risks report) (ModernizationPlan report).

Definition setModernizationPlan (plan : list ModernizationStep.t) (report : t) : t :=
  mk (AssessmentID report) (ApplicationID report) (GeneratedAt report)
     (TotalScore report) (MaxPossibleScore report) (CategoryScores report)
     (Recommendations report) (Risks report) plan.
End Report.

(** ** Results of fallible calls: a value or an [error] (its message). *)
Inductive result (A : Type) : Type :=
  | Ok (a : A)
  | Err (msg : string).
Arguments Ok {A} a.
Arguments Err {A} msg.

(** A call that can panic either returns, with a value or an error, or
    is unwound by the panic. *)
Inductive run (A : Type) : Type :=
  | Returns (r : result A)
  | Panics (msg : string).
Arguments Returns {A} r.
Arguments Panics {A} msg.

(** Go visits the entries of a map in an unspecified order.  A [MapRange]
    is the order chosen by the runtime; it is [fair] when it visits every
    entry of the map exactly once. *)
Definition MapRange : Type := gmap string Z -> list (string * Z).

Definition fair (range : MapRange) : Prop :=
  forall m, range m ≡ₚ map_to_list m.

(** ** The scoring and report rules of [services] *)
Module Scoring.

(** [maxOptionPoints]: the running maximum starts at 0. *)
Definition maxOptionPoints (options : list Option.t) : Z :=
  fold_left
    (fun max option => if Option.Points option >? max then Option.Points option else max)
    options 0.

(** The accumulators of the scoring loop of [generateReport]. *)
Record scores := mkScores {
  totalScore : Z;
  maxScore : Z;
  categoryScores : gmap string Z;
  categoryMaxScores : gmap string Z
}.

(** [m[k] += v] on a [map[string]int]: a missing key reads as 0. *)
Definition addTo (k : string) (v : Z) (m : gmap string Z) : gmap string Z :=
  <[k := GoInt.add (default 0 (m !! k)) v]> m.

(** The inner loop: the first option whose ID is [optionID], then [break]. *)
Fixpoint selectedOption (options : list Option.t) (optionID : string) : option Option.t :=
  match options with
  | [] => None
  | option :: rest =>
      if String.eqb (Option.ID option) optionID then Some option
      else selectedOption rest optionID
  end.

(** One iteration of [for _, question := range questions]. *)
Definition scoreQuestion (answers : gmap string string) (acc : scores)
    (question : Question.t) : scores :=
  let ceiling :=
    GoInt.mul (Question.Weight question) (maxOptionPoints (Question.Options question)) in
  let maxScore' := GoInt.add (maxScore acc) ceiling in
  let categoryMaxScores' := addTo (Question.Category question) ceiling (categoryMaxScores acc) in
  match answers !! Question.ID question with
  | Some optionID =>
      match selectedOption (Question.Options question) optionID with
      | Some option =>
          let score := GoInt.mul (Option.Points option) (Question.Weight question) in
          mkScores (GoInt.add (totalScore acc) score) maxScore'
                   (addTo (Question.Category question) score (categoryScores acc))
                   categoryMaxScores'
      | None => mkScores (totalScore acc) maxScore' (categoryScores acc) categoryMaxScores'
      end
  | None => mkScores (totalScore acc) maxScore' (categoryScores acc) categoryMaxScores'
  end.

Definition calculateScores (questions : list Question.t)
    (answers : gmap string string) : scores :=
  fold_left (scoreQuestion answers) questions (mkScores 0 0 ∅ ∅).

(** *** [generateRecommendations] *)

Definition generalHigh : Recommendation.t :=
  Recommendation.mk "General"
    "Application requires significant modifications for Kubernetes deployment" "High".
Definition deploymentRisk : Risk.t :=
  Risk.mk "Deployment" "Application architecture not suitable for containerization" "High".
Definition generalMedium : Recommendation.t :=
  Recommendation.mk "General"
    "Application needs moderate changes to be suitable for Kubernetes" "Medium".
Definition generalLow : Recommendation.t :=
  Recommendation.mk "General"
    "Application is a good candidate for Kubernetes deployment" "Low".

Definition overallRecommendation (report : Report.t) (totalScore maxScore : Z) : Report.t :=
  let overallRatio := Float64.ratio totalScore maxScore in
  if Float64.ltb overallRatio Float64.c0_5 then
    Report.appendRisk deploymentRisk (Report.appendRecommendation generalHigh report)
  else if Float64.ltb overallRatio Float64.c0_7 then
    Report.appendRecommendation generalMedium report
  else
    Report.appendRecommendation generalLow report.

Definition architectureRecommendation (category : string) : Recommendation.t :=
  Recommendation.mk category
    "Consider refactoring application architecture to be more containerization-friendly" "High".
Definition architectureRisk (category : string) : Risk.t :=
  Risk.mk category "Complex architecture may lead to challenges in containerization" "High".
Definition persistenceRecommendation (category : string) : Recommendation.t :=
  Recommendation.mk category
    "Review database access patterns for compatibility with Kubernetes" "Medium".
Definition persistenceRisk (category : string) : Risk.t :=
  Risk.mk category
    "Data persistence implementation may cause issues in containerized environment" "Medium".

(** One iteration of [for category, score := range categoryScores]. *)
Definition categoryRecommendation (categoryMaxScores : gmap string Z)
    (report : Report.t) (entry : string * Z) : Report.t :=
  let '(category, score) := entry in
  match categoryMaxScores !! category with
  | None => report
  | Some maxScore =>
      if maxScore =? 0 then report
      else
        let ratio := Float64.ratio score maxScore in
        if Float64.ltb ratio Float64.c0_5 && String.eqb category "Architecture" then
          Report.appendRisk (architectureRisk category)
            (Report.appendRecommendation (architectureRecommendation category) report)
        else if Float64.ltb ratio Float64.c0_6 && String.eqb category "Persistence" then
          Report.appendRisk (persistenceRisk category)
            (Report.appendRecommendation (persistenceRecommendation category) report)
        else report
  end.

(** What one iteration appends, read off a report with empty lists. *)
Definition blank : Report.t := Report.mk "" "" "" 0 0 ∅ [] [] [].

Definition emittedRecommendations (categoryMaxScores : gmap string Z)
    (entry : string * Z) : list Recommendation.t :=
  Report.Recommendations (categoryRecommendation categoryMaxScores blank entry).

Definition emittedRisks (categoryMaxScores : gmap string Z)
    (entry : string * Z) : list Risk.t :=
  Report.Risks (categoryRecommendation categoryMaxScores blank entry).

Definition generateRecommendations (range : MapRange) (report : Report.t)
    (totalScore maxScore : Z) (categoryScores categoryMaxScores : gmap string Z) : Report.t :=
  fold_left (categoryRecommendation categoryMaxScores) (range categoryScores)
    (overallRecommendation report totalScore maxScore).

(** *** [createModernizationPlan] *)

Definition len (plan : list ModernizationStep.t) : Z := Z.of_nat (length plan).

Definition createModernizationPlan (totalScore maxScore : Z) : list ModernizationStep.t :=
  let ratio := Float64.ratio totalScore maxScore in
  let plan : list ModernizationStep.t := [] in
  let plan := (plan ++
    [ModernizationStep.mk 1 "Analyze application dependencies and external integrations" "Low"])%list in
  let plan :=
    if Float64.ltb ratio Float64.c0_5 then
      (plan ++
       [ModernizationStep.mk 2 "Refactor application architecture for microservices" "High";
        ModernizationStep.mk 3 "Implement appropriate data persistence strategy" "High";
        ModernizationStep.mk 4 "Create containerization strategy with multiple containers" "Medium"])%list
    else if Float64.ltb ratio Float64.c0_7 then
      (plan ++
       [ModernizationStep.mk 2 "Refactor specific components for containerization" "Medium";
        ModernizationStep.mk 3 "Adapt data persistence for cloud environment" "Medium"])%list
    else plan in
  (plan ++
   [ModernizationStep.mk (GoInt.add (len plan) 1) "Containerize application components" "Medium";
    ModernizationStep.mk (GoInt.add (len plan) 2) "Create Kubernetes deployment manifests" "Medium";
    ModernizationStep.mk (GoInt.add (len plan) 3)
      "Set up CI/CD pipeline for Kubernetes deployment" "Medium";
    ModernizationStep.mk (GoInt.add (len plan) 4)
      "Implement monitoring and observability" "Medium"])%list.

(** *** [generateReport]

    [now] is [time.Now().Format(time.RFC3339)]; the function always
    returns a nil error. *)
Definition generateReport (now : string) (range : MapRange)
    (assessment : Assessment.t) (questions : list Question.t) : result Report.t :=
  let report :=
    Report.mk (Assessment.ID assessment) (Assessment.ApplicationID assessment) now
              0 0 ∅ [] [] [] in
  let sc := calculateScores questions (Assessment.Answers assessment) in
  let report :=
    Report.setScores (totalScore sc) (maxScore sc) (categoryScores sc) report in
  let report :=
    generateRecommendations range report (totalScore sc) (maxScore sc)
      (categoryScores sc) (categoryMaxScores sc) in
  let report :=
    Report.setModernizationPlan
      (createModernizationPlan (totalScore sc) (maxScore sc)) report in
  Ok report.

End Scoring.

(** The three outcomes of one iteration. *)
Inductive outcome (categoryMaxScores : gmap string Z) (entry : string * Z) : Prop :=
  | Silent :
      Scoring.emittedRecommendations categoryMaxScores entry = [] ->
      Scoring.emittedRisks categoryMaxScores entry = [] ->
      outcome categoryMaxScores entry
  | Architecture (maxScore : Z) :
      entry.1 = "Architecture" ->
      categoryMaxScores !! entry.1 = Some maxScore -> maxScore <> 0 ->
      Float64.ltb (Float64.ratio entry.2 maxScore) Float64.c0_5 = true ->
      Scoring.emittedRecommendations categoryMaxScores entry =
        [Scoring.architectureRecommendation "Architecture"] ->
      Scoring.emittedRisks categoryMaxScores entry =
        [Scoring.architectureRisk "Architecture"] ->
      outcome categoryMaxScores entry
  | Persistence (maxScore : Z) :
      entry.1 = "Persistence" ->
      categoryMaxScores !! entry.1 = Some maxScore -> maxScore <> 0 ->
      Float64.ltb (Float64.ratio entry.2 maxScore) Float64.c0_6 = true ->
      Scoring.emittedRecommendations categoryMaxScores entry =
        [Scoring.persistenceRecommendation "Persistence"] ->
      Scoring.emittedRisks categoryMaxScores entry =
        [Scoring.persistenceRisk "Persistence"] ->
      outcome categoryMaxScores entry.

(** ** Calls that read or change the store and may fail

    A call takes the store, returns the store it leaves behind and either a
    value or an error. *)
Definition M (St A : Type) : Type := St -> St * result A.

#[global] Instance M_ret {St} : MRet (M St) := fun A a st => (st, Ok a).

#[global] Instance M_bind {St} : MBind (M St) := fun A B f m st =>
  match m st with
  | (st', Ok a) => f a st'
  | (st', Err e) => (st', Err e)
  end.

(** [return errors.New(msg)] *)
Definition fail {St A} (msg : string) : M St A := fun st => (st, Err msg).

(** [if err != nil { return fmt.Errorf(prefix + ": %w", err) }] *)
Definition wrapError {St A} (prefix : string) (m : M St A) : M St A := fun st =>
  match m st with
  | (st', Ok a) => (st', Ok a)
  | (st', Err e) => (st', Err (prefix ++ ": " ++ e)%string)
  end.

(** [if x == nil { return errors.New(msg) }] *)
Definition notNil {St A} (msg : string) (x : option A) : M St A :=
  match x with
  | Some a => mret a
  | None => fail msg
  end.

(** ** [storage.Storage]: the operations the assessment service calls *)
Class Storage (St : Type) := {
  GetApplication : string -> M St (option Application.t);
  GetQuestions : M St (list Question.t);
  GetQuestion : string -> M St (option Question.t);
  CreateAssessment : Assessment.t -> M St unit;
  GetAssessment : string -> M St (option Assessment.t);
  UpdateAssessment : Assessment.t -> M St unit;
  SaveReport : Report.t -> M St unit;
  GetReport : string -> M St (option Report.t)
}.

(** ** [services.AssessmentService] *)
Module services.
Section AssessmentService.
Context {St : Type} `{!Storage St}.

(** What the clock, the UUID generator and the runtime's map order
    give to a request. *)
Variable now : string.
Variable newUUID : string.
Variable range : MapRange.

Definition StartAssessment (applicationID : string) : M St Assessment.t :=
  app ← wrapError "failed to find application" (GetApplication applicationID);
  _ ← notNil "application not found" app;
  let assessment := Assessment.mk newUUID applicationID now ∅ false "in_progress" in
  _ ← wrapError "failed to create assessment" (CreateAssessment assessment);
  mret assessment.

(** The validation loop of [SaveAnswer]. *)
Fixpoint optionValid (options : list Option.t) (optionID : string) : bool :=
  match options with
  | [] => false
  | option :: rest =>
      if String.eqb (Option.ID option) optionID then true
      else optionValid rest optionID
  end.

(** [SaveAnswer] up to the assignment: the assessment it is about to
    change, or the error it returns. *)
Definition validateAnswer (assessmentID questionID optionID : string) : M St Assessment.t :=
  assessment ← wrapError "failed to get assessment" (GetAssessment assessmentID);
  assessment ← notNil "assessment not found" assessment;
  question ← wrapError "failed to get question" (GetQuestion questionID);
  question ← notNil "question not found" question;
  if negb (optionValid (Question.Options question) optionID) then
    fail "option not found for question"
  else
    mret assessment.

(** The assignment [assessment.Answers[questionID] = optionID] panics on
    the nil map; nothing has been written by then. *)
Definition SaveAnswer (assessmentID questionID optionID : string)
    : St -> St * run unit := fun st =>
  match validateAnswer assessmentID questionID optionID st with
  | (st, Err err) => (st, Returns (Err err))
  | (st, Ok assessment) =>
      match Assessment.assignAnswer questionID optionID assessment with
      | None => (st, Panics "assignment to entry in nil map")
      | Some assessment =>
          match wrapError "failed to update assessment" (UpdateAssessment assessment) st with
          | (st, outcome) => (st, Returns outcome)
          end
      end
  end.

Definition CompleteAssessment (assessmentID : string) : M St Report.t :=
  assessment ← wrapError "failed to get assessment" (GetAssessment assessmentID);
  assessment ← notNil "assessment not found" assessment;
  questions ← wrapError "failed to get questions" GetQuestions;
  let assessment := Assessment.setStatus "completed" assessment in
  _ ← wrapError "failed to update assessment" (UpdateAssessment assessment);
  report ← wrapError "failed to generate report"
             (fun st => (st, Scoring.generateReport now range assessment questions));
  _ ← wrapError "failed to save report" (SaveReport report);
  mret report.

(** [GetQuestions], [GetAssessment] and [GetReport] hand the request to
    the storage. *)
Definition GetQuestions : M St (list Question.t) := GetQuestions.

Definition GetAssessment (id : string) : M St (option Assessment.t) :=
  GetAssessment id.

Definition GetReport (assessmentID : string) : M St (option Report.t) :=
  GetReport assessmentID.

End AssessmentService.
End services.

(** ** [storage.FileStorage]

    One JSON file per record under [basePath]: [<dir>/<id>.json].  A
    directory is the finite map from the identifier in the file name to
    the record the file decodes to; the questions directory is kept as the
    listing [os.ReadDir] returns, since [GetQuestions] walks it in that
    order.  An entry of a directory says that the file exists.

    [readFaults] holds the paths on which reading fails: with an error of
    the operating system other than "does not exist" ([ReadError], to
    [os.ReadFile] and [os.ReadDir]), or because the content of the file
    is not a JSON document of the record ([DecodeError], to
    [json.Unmarshal]); the record kept for such a file is never read.
    [writeFaults] holds the paths on which [os.WriteFile] fails, with what
    the failed call leaves behind.  The texts are those of the errors.

    A file holds the record it was written from: the strings of a record
    are taken to be valid UTF-8, which is what the JSON encoder writes. *)
Module FileStorage.

Inductive readFault : Type :=
  | ReadError (text : string)
  | DecodeError (text : string).

Definition readFaultText (fault : readFault) : string :=
  match fault with
  | ReadError text => text
  | DecodeError text => text
  end.

(** [os.WriteFile] opens the file with [O_CREATE|O_TRUNC], writes and
    closes.  When it fails the file is as before if it could not be
    opened, exists with no or part of the content if the write broke off,
    or holds the whole content if only the close failed. *)
Inductive residue : Type :=
  | Untouched
  | Truncated
  | Written.

Record writeFault := mkWriteFault { leaves : residue; text : string }.

Record t := mk {
  applications : gmap string Application.t;
  questions : list (string * Question.t);
  assessments : gmap string Assessment.t;
  reports : gmap string Report.t;
  readFaults : gmap string readFault;
  writeFaults : gmap string writeFault
}.

(** The paths on which reading fails, and those on which writing does. *)
Definition unreadable (s : t) : gset string := dom (readFaults s).
Definition unwritable (s : t) : gset string := dom (writeFaults s).

(** [filepath.Join(s.basePath, dir, id+".json")], relative to [basePath].
    [filepath.Join] cleans the path it builds: the file is
    [<dir>/<id>.json] for an identifier that is a single path element,
    which [plain] says. *)
Definition path (dir id : string) : string := (dir ++ "/" ++ id ++ ".json")%string.

Fixpoint plain (id : string) : bool :=
  match id with
  | EmptyString => true
  | String c rest =>
      negb (Ascii.eqb c "/"%char) && negb (Ascii.eqb c "000"%char) && plain rest
  end.

(** The faults after the file at [p] was written in full, and after a
    write to it broke off: a truncated file is not a JSON document. *)
Definition decodable (p : string) (faults : gmap string readFault)
    : gmap string readFault :=
  match faults !! p with
  | Some (DecodeError _) => delete p faults
  | _ => faults
  end.

Definition undecodable (p : string) (faults : gmap string readFault)
    : gmap string readFault :=
  match faults !! p with
  | Some (ReadError _) => faults
  | _ => <[p := DecodeError "unexpected end of JSON input"]> faults
  end.

Definition truncated (p : string) (s : t) : t :=
  mk (applications s) (questions s) (assessments s) (reports s)
     (undecodable p (readFaults s)) (writeFaults s).

(** [os.ReadFile] followed by [json.Unmarshal]: [Ok None] when the file
    does not exist. *)
Definition readFile {A} (what dir id : string) (file : option A) : M t (option A) :=
  fun s =>
    match readFaults s !! path dir id, file with
    | Some (ReadError text), _ =>
        (s, Err ("failed to read " ++ what ++ " file: " ++ text)%string)
    | Some (DecodeError text), Some _ =>
        (s, Err ("failed to unmarshal " ++ what ++ ": " ++ text)%string)
    | Some (DecodeError _), None => (s, Ok None)
    | None, _ => (s, Ok file)
    end.

(** [os.WriteFile]: [put] is the store with the file written in full. *)
Definition writeFile (what dir id : string) (put : t -> t) : M t unit :=
  fun s =>
    match writeFaults s !! path dir id with
    | None => (put s, Ok tt)
    | Some fault =>
        (match leaves fault with
         | Untouched => s
         | Truncated => truncated (path dir id) (put s)
         | Written => put s
         end,
         Err ("failed to write " ++ what ++ " file: " ++ text fault)%string)
    end.

Definition putAssessment (assessment : Assessment.t) (s : t) : t :=
  mk (applications s) (questions s)
     (<[Assessment.ID assessment := assessment]> (assessments s))
     (reports s)
     (decodable (path "assessments" (Assessment.ID assessment)) (readFaults s))
     (writeFaults s).

Definition putReport (report : Report.t) (s : t) : t :=
  mk (applications s) (questions s) (assessments s)
     (<[Report.AssessmentID report := report]> (reports s))
     (decodable (path "reports" (Report.AssessmentID report)) (readFaults s))
     (writeFaults s).

Definition GetApplication (id : string) : M t (option Application.t) :=
  fun s => readFile "application" "applications" id (applications s !! id) s.

(** [os.ReadDir] lists a directory sorted by file name. *)
Definition fileName (id : string) : string := (id ++ ".json")%string.

(** The loop of [GetQuestions] over the directory entries: the first
    file that cannot be read or decoded aborts the listing. *)
Fixpoint readQuestions (s : t) (files : list (string * Question.t))
    (acc : list Question.t) : result (list Question.t) :=
  match files with
  | [] => Ok acc
  | (name, question) :: rest =>
      match readFaults s !! path "questions" name with
      | Some (ReadError text) =>
          Err ("failed to read question file " ++ fileName name ++ ": " ++ text)%string
      | Some (DecodeError text) =>
          Err ("failed to unmarshal question " ++ fileName name ++ ": " ++ text)%string
      | None => readQuestions s rest (acc ++ [question])%list
      end
  end.

Definition GetQuestions : M t (list Question.t) :=
  fun s =>
    match readFaults s !! "questions" with
    | Some fault =>
        (s, Err ("failed to read questions directory: " ++ readFaultText fault)%string)
    | None => (s, readQuestions s (questions s) [])
    end.

Fixpoint lookupFile {A} (files : list (string * A)) (name : string) : option A :=
  match files with
  | [] => None
  | (n, a) :: rest => if String.eqb n name then Some a else lookupFile rest name
  end.

Definition GetQuestion (id : string) : M t (option Question.t) :=
  fun s => readFile "question" "questions" id (lookupFile (questions s) id) s.

Definition CreateAssessment (assessment : Assessment.t) : M t unit :=
  writeFile "assessment" "assessments" (Assessment.ID assessment) (putAssessment assessment).

Definition GetAssessment (id : string) : M t (option Assessment.t) :=
  fun s => readFile "assessment" "assessments" id (assessments s !! id) s.

(** [os.Stat] first: only "does not exist" stops the update. *)
Definition UpdateAssessment (assessment : Assessment.t) : M t unit :=
  fun s =>
    let id := Assessment.ID assessment in
    match assessments s !! id with
    | None => (s, Err ("assessment not found: " ++ id)%string)
    | Some _ => writeFile "assessment" "assessments" id (putAssessment assessment) s
    end.

Definition SaveReport (report : Report.t) : M t unit :=
  writeFile "report" "reports" (Report.AssessmentID report) (putReport report).

Definition GetReport (assessmentID : string) : M t (option Report.t) :=
  fun s => readFile "report" "reports" assessmentID (reports s !! assessmentID) s.

#[global] Instance storage : Storage t :=
  Build_Storage t GetApplication GetQuestions GetQuestion CreateAssessment
    GetAssessment UpdateAssessment SaveReport GetReport.

(** *** The operations of [FileStorage] the service does not call *)

Definition putApplication (app : Application.t) (s : t) : t :=
  mk (<[Application.ID app := app]> (applications s)) (questions s)
     (assessments s) (reports s)
     (decodable (path "applications" (Application.ID app)) (readFaults s))
     (writeFaults s).

Definition SaveApplication (app : Application.t) : M t unit :=
  writeFile "application" "applications" (Application.ID app) (putApplication app).

Definition byFileName {A} (x y : string * A) : Prop :=
  String.leb (fileName x.1) (fileName y.1) = true.

#[global] Instance byFileName_dec {A} (x y : string * A) : Decision (byFileName x y) :=
  decide (String.leb (fileName x.1) (fileName y.1) = true).

Definition readDir {A} (files : gmap string A) : list (string * A) :=
  merge_sort byFileName (map_to_list files).

(** The loop of [ListAssessments]: every file is read and decoded, and
    the assessments of the application (all of them for the empty
    identifier) are kept. *)
Fixpoint readAssessments (s : t) (applicationID : string)
    (files : list (string * Assessment.t)) (assessments : list Assessment.t)
    : result (list Assessment.t) :=
  match files with
  | [] => Ok assessments
  | (name, assessment) :: rest =>
      match readFaults s !! path "assessments" name with
      | Some (ReadError text) =>
          Err ("failed to read assessment file " ++ fileName name ++ ": " ++ text)%string
      | Some (DecodeError text) =>
          Err ("failed to unmarshal assessment " ++ fileName name ++ ": " ++ text)%string
      | None =>
          if String.eqb applicationID ""
             || String.eqb (Assessment.ApplicationID assessment) applicationID
          then readAssessments s applicationID rest (assessments ++ [assessment])
          else readAssessments s applicationID rest assessments
      end
  end.

Definition ListAssessments (applicationID : string) : M t (list Assessment.t) :=
  fun s =>
    match readFaults s !! "assessments" with
    | Some fault =>
        (s, Err ("failed to read assessments directory: " ++ readFaultText fault)%string)
    | None => (s, readAssessments s applicationID (readDir (assessments s)) [])
    end.

End FileStorage.

(** ** [api.Handler]

    A handler gets the path variable and the decoded request body (or the
    decoder's error) and writes one response: a status code and a JSON
    payload. *)
Module api.

Inductive payload : Type :=
  | ErrorBody (message : string)
  | StatusBody (status : string)
  | QuestionsBody (questions : list Question.t)
  | AssessmentBody (assessment : Assessment.t)
  | ReportBody (report : Report.t).

Record response := mkResponse { code : Z; body : payload }.

Definition StatusOK : Z := 200.
Definition StatusCreated : Z := 201.
Definition StatusBadRequest : Z := 400.
Definition StatusNotFound : Z := 404.
Definition StatusInternalServerError : Z := 500.

Definition respondWithJSON (code : Z) (payload : payload) : response :=
  mkResponse code payload.

Definition respondWithError (code : Z) (message : string) : response :=
  respondWithJSON code (ErrorBody message).

Section Handler.
Context {St : Type} `{!Storage St}.
Variable now : string.
Variable newUUID : string.
Variable range : MapRange.

Definition GetQuestions : St -> St * response := fun st =>
  match services.GetQuestions st with
  | (st', Err err) =>
      (st', respondWithError StatusInternalServerError
              ("Failed to get questions: " ++ err)%string)
  | (st', Ok questions) => (st', respondWithJSON StatusOK (QuestionsBody questions))
  end.

Definition StartAssessment (req : result string) : St -> St * response := fun st =>
  match req with
  | Err err => (st, respondWithError StatusBadRequest ("Invalid request body: " ++ err)%string)
  | Ok applicationID =>
      if String.eqb applicationID "" then
        (st, respondWithError StatusBadRequest "Application ID is required")
      else
        match services.StartAssessment now newUUID applicationID st with
        | (st', Err err) =>
            (st', respondWithError StatusInternalServerError
                    ("Failed to start assessment: " ++ err)%string)
        | (st', Ok assessment) =>
            (st', respondWithJSON StatusCreated (AssessmentBody assessment))
        end
  end.

Definition GetAssessment (assessmentID : string) : St -> St * response := fun st =>
  match services.GetAssessment assessmentID st with
  | (st', Err err) =>
      (st', respondWithError StatusInternalServerError
              ("Failed to get assessment: " ++ err)%string)
  | (st', Ok None) => (st', respondWithError StatusNotFound "Assessment not found")
  | (st', Ok (Some assessment)) =>
      (st', respondWithJSON StatusOK (AssessmentBody assessment))
  end.

(** When the service panics the handler writes no response, [None]:
    [net/http] recovers the panic, logs it and closes the connection. *)
Definition SaveAnswer (assessmentID : string) (req : result (string * string))
    : St -> St * option response := fun st =>
  match req with
  | Err err =>
      (st, Some (respondWithError StatusBadRequest ("Invalid request body: " ++ err)%string))
  | Ok (questionID, optionID) =>
      if String.eqb questionID "" || String.eqb optionID "" then
        (st, Some (respondWithError StatusBadRequest
                     "Question ID and Option ID are required"))
      else
        match services.SaveAnswer assessmentID questionID optionID st with
        | (st', Panics _) => (st', None)
        | (st', Returns (Err err)) =>
            (st', Some (respondWithError StatusInternalServerError
                          ("Failed to save answer: " ++ err)%string))
        | (st', Returns (Ok _)) =>
            (st', Some (respondWithJSON StatusOK (StatusBody "success")))
        end
  end.

Definition CompleteAssessment (assessmentID : string) : St -> St * response := fun st =>
  match services.CompleteAssessment now range assessmentID st with
  | (st', Err err) =>
      (st', respondWithError StatusInternalServerError
              ("Failed to complete assessment: " ++ err)%string)
  | (st', Ok report) => (st', respondWithJSON StatusOK (ReportBody report))
  end.

Definition GetReport (assessmentID : string) : St -> St * response := fun st =>
  match services.GetReport assessmentID st with
  | (st', Err err) =>
      (st', respondWithError StatusInternalServerError
              ("Failed to get report: " ++ err)%string)
  | (st', Ok None) => (st', respondWithError StatusNotFound "Report not found")
  | (st', Ok (Some report)) => (st', respondWithJSON StatusOK (ReportBody report))
  end.

End Handler.
End api.

(** ** Reference values over the unbounded integers

    What the scoring loop would compute if [int] did not wrap; used to say
    when a catalog stays within the range of [int]. *)
Module Exact.

Definition score (answers : gmap string string) (question : Question.t) : Z :=
  match answers !! Question.ID question with
  | Some optionID =>
      match Scoring.selectedOption (Question.Options question) optionID with
      | Some option => Option.Points option * Question.Weight question
      | None => 0
      end
  | None => 0
  end.

Definition ceiling (question : Question.t) : Z :=
  Question.Weight question * Scoring.maxOptionPoints (Question.Options question).

Fixpoint total (questions : list Question.t) (answers : gmap string string) : Z :=
  match questions with
  | [] => 0
  | question :: rest => score answers question + total rest answers
  end.

Fixpoint maxPossible (questions : list Question.t) : Z :=
  match questions with
  | [] => 0
  | question :: rest => ceiling question + maxPossible rest
  end.

(** The same sums over the questions of one category. *)
Fixpoint categoryTotal (category : string) (questions : list Question.t)
    (answers : gmap string string) : Z :=
  match questions with
  | [] => 0
  | question :: rest =>
      (if String.eqb (Question.Category question) category
       then score answers question else 0) +
      categoryTotal category rest answers
  end.

Fixpoint categoryMax (category : string) (questions : list Question.t) : Z :=
  match questions with
  | [] => 0
  | question :: rest =>
      (if String.eqb (Question.Category question) category
       then ceiling question else 0) +
      categoryMax category rest
  end.

End Exact.

(** Whether a category rule applies to a score: the category has a
    non-zero maximum and the ratio is below the threshold. *)
Definition ruleFires (categoryMaxScores : gmap string Z) (category : string)
    (score : Z) (threshold : Float64.t) : bool :=
  match categoryMaxScores !! category with
  | Some categoryMax =>
      negb (categoryMax =? 0) && Float64.ltb (Float64.ratio score categoryMax) threshold
  | None => false
  end.

(** The category-specific recommendations and risks read off the two
    maps, "Architecture" first. *)
Definition categoryRecommendations (categoryScores categoryMaxScores : gmap string Z)
    : list Recommendation.t :=
  match categoryScores !! "Architecture" with
  | Some score =>
      if ruleFires categoryMaxScores "Architecture" score Float64.c0_5
      then [Scoring.architectureRecommendation "Architecture"] else []
  | None => []
  end ++
  match categoryScores !! "Persistence" with
  | Some score =>
      if ruleFires categoryMaxScores "Persistence" score Float64.c0_6
      then [Scoring.persistenceRecommendation "Persistence"] else []
  | None => []
  end.

Definition categoryRisks (categoryScores categoryMaxScores : gmap string Z)
    : list Risk.t :=
  match categoryScores !! "Architecture" with
  | Some score =>
      if ruleFires categoryMaxScores "Architecture" score Float64.c0_5
      then [Scoring.architectureRisk "Architecture"] else []
  | None => []
  end ++
  match categoryScores !! "Persistence" with
  | Some score =>
      if ruleFires categoryMaxScores "Persistence" score Float64.c0_6
      then [Scoring.persistenceRisk "Persistence"] else []
  | None => []
  end.

(** The option the scoring loop finds for a question, if any: the answer
    map has an entry for the question and the entry names one of its
    options. *)
Definition pickedOption (answers : gmap string string) (question : Question.t)
    : option Option.t :=
  match answers !! Question.ID question with
  | Some optionID => Scoring.selectedOption (Question.Options question) optionID
  | None => None
  end.

(** Catalog conditions of the data model. *)
Definition pointsNonNegative (questions : list Question.t) : Prop :=
  Forall (fun question =>
            Forall (fun option => 0 <= Option.Points option) (Question.Options question))
    questions.

Definition weightsNonNegative (questions : list Question.t) : Prop :=
  Forall (fun question => 0 <= Question.Weight question) questions.

(** Every question file is named after the ID of the question it holds,
    as [ensureSampleData] writes them. *)
Definition questionsKeyedByID (s : FileStorage.t) : Prop :=
  forall name question,
    (name, question) ∈ FileStorage.questions s -> Question.ID question = name.

(** Every assessment file is named after the ID it holds, as
    [CreateAssessment] and [UpdateAssessment] write them. *)
Definition keyedByID (s : FileStorage.t) : Prop :=
  forall id assessment,
    FileStorage.assessments s !! id = Some assessment -> Assessment.ID assessment = id.

(** Two stores that differ at most in the file of one assessment. *)
Definition sameButAssessment (id : string) (s s' : FileStorage.t) : Prop :=
  FileStorage.applications s' = FileStorage.applications s /\
  FileStorage.questions s' = FileStorage.questions s /\
  FileStorage.reports s' = FileStorage.reports s /\
  forall other, other <> id ->
    FileStorage.assessments s' !! other = FileStorage.assessments s !! other.

(** Two reports with the same findings: they differ at most in the time
    of generation and in the order of the recommendations and of the
    risks. *)
Definition sameFindings (report report' : Report.t) : Prop :=
  Report.AssessmentID report = Report.AssessmentID report' /\
  Report.ApplicationID report = Report.ApplicationID report' /\
  Report.TotalScore report = Report.TotalScore report' /\
  Report.MaxPossibleScore report = Report.MaxPossibleScore report' /\
  Report.CategoryScores report = Report.CategoryScores report' /\
  Report.ModernizationPlan report = Report.ModernizationPlan report' /\
  head (Report.Recommendations report) = head (Report.Recommendations report') /\
  Report.Recommendations report ≡ₚ Report.Recommendations report' /\
  Report.Risks report ≡ₚ Report.Risks report'.

(** A catalog in which one option of one question is given other points;
    every other option, weight and question stays as it is. *)
Definition withPoints (points : Z) (option : Option.t) : Option.t :=
  Option.mk (Option.ID option) (Option.Text option) points.

Definition catalogWith (before : list Question.t)
    (id text category : string) (weight : Z)
    (options1 : list Option.t) (option : Option.t) (options2 : list Option.t)
    (after : list Question.t) : list Question.t :=
  before ++
  Question.mk id text category (options1 ++ option :: options2) weight :: after.

(** ** Sample catalogs and answers *)
Module Samples.

(** One question of weight 5 whose single option is worth 10 points. *)
Definition catalog : list Question.t :=
  [Question.mk "q1" "Is the application stateless?" "Architecture"
     [Option.mk "o1" "Yes" 10] 5].

Definition answered : gmap string string := {[ "q1" := "o1" ]}.

Definition assessment (answers : gmap string string) (status : string) : Assessment.t :=
  Assessment.mk "a1" "app1" "2024-01-01T00:00:00Z" answers false status.

(** A question of weight -1; its option goes from 1 point to 2. *)
Definition negativeWeight (points : Z) : list Question.t :=
  catalogWith [] "q1" "" "Architecture" (-1) [] (withPoints points (Option.mk "o1" "" 1)) [] [].

(** A question of weight 2^62 whose option is worth 2 points. *)
Definition hugeWeight : list Question.t :=
  [Question.mk "q1" "" "Architecture" [Option.mk "o1" "" 2] (2 ^ 62)].

(** A question of weight 2; its option goes from 2^62 - 1 points to 2^62. *)
Definition hugePoints (points : Z) : list Question.t :=
  catalogWith [] "q1" "" "Architecture" 2 []
    (withPoints points (Option.mk "o1" "" (2 ^ 62 - 1))) [] [].

(** The questions [ensureSampleData] installs in a fresh data directory. *)
Definition sampleQuestions : list Question.t :=
  [Question.mk "q1" "Is the application stateless?" "Architecture"
     [Option.mk "q1_a1" "Yes, completely stateless" 10;
      Option.mk "q1_a2" "Mostly stateless with minimal state" 7;
      Option.mk "q1_a3" "Partially stateless" 4;
      Option.mk "q1_a4" "Heavily stateful" 1] 5;
   Question.mk "q2" "Does the application use external configuration?" "Configuration"
     [Option.mk "q2_a1" "Yes, all configuration is external" 10;
      Option.mk "q2_a2" "Most configuration is external" 7;
      Option.mk "q2_a3" "Some configuration is external" 4;
      Option.mk "q2_a4" "No, all configuration is internal" 1] 3;
   Question.mk "q3" "How is application logging handled?" "Observability"
     [Option.mk "q3_a1" "Logs to stdout/stderr" 10;
      Option.mk "q3_a2" "Logs to configurable location" 7;
      Option.mk "q3_a3" "Logs to fixed file location" 3;
      Option.mk "q3_a4" "No logging capability" 0] 2;
   Question.mk "q4" "How does the application store persistent data?" "Persistence"
     [Option.mk "q4_a1" "Uses external databases with connection strings" 10;
      Option.mk "q4_a2" "Uses external storage with configurable location" 7;
      Option.mk "q4_a3" "Uses local filesystem with fixed paths" 3;
      Option.mk "q4_a4" "Embedded database or storage" 1] 4;
   Question.mk "q5" "Does the application support horizontal scaling?" "Scalability"
     [Option.mk "q5_a1" "Designed for horizontal scaling" 10;
      Option.mk "q5_a2" "Can scale horizontally with minor changes" 7;
      Option.mk "q5_a3" "Requires significant changes to scale horizontally" 3;
      Option.mk "q5_a4" "Cannot scale horizontally" 0] 5].

(** A data directory with that question and one assessment "a1" without
    answers, in the given status; [writeFaults] lists the paths on which
    writing fails. *)
Definition store (status : string) (writeFaults : gmap string FileStorage.writeFault)
    : FileStorage.t :=
  FileStorage.mk ∅
    [("q1", Question.mk "q1" "Is the application stateless?" "Architecture"
              [Option.mk "o1" "Yes" 10] 5)]
    {[ "a1" := assessment ∅ status ]} ∅ ∅ writeFaults.

(** The same directory when the file of "a1" has no "answers". *)
Definition storeWithoutAnswers : FileStorage.t :=
  FileStorage.mk ∅
    [("q1", Question.mk "q1" "Is the application stateless?" "Architecture"
              [Option.mk "o1" "Yes" 10] 5)]
    {[ "a1" := Assessment.mk "a1" "app1" "2024-01-01T00:00:00Z" ∅ true "in_progress" ]}
    ∅ ∅ ∅.

(** What the operating system reports for a read-only file, a full disk
    and a quota found exceeded when the file is closed. *)
Definition readOnly (p : string) : FileStorage.writeFault :=
  FileStorage.mkWriteFault FileStorage.Untouched
    ("open data/" ++ p ++ ": permission denied").
Definition diskFull (p : string) : FileStorage.writeFault :=
  FileStorage.mkWriteFault FileStorage.Truncated
    ("write data/" ++ p ++ ": no space left on device").
Definition quotaOnClose (p : string) : FileStorage.writeFault :=
  FileStorage.mkWriteFault FileStorage.Written
    ("close data/" ++ p ++ ": disk quota exceeded").

(** A fresh data directory after [ensureSampleData]: the installed
    questions, each in the file named after its ID, and the application
    "app1"; no assessment yet. *)
Definition seeded : FileStorage.t :=
  FileStorage.mk
    {[ "app1" := Application.mk "app1" "Sample Application"
                   "A sample application for testing the assessment tool"
                   {[ "language" := "Java"; "type" := "Web Application" ]} ]}
    (map (fun question => (Question.ID question, question)) sampleQuestions)
    ∅ ∅ ∅ ∅.

(** The seeded store after an assessment "a1" was started for "app1". *)
Definition started : FileStorage.t :=
  FileStorage.putAssessment (assessment ∅ "in_progress") seeded.

End Samples.

(** * Properties *)

(** ** Comparisons of [float64] values against the thresholds *)
Section FloatOrder.

Lemma SFcompare_antisym (x y : spec_float) (c : comparison) :
  SFcompare x y = Some c -> SFcompare y x = Some (CompOpp c).
Proof.
  destruct x as [sx|sx| |sx mx ex], y as [sy|sy| |sy my ey]; simpl;
    try discriminate;
    try (destruct sx; intros [= <-]; reflexivity);
    try (destruct sy; intros [= <-]; reflexivity);
    try (intros [= <-]; reflexivity).
  - destruct sx, sy; intros [= <-]; reflexivity.
  - destruct sx, sy; intros [= <-]; try reflexivity.
    + rewrite (Z.compare_antisym ex ey).
      destruct (ex ?= ey); simpl; try reflexivity.
      now rewrite (Pos.compare_cont_antisym mx my Eq).
    + rewrite (Z.compare_antisym ex ey).
      destruct (ex ?= ey); simpl; try reflexivity.
      now rewrite (Pos.compare_cont_antisym mx my Eq).
Qed.

(** [c <= x] excludes [x < c]. *)
Lemma leb_not_ltb (c x : Float64.t) :
  Float64.leb c x = true -> Float64.ltb x c = false.
Proof.
  unfold Float64.leb, Float64.ltb, SFleb, SFltb.
  destruct (SFcompare c x) as [o|] eqn:E; [|discriminate].
  rewrite (SFcompare_antisym _ _ _ E). now destruct o.
Qed.

(** Below a positive threshold means below every larger threshold of
    the same binade. *)
Lemma leb_not_ltb_smaller (m1 m2 : positive) (e0 : Z) (x : Float64.t) :
  (m2 <= m1)%positive ->
  Float64.leb (S754_finite false m1 e0) x = true ->
  Float64.ltb x (S754_finite false m2 e0) = false.
Proof.
  intros Hm. unfold Float64.leb, Float64.ltb, SFleb, SFltb.
  destruct x as [s|s| |s m e]; simpl; try reflexivity; try (now destruct s).
  destruct s; simpl; [discriminate|].
  rewrite (Z.compare_antisym e e0).
  destruct (e ?= e0) eqn:E; simpl; try reflexivity; try discriminate.
  change (Pos.compare_cont Eq ?a ?b) with (Pos.compare a b).
  destruct (Pos.compare_spec m1 m); try discriminate; intros _.
  - subst m. destruct (Pos.compare_spec m1 m2); try reflexivity. lia.
  - destruct (Pos.compare_spec m m2); try reflexivity. lia.
Qed.

(** [0.7 <= x] excludes [x < 0.5]. *)
Lemma leb_0_7_not_ltb_0_5 (x : Float64.t) :
  Float64.leb Float64.c0_7 x = true -> Float64.ltb x Float64.c0_5 = false.
Proof. apply leb_not_ltb_smaller. lia. Qed.

End FloatOrder.

(** ** The modernization plan *)
Section ModernizationPlan.

Lemma plan_shape (totalScore maxScore : Z) :
  let ratio := Float64.ratio totalScore maxScore in
  let plan := Scoring.createModernizationPlan totalScore maxScore in
  map ModernizationStep.Order plan = map Z.of_nat (seq 1 (length plan)) /\
  length plan =
    (if Float64.ltb ratio Float64.c0_5 then 8
     else if Float64.ltb ratio Float64.c0_7 then 7 else 5)%nat /\
  map ModernizationStep.Effort (take 1 plan) = ["Low"] /\
  map ModernizationStep.Effort (drop (length plan - 4) plan) =
    ["Medium"; "Medium"; "Medium"; "Medium"].
Proof.
  intros ratio plan. subst plan. unfold Scoring.createModernizationPlan.
  fold ratio.
  destruct (Float64.ltb ratio Float64.c0_5);
    [|destruct (Float64.ltb ratio Float64.c0_7)];
    repeat split; reflexivity.
Qed.

(** C3. The [Order] fields of every plan are 1, 2, ..., N in sequence;
    N is 8 when the overall ratio is below 0.5, 7 when it lies in
    [0.5, 0.7) and 5 when it is at least 0.7; the first step has effort
    Low and the last four have effort Medium. *)
Theorem createModernizationPlan_orders (totalScore maxScore : Z) :
  let ratio := Float64.ratio totalScore maxScore in
  let plan := Scoring.createModernizationPlan totalScore maxScore in
  map ModernizationStep.Order plan = map Z.of_nat (seq 1 (length plan)) /\
  (Float64.ltb ratio Float64.c0_5 = true -> length plan = (1 + 3 + 4)%nat) /\
  (Float64.leb Float64.c0_5 ratio = true -> Float64.ltb ratio Float64.c0_7 = true ->
     length plan = (1 + 2 + 4)%nat) /\
  (Float64.leb Float64.c0_7 ratio = true -> length plan = (1 + 0 + 4)%nat) /\
  map ModernizationStep.Effort (take 1 plan) = ["Low"] /\
  map ModernizationStep.Effort (drop (length plan - 4) plan) =
    ["Medium"; "Medium"; "Medium"; "Medium"].
Proof.
  intros ratio plan.
  destruct (plan_shape totalScore maxScore) as (Hord & Hlen & Hlow & Hmed).
  fold ratio plan in Hord, Hlen, Hlow, Hmed.
  repeat split; try assumption.
  - intros H. now rewrite Hlen, H.
  - intros H5 H7. apply leb_not_ltb in H5. now rewrite Hlen, H5, H7.
  - intros H7. pose proof (leb_0_7_not_ltb_0_5 _ H7) as H5.
    apply leb_not_ltb in H7. now rewrite Hlen, H5, H7.
Qed.

(** The three tiers, on catalogs of one question worth 50 points. *)
Lemma createModernizationPlan_orders_witness :
  length (Scoring.createModernizationPlan 0 50) = 8%nat /\
  length (Scoring.createModernizationPlan 30 50) = 7%nat /\
  length (Scoring.createModernizationPlan 50 50) = 5%nat.
Proof.
  split; [|split].
  - apply (createModernizationPlan_orders 0 50). reflexivity.
  - apply (createModernizationPlan_orders 30 50); reflexivity.
  - apply (createModernizationPlan_orders 50 50). reflexivity.
Defined.

End ModernizationPlan.

(** ** Recommendations and risks *)
Section Recommendations.

Implicit Types (report : Report.t) (entry : string * Z).
Implicit Types (categoryMaxScores categoryScores : gmap string Z).

(** One iteration appends its entries and touches nothing else. *)
Lemma categoryRecommendation_appends categoryMaxScores report entry :
  let report' := Scoring.categoryRecommendation categoryMaxScores report entry in
  Report.Recommendations report' =
    Report.Recommendations report ++ Scoring.emittedRecommendations categoryMaxScores entry /\
  Report.Risks report' =
    Report.Risks report ++ Scoring.emittedRisks categoryMaxScores entry /\
  Report.TotalScore report' = Report.TotalScore report /\
  Report.MaxPossibleScore report' = Report.MaxPossibleScore report /\
  Report.CategoryScores report' = Report.CategoryScores report /\
  Report.AssessmentID report' = Report.AssessmentID report.
Proof.
  unfold Scoring.emittedRecommendations, Scoring.emittedRisks,
    Scoring.categoryRecommendation.
  destruct entry as [category score].
  destruct (categoryMaxScores !! category) as [maxScore|];
    [destruct (maxScore =? 0)|];
    try (destruct (_ && _); [|destruct (_ && _)]);
    cbn; rewrite ?app_nil_r; repeat split.
Qed.

Lemma categoryLoop_appends categoryMaxScores (entries : list (string * Z)) report :
  let report' := fold_left (Scoring.categoryRecommendation categoryMaxScores) entries report in
  Report.Recommendations report' =
    Report.Recommendations report ++
    flat_map (Scoring.emittedRecommendations categoryMaxScores) entries /\
  Report.Risks report' =
    Report.Risks report ++ flat_map (Scoring.emittedRisks categoryMaxScores) entries /\
  Report.TotalScore report' = Report.TotalScore report /\
  Report.MaxPossibleScore report' = Report.MaxPossibleScore report /\
  Report.CategoryScores report' = Report.CategoryScores report /\
  Report.AssessmentID report' = Report.AssessmentID report.
Proof.
  revert report. induction entries as [|entry entries IH]; intros report; simpl.
  - rewrite !app_nil_r. repeat split.
  - destruct (IH (Scoring.categoryRecommendation categoryMaxScores report entry))
      as (-> & -> & -> & -> & -> & ->).
    destruct (categoryRecommendation_appends categoryMaxScores report entry)
      as (-> & -> & -> & -> & -> & ->).
    rewrite <- !app_assoc. repeat split.
Qed.

(** Unfolds one iteration of the category loop and what it emitted. *)
Ltac open_iteration :=
  unfold Scoring.emittedRecommendations, Scoring.emittedRisks,
    Scoring.categoryRecommendation.

Lemma categoryRecommendation_outcome categoryMaxScores entry :
  outcome categoryMaxScores entry.
Proof.
  destruct entry as [category score].
  destruct (categoryMaxScores !! category) as [maxScore|] eqn:Hmax;
    [|apply Silent; open_iteration; now rewrite Hmax].
  destruct (maxScore =? 0) eqn:Hzero;
    [apply Silent; open_iteration; now rewrite Hmax, Hzero|].
  assert (Hnz : maxScore <> 0) by now apply Z.eqb_neq.
  destruct (Float64.ltb (Float64.ratio score maxScore) Float64.c0_5
            && String.eqb category "Architecture") eqn:Harch.
  { apply andb_true_iff in Harch as [Hlt ->%String.eqb_eq].
    apply (Architecture _ _ maxScore); try assumption; try reflexivity;
      open_iteration; now rewrite Hmax, Hzero, Hlt. }
  destruct (Float64.ltb (Float64.ratio score maxScore) Float64.c0_6
            && String.eqb category "Persistence") eqn:Hpers.
  { apply andb_true_iff in Hpers as [Hlt ->%String.eqb_eq].
    apply (Persistence _ _ maxScore); try assumption; try reflexivity;
      open_iteration; now rewrite Hmax, Hzero, Harch, Hlt. }
  apply Silent; open_iteration; now rewrite Hmax, Hzero, Harch, Hpers.
Qed.

(** Category-specific entries never carry the categories of the overall
    rule. *)
Lemma emitted_categories categoryMaxScores (entries : list (string * Z)) :
  Forall (fun r => Recommendation.Category r = "Architecture" \/
                   Recommendation.Category r = "Persistence")
    (flat_map (Scoring.emittedRecommendations categoryMaxScores) entries) /\
  Forall (fun r => Risk.Category r = "Architecture" \/ Risk.Category r = "Persistence")
    (flat_map (Scoring.emittedRisks categoryMaxScores) entries).
Proof.
  induction entries as [|entry entries [IHrec IHrisk]]; simpl.
  - split; constructor.
  - destruct (categoryRecommendation_outcome categoryMaxScores entry)
      as [-> ->|m _ _ _ _ -> ->|m _ _ _ _ -> ->]; simpl; split; auto.
Qed.

(** What [generateRecommendations] leaves in the report. *)
Lemma generateRecommendations_shape (range : MapRange) report (totalScore maxScore : Z)
    categoryScores categoryMaxScores :
  let report' :=
    Scoring.generateRecommendations range report totalScore maxScore
      categoryScores categoryMaxScores in
  let ratio := Float64.ratio totalScore maxScore in
  Report.Recommendations report' =
    Report.Recommendations report ++
    [if Float64.ltb ratio Float64.c0_5 then Scoring.generalHigh
     else if Float64.ltb ratio Float64.c0_7 then Scoring.generalMedium
     else Scoring.generalLow] ++
    flat_map (Scoring.emittedRecommendations categoryMaxScores) (range categoryScores) /\
  Report.Risks report' =
    Report.Risks report ++
    (if Float64.ltb ratio Float64.c0_5 then [Scoring.deploymentRisk] else []) ++
    flat_map (Scoring.emittedRisks categoryMaxScores) (range categoryScores) /\
  Report.TotalScore report' = Report.TotalScore report /\
  Report.MaxPossibleScore report' = Report.MaxPossibleScore report /\
  Report.CategoryScores report' = Report.CategoryScores report /\
  Report.AssessmentID report' = Report.AssessmentID report.
Proof.
  intros report' ratio. subst report'. unfold Scoring.generateRecommendations.
  destruct (categoryLoop_appends categoryMaxScores (range categoryScores)
              (Scoring.overallRecommendation report totalScore maxScore))
    as (-> & -> & -> & -> & -> & ->).
  unfold Scoring.overallRecommendation. fold ratio.
  destruct (Float64.ltb ratio Float64.c0_5);
    [|destruct (Float64.ltb ratio Float64.c0_7)];
    cbn; rewrite <- ?app_assoc; repeat split.
Qed.

Lemma filter_general_emitted categoryMaxScores (entries : list (string * Z)) :
  filter (fun r => Recommendation.Category r = "General")
    (flat_map (Scoring.emittedRecommendations categoryMaxScores) entries) = [].
Proof.
  destruct (emitted_categories categoryMaxScores entries) as [H _].
  induction H as [|r l Hr _ IH]; [reflexivity|].
  rewrite filter_cons_False; [exact IH|].
  intros Hg. rewrite Hg in Hr. destruct Hr; discriminate.
Qed.

Lemma no_deployment_emitted categoryMaxScores (entries : list (string * Z)) (risk : Risk.t) :
  risk ∈ flat_map (Scoring.emittedRisks categoryMaxScores) entries ->
  Risk.Category risk <> "Deployment".
Proof.
  destruct (emitted_categories categoryMaxScores entries) as [_ H].
  rewrite Forall_forall in H. intros Hin Hd.
  destruct (H risk Hin) as [Hc|Hc]; rewrite Hd in Hc; discriminate.
Qed.

(** What [generateReport] returns, field by field. *)
Lemma generateReport_shape (now : string) (range : MapRange)
    (assessment : Assessment.t) (questions : list Question.t) :
  let sc := Scoring.calculateScores questions (Assessment.Answers assessment) in
  let ratio := Float64.ratio (Scoring.totalScore sc) (Scoring.maxScore sc) in
  exists report,
    Scoring.generateReport now range assessment questions = Ok report /\
    Report.AssessmentID report = Assessment.ID assessment /\
    Report.TotalScore report = Scoring.totalScore sc /\
    Report.MaxPossibleScore report = Scoring.maxScore sc /\
    Report.CategoryScores report = Scoring.categoryScores sc /\
    Report.Recommendations report =
      (if Float64.ltb ratio Float64.c0_5 then Scoring.generalHigh
       else if Float64.ltb ratio Float64.c0_7 then Scoring.generalMedium
       else Scoring.generalLow) ::
      flat_map (Scoring.emittedRecommendations (Scoring.categoryMaxScores sc))
        (range (Scoring.categoryScores sc)) /\
    Report.Risks report =
      (if Float64.ltb ratio Float64.c0_5 then [Scoring.deploymentRisk] else []) ++
      flat_map (Scoring.emittedRisks (Scoring.categoryMaxScores sc))
        (range (Scoring.categoryScores sc)) /\
    Report.ModernizationPlan report =
      Scoring.createModernizationPlan (Scoring.totalScore sc) (Scoring.maxScore sc).
Proof.
  intros sc ratio. unfold Scoring.generateReport. fold sc.
  set (report0 := Report.setScores _ _ _ _).
  destruct (generateRecommendations_shape range report0
              (Scoring.totalScore sc) (Scoring.maxScore sc)
              (Scoring.categoryScores sc) (Scoring.categoryMaxScores sc))
    as (Hrec & Hrisk & Htot & Hmax & Hcat & Hid).
  eexists. split; [reflexivity|].
  cbn [Report.setModernizationPlan Report.Recommendations Report.Risks
       Report.TotalScore Report.MaxPossibleScore Report.CategoryScores
       Report.ModernizationPlan Report.AssessmentID].
  rewrite Hrec, Hrisk, Htot, Hmax, Hcat, Hid. repeat split.
Qed.

Lemma filter_deployment_emitted categoryMaxScores (entries : list (string * Z)) :
  filter (fun r => Risk.Category r = "Deployment")
    (flat_map (Scoring.emittedRisks categoryMaxScores) entries) = [].
Proof.
  destruct (emitted_categories categoryMaxScores entries) as [_ H].
  induction H as [|r l Hr _ IH]; [reflexivity|].
  rewrite filter_cons_False; [exact IH|].
  intros Hd. rewrite Hd in Hr. destruct Hr; discriminate.
Qed.

(** C2. Every generated report holds exactly one recommendation of
    category "General".  When the overall ratio is below 0.5 it is the
    High one ("requires significant modifications"), and the report holds
    exactly one risk of category "Deployment", of severity High
    ("architecture not suitable for containerization"); when the ratio
    lies in [0.5, 0.7) it is the Medium one and when the ratio is at least
    0.7 the Low one, in both cases with no Deployment risk.  The two
    thresholds are the doubles [1/2] and [7/10]. *)
Theorem generateReport_overall_recommendation (now : string) (range : MapRange)
    (assessment : Assessment.t) (questions : list Question.t) :
  exists report general,
    Scoring.generateReport now range assessment questions = Ok report /\
    filter (fun r => Recommendation.Category r = "General")
      (Report.Recommendations report) = [general] /\
    let ratio :=
      Float64.ratio (Report.TotalScore report) (Report.MaxPossibleScore report) in
    (Float64.ltb ratio Float64.c0_5 = true ->
       general =
         Recommendation.mk "General"
           "Application requires significant modifications for Kubernetes deployment"
           "High" /\
       filter (fun r => Risk.Category r = "Deployment") (Report.Risks report) =
         [Risk.mk "Deployment"
            "Application architecture not suitable for containerization" "High"]) /\
    (Float64.leb Float64.c0_5 ratio = true -> Float64.ltb ratio Float64.c0_7 = true ->
       general =
         Recommendation.mk "General"
           "Application needs moderate changes to be suitable for Kubernetes" "Medium" /\
       forall risk, risk ∈ Report.Risks report -> Risk.Category risk <> "Deployment") /\
    (Float64.leb Float64.c0_7 ratio = true ->
       general =
         Recommendation.mk "General"
           "Application is a good candidate for Kubernetes deployment" "Low" /\
       forall risk, risk ∈ Report.Risks report -> Risk.Category risk <> "Deployment") /\
    Float64.c0_5 = Float64.ratio 1 2 /\
    Float64.c0_7 = Float64.ratio 7 10.
Proof.
  destruct (generateReport_shape now range assessment questions)
    as (report & Hreport & _ & Ht & Hm & _ & Hrec & Hrisk & _).
  set (ratio := Float64.ratio _ _) in *.
  eexists report, _. split; [exact Hreport|].
  rewrite Ht, Hm, Hrec, Hrisk. fold ratio. split.
  { rewrite filter_cons_True.
    - now rewrite filter_general_emitted.
    - destruct (Float64.ltb ratio Float64.c0_5);
        [|destruct (Float64.ltb ratio Float64.c0_7)]; reflexivity. }
  split; [|split; [|split; [|split]]].
  - intros H5. rewrite H5. split; [reflexivity|].
    cbn [app]. rewrite filter_cons_True by reflexivity.
    now rewrite filter_deployment_emitted.
  - intros H5 H7. apply leb_not_ltb in H5. rewrite H5, H7. split; [reflexivity|].
    apply no_deployment_emitted.
  - intros H7. rewrite (leb_0_7_not_ltb_0_5 _ H7). apply leb_not_ltb in H7.
    rewrite H7. split; [reflexivity|]. apply no_deployment_emitted.
  - vm_compute; reflexivity.
  - vm_compute; reflexivity.
Qed.

(** Scenario B: the sample catalog with no answer scores 0 of 50. *)
Lemma generateReport_overall_recommendation_witness :
  exists report,
    Scoring.generateReport "2024-01-01T00:00:00Z" map_to_list
      (Samples.assessment ∅ "in_progress") Samples.catalog = Ok report /\
    filter (fun r => Recommendation.Category r = "General")
      (Report.Recommendations report) =
      [Recommendation.mk "General"
         "Application requires significant modifications for Kubernetes deployment"
         "High"] /\
    filter (fun r => Risk.Category r = "Deployment") (Report.Risks report) =
      [Risk.mk "Deployment"
         "Application architecture not suitable for containerization" "High"].
Proof.
  destruct (generateReport_overall_recommendation "2024-01-01T00:00:00Z" map_to_list
              (Samples.assessment ∅ "in_progress") Samples.catalog)
    as (report & general & Hreport & Hfilter & Hhigh & _).
  exists report. split; [exact Hreport|].
  destruct Hhigh as (<- & Hrisk).
  - injection Hreport as <-. vm_compute; reflexivity.
  - auto.
Defined.

Lemma fair_visits (range : MapRange) categoryScores (category : string) (score : Z) :
  fair range -> categoryScores !! category = Some score ->
  (category, score) ∈ range categoryScores.
Proof.
  intros Hfair Hin. rewrite (Hfair categoryScores). now apply elem_of_map_to_list.
Qed.

Lemma fair_map_to_list : fair map_to_list.
Proof. intros m. reflexivity. Qed.

Lemma elem_of_flat_map_intro {A B} (f : A -> list B) (l : list A) (a : A) (b : B) :
  a ∈ l -> b ∈ f a -> b ∈ flat_map f l.
Proof.
  rewrite !list_elem_of_In. intros Ha Hb. apply in_flat_map. eauto.
Qed.

(** An iteration that emits something is one whose rule applied. *)
Lemma emitted_fired categoryMaxScores entry :
  let fired :=
    exists categoryMax,
      categoryMaxScores !! entry.1 = Some categoryMax /\
      ((entry.1 = "Architecture" /\
        Float64.ltb (Float64.ratio entry.2 categoryMax) Float64.c0_5 = true) \/
       (entry.1 = "Persistence" /\
        Float64.ltb (Float64.ratio entry.2 categoryMax) Float64.c0_6 = true)) in
  (forall recommendation,
     recommendation ∈ Scoring.emittedRecommendations categoryMaxScores entry ->
     fired /\ Recommendation.Category recommendation = entry.1) /\
  (forall risk,
     risk ∈ Scoring.emittedRisks categoryMaxScores entry ->
     fired /\ Risk.Category risk = entry.1).
Proof.
  intros fired. subst fired.
  destruct (categoryRecommendation_outcome categoryMaxScores entry)
    as [-> ->|m Hc Hmax _ Hlt -> ->|m Hc Hmax _ Hlt -> ->].
  - split; intros x Hx; now apply elem_of_nil in Hx.
  - split; intros x ->%list_elem_of_singleton;
      (split; [exists m; split; [exact Hmax|left; auto]|now rewrite Hc]).
  - split; intros x ->%list_elem_of_singleton;
      (split; [exists m; split; [exact Hmax|right; auto]|now rewrite Hc]).
Qed.

(** When the rule of a category does not apply to its score, the loop
    adds no entry of that category to the report. *)
Lemma category_silent (range : MapRange) report (totalScore maxScore : Z)
    categoryScores categoryMaxScores (category : string) (score categoryMax : Z)
    (threshold : Float64.t) :
  fair range ->
  categoryScores !! category = Some score ->
  categoryMaxScores !! category = Some categoryMax ->
  (category = "Architecture" /\ threshold = Float64.c0_5 \/
   category = "Persistence" /\ threshold = Float64.c0_6) ->
  Float64.ltb (Float64.ratio score categoryMax) threshold = false ->
  let report' :=
    Scoring.generateRecommendations range report totalScore maxScore
      categoryScores categoryMaxScores in
  (forall recommendation,
     recommendation ∈ Report.Recommendations report' ->
     Recommendation.Category recommendation = category ->
     recommendation ∈ Report.Recommendations report) /\
  (forall risk,
     risk ∈ Report.Risks report' -> Risk.Category risk = category ->
     risk ∈ Report.Risks report).
Proof.
  intros Hfair Hscore Hmax Hrule Hlt report'.
  destruct (generateRecommendations_shape range report totalScore maxScore
              categoryScores categoryMaxScores) as (Hrec & Hrisk & _).
  fold report' in Hrec, Hrisk.
  assert (Hentry : forall entry,
            entry ∈ range categoryScores -> entry.1 = category -> entry.2 = score).
  { intros [c v] Hin Hc. cbn [fst snd] in *. subst c.
    rewrite (Hfair categoryScores) in Hin. apply elem_of_map_to_list in Hin. congruence. }
  assert (Hquiet : forall entry,
            entry ∈ range categoryScores -> entry.1 = category ->
            ~ (exists m,
                 categoryMaxScores !! entry.1 = Some m /\
                 ((entry.1 = "Architecture" /\
                   Float64.ltb (Float64.ratio entry.2 m) Float64.c0_5 = true) \/
                  (entry.1 = "Persistence" /\
                   Float64.ltb (Float64.ratio entry.2 m) Float64.c0_6 = true)))).
  { intros entry Hin Hc (m & Hm & Hfired).
    rewrite (Hentry entry Hin Hc), Hc, Hmax in *. injection Hm as <-.
    destruct Hrule as [[-> ->]|[-> ->]], Hfired as [[Hn Hf]|[Hn Hf]];
      try discriminate; congruence. }
  split.
  - intros recommendation Hin Hc. rewrite Hrec in Hin.
    apply elem_of_app in Hin as [Hin|Hin]; [exact Hin|exfalso].
    apply elem_of_app in Hin as [Hin|Hin].
    + apply list_elem_of_singleton in Hin. subst recommendation.
      destruct Hrule as [[-> _]|[-> _]];
        destruct (Float64.ltb _ Float64.c0_5);
        [|destruct (Float64.ltb _ Float64.c0_7)| |destruct (Float64.ltb _ Float64.c0_7)];
        discriminate.
    + rewrite list_elem_of_In in Hin. apply in_flat_map in Hin as (entry & Hentry' & Hin).
      rewrite <- !list_elem_of_In in *.
      destruct (proj1 (emitted_fired categoryMaxScores entry) recommendation Hin)
        as [Hfired Hcat].
      apply (Hquiet entry Hentry'); [congruence|exact Hfired].
  - intros risk Hin Hc. rewrite Hrisk in Hin.
    apply elem_of_app in Hin as [Hin|Hin]; [exact Hin|exfalso].
    apply elem_of_app in Hin as [Hin|Hin].
    + destruct (Float64.ltb _ Float64.c0_5); [|now apply elem_of_nil in Hin].
      apply list_elem_of_singleton in Hin. subst risk.
      destruct Hrule as [[-> _]|[-> _]]; discriminate.
    + rewrite list_elem_of_In in Hin. apply in_flat_map in Hin as (entry & Hentry' & Hin).
      rewrite <- !list_elem_of_In in *.
      destruct (proj2 (emitted_fired categoryMaxScores entry) risk Hin) as [Hfired Hcat].
      apply (Hquiet entry Hentry'); [congruence|exact Hfired].
Qed.

(** C7. For a category of the per-category scores: an absent or zero
    maximum makes its iteration leave the report as it is.  "Architecture"
    with a ratio below 0.5 makes the iteration emit one High
    recommendation and one High risk of that category, which the report
    then holds; with a ratio that is not below 0.5 the iteration leaves
    the report as it is and the loop adds no entry of that category.
    "Persistence" behaves in the same way with the threshold 0.6 and
    Medium entries.  The iteration of any other category leaves the report
    as it is.  The thresholds are the doubles [1/2] and [6/10]. *)
Theorem generateRecommendations_category_rules (range : MapRange) report
    (totalScore maxScore : Z) categoryScores categoryMaxScores
    (category : string) (score : Z) :
  fair range ->
  categoryScores !! category = Some score ->
  let report' :=
    Scoring.generateRecommendations range report totalScore maxScore
      categoryScores categoryMaxScores in
  let silent :=
    (forall r, Scoring.categoryRecommendation categoryMaxScores r (category, score) = r) in
  let nothingAdded :=
    (forall recommendation,
       recommendation ∈ Report.Recommendations report' ->
       Recommendation.Category recommendation = category ->
       recommendation ∈ Report.Recommendations report) /\
    (forall risk,
       risk ∈ Report.Risks report' -> Risk.Category risk = category ->
       risk ∈ Report.Risks report) in
  ((categoryMaxScores !! category = None \/ categoryMaxScores !! category = Some 0) ->
     silent) /\
  (forall categoryMax,
     category = "Architecture" ->
     categoryMaxScores !! category = Some categoryMax -> categoryMax <> 0 ->
     (Float64.ltb (Float64.ratio score categoryMax) Float64.c0_5 = true ->
        let recommendation :=
          Recommendation.mk "Architecture"
            "Consider refactoring application architecture to be more containerization-friendly"
            "High" in
        let risk :=
          Risk.mk "Architecture"
            "Complex architecture may lead to challenges in containerization" "High" in
        Scoring.emittedRecommendations categoryMaxScores (category, score) =
          [recommendation] /\
        Scoring.emittedRisks categoryMaxScores (category, score) = [risk] /\
        (recommendation ∈ Report.Recommendations report') /\
        (risk ∈ Report.Risks report')) /\
     (Float64.ltb (Float64.ratio score categoryMax) Float64.c0_5 = false ->
        silent /\ nothingAdded)) /\
  (forall categoryMax,
     category = "Persistence" ->
     categoryMaxScores !! category = Some categoryMax -> categoryMax <> 0 ->
     (Float64.ltb (Float64.ratio score categoryMax) Float64.c0_6 = true ->
        let recommendation :=
          Recommendation.mk "Persistence"
            "Review database access patterns for compatibility with Kubernetes"
            "Medium" in
        let risk :=
          Risk.mk "Persistence"
            "Data persistence implementation may cause issues in containerized environment"
            "Medium" in
        Scoring.emittedRecommendations categoryMaxScores (category, score) =
          [recommendation] /\
        Scoring.emittedRisks categoryMaxScores (category, score) = [risk] /\
        (recommendation ∈ Report.Recommendations report') /\
        (risk ∈ Report.Risks report')) /\
     (Float64.ltb (Float64.ratio score categoryMax) Float64.c0_6 = false ->
        silent /\ nothingAdded)) /\
  (category <> "Architecture" -> category <> "Persistence" -> silent) /\
  Float64.c0_5 = Float64.ratio 1 2 /\
  Float64.c0_6 = Float64.ratio 6 10.
Proof.
  intros Hfair Hscore report' silent nothingAdded. subst silent nothingAdded.
  pose proof (fair_visits range _ _ _ Hfair Hscore) as Hvisit.
  destruct (generateRecommendations_shape range report totalScore maxScore
              categoryScores categoryMaxScores) as (Hrec & Hrisk & _).
  fold report' in Hrec, Hrisk.
  split; [|split; [|split; [|split; [|split]]]].
  - intros [Hmax|Hmax] r; unfold Scoring.categoryRecommendation; now rewrite Hmax.
  - intros categoryMax -> Hmax Hnz. split.
    + intros Hlt.
      assert (Hstep : forall r,
        Scoring.categoryRecommendation categoryMaxScores r ("Architecture", score) =
        Report.appendRisk (Scoring.architectureRisk "Architecture")
          (Report.appendRecommendation
             (Scoring.architectureRecommendation "Architecture") r)).
      { intros r. unfold Scoring.categoryRecommendation.
        apply Z.eqb_neq in Hnz. now rewrite Hmax, Hnz, Hlt. }
      assert (Hemit :
        Scoring.emittedRecommendations categoryMaxScores ("Architecture", score) =
          [Scoring.architectureRecommendation "Architecture"] /\
        Scoring.emittedRisks categoryMaxScores ("Architecture", score) =
          [Scoring.architectureRisk "Architecture"]).
      { unfold Scoring.emittedRecommendations, Scoring.emittedRisks.
        rewrite Hstep. split; reflexivity. }
      destruct Hemit as [Hemit1 Hemit2]. cbv zeta.
      split; [exact Hemit1|]. split; [exact Hemit2|].
      rewrite Hrec, Hrisk, !elem_of_app. split; right; right.
      * apply (elem_of_flat_map_intro _ _ _ _ Hvisit).
        rewrite Hemit1. apply list_elem_of_here.
      * apply (elem_of_flat_map_intro _ _ _ _ Hvisit).
        rewrite Hemit2. apply list_elem_of_here.
    + intros Hlt. split.
      * intros r. unfold Scoring.categoryRecommendation.
        apply Z.eqb_neq in Hnz. rewrite Hmax, Hnz, Hlt.
        change (String.eqb "Architecture" "Persistence") with false.
        now rewrite andb_false_r.
      * apply (category_silent range report totalScore maxScore categoryScores
                 categoryMaxScores "Architecture" score categoryMax Float64.c0_5);
          auto.
  - intros categoryMax -> Hmax Hnz. split.
    + intros Hlt.
      assert (Hstep : forall r,
        Scoring.categoryRecommendation categoryMaxScores r ("Persistence", score) =
        Report.appendRisk (Scoring.persistenceRisk "Persistence")
          (Report.appendRecommendation
             (Scoring.persistenceRecommendation "Persistence") r)).
      { intros r. unfold Scoring.categoryRecommendation.
        apply Z.eqb_neq in Hnz. rewrite Hmax, Hnz, Hlt.
        change (String.eqb "Persistence" "Architecture") with false.
        now rewrite andb_false_r. }
      assert (Hemit :
        Scoring.emittedRecommendations categoryMaxScores ("Persistence", score) =
          [Scoring.persistenceRecommendation "Persistence"] /\
        Scoring.emittedRisks categoryMaxScores ("Persistence", score) =
          [Scoring.persistenceRisk "Persistence"]).
      { unfold Scoring.emittedRecommendations, Scoring.emittedRisks.
        rewrite Hstep. split; reflexivity. }
      destruct Hemit as [Hemit1 Hemit2]. cbv zeta.
      split; [exact Hemit1|]. split; [exact Hemit2|].
      rewrite Hrec, Hrisk, !elem_of_app. split; right; right.
      * apply (elem_of_flat_map_intro _ _ _ _ Hvisit).
        rewrite Hemit1. apply list_elem_of_here.
      * apply (elem_of_flat_map_intro _ _ _ _ Hvisit).
        rewrite Hemit2. apply list_elem_of_here.
    + intros Hlt. split.
      * intros r. unfold Scoring.categoryRecommendation.
        apply Z.eqb_neq in Hnz. rewrite Hmax, Hnz, Hlt.
        change (String.eqb "Persistence" "Architecture") with false.
        now rewrite !andb_false_r.
      * apply (category_silent range report totalScore maxScore categoryScores
                 categoryMaxScores "Persistence" score categoryMax Float64.c0_6);
          auto.
  - intros Harch Hpers r. unfold Scoring.categoryRecommendation.
    apply String.eqb_neq in Harch, Hpers.
    destruct (categoryMaxScores !! category) as [m|]; [|reflexivity].
    destruct (m =? 0); [reflexivity|].
    now rewrite Harch, Hpers, !andb_false_r.
  - vm_compute; reflexivity.
  - vm_compute; reflexivity.
Qed.

(** Scenario C: "Architecture" at 4 of 10 and "Persistence" at 12 of 20:
    the first rule applies, and 12/20 is not below 0.6. *)
Lemma generateRecommendations_category_rules_witness :
  let categoryScores : gmap string Z := {[ "Architecture" := 4; "Persistence" := 12 ]} in
  let categoryMaxScores : gmap string Z := {[ "Architecture" := 10; "Persistence" := 20 ]} in
  let report' :=
    Scoring.generateRecommendations map_to_list Scoring.blank 16 30
      categoryScores categoryMaxScores in
  (exists recommendation risk,
     recommendation ∈ Report.Recommendations report' /\
     Recommendation.Category recommendation = "Architecture" /\
     Recommendation.Priority recommendation = "High" /\
     risk ∈ Report.Risks report' /\
     Risk.Category risk = "Architecture" /\
     Risk.Severity risk = "High") /\
  (forall recommendation,
     recommendation ∈ Report.Recommendations report' ->
     Recommendation.Category recommendation <> "Persistence") /\
  (forall risk, risk ∈ Report.Risks report' -> Risk.Category risk <> "Persistence").
Proof.
  intros categoryScores categoryMaxScores report'. split.
  - destruct (proj1 (proj1 (proj2 (generateRecommendations_category_rules map_to_list
      Scoring.blank 16 30 categoryScores categoryMaxScores "Architecture" 4
      fair_map_to_list ltac:(vm_compute; reflexivity))) 10 eq_refl
      ltac:(vm_compute; reflexivity) ltac:(lia)) ltac:(vm_compute; reflexivity))
      as (_ & _ & Hrec & Hrisk).
    eexists _, _. split; [exact Hrec|]. split; [reflexivity|]. split; [reflexivity|].
    split; [exact Hrisk|]. split; reflexivity.
  - destruct (proj2 (proj1 (proj2 (proj2 (generateRecommendations_category_rules map_to_list
      Scoring.blank 16 30 categoryScores categoryMaxScores "Persistence" 12
      fair_map_to_list ltac:(vm_compute; reflexivity)))) 20 eq_refl
      ltac:(vm_compute; reflexivity) ltac:(lia)) ltac:(vm_compute; reflexivity))
      as (_ & Hrec & Hrisk).
    split.
    + intros recommendation Hin Hc. apply (Hrec recommendation Hin) in Hc.
      now apply elem_of_nil in Hc.
    + intros risk Hin Hc. apply (Hrisk risk Hin) in Hc. now apply elem_of_nil in Hc.
Defined.

(** C1. Whenever the scoring loop ends with [maxPossible = 0] and
    [total = 0], as it does on an empty catalog, the overall ratio is 0/0,
    which is not a number: neither [< 0.5] nor [< 0.7] holds, and the
    report gets the Low "good candidate" recommendation, no Deployment risk
    and the five-step plan. *)
Theorem generateReport_zero_max (now : string) (range : MapRange)
    (assessment : Assessment.t) (questions : list Question.t) :
  let sc := Scoring.calculateScores questions (Assessment.Answers assessment) in
  Scoring.maxScore sc = 0 ->
  Scoring.totalScore sc = 0 ->
  exists report,
    Scoring.generateReport now range assessment questions = Ok report /\
    Report.TotalScore report = 0 /\
    Report.MaxPossibleScore report = 0 /\
    Float64.ratio (Report.TotalScore report) (Report.MaxPossibleScore report) = S754_nan /\
    filter (fun r => Recommendation.Category r = "General")
      (Report.Recommendations report) = [Scoring.generalLow] /\
    (forall risk, risk ∈ Report.Risks report -> Risk.Category risk <> "Deployment") /\
    length (Report.ModernizationPlan report) = 5%nat.
Proof.
  intros sc Hmax Htotal.
  destruct (generateReport_shape now range assessment questions)
    as (report & Hreport & _ & Ht & Hm & _ & Hrec & Hrisk & Hplan).
  fold sc in Ht, Hm, Hrec, Hrisk, Hplan.
  rewrite Hmax, Htotal in *.
  exists report. rewrite Ht, Hm, Hrec, Hrisk, Hplan.
  change (Float64.ltb (Float64.ratio 0 0) Float64.c0_5) with false.
  change (Float64.ltb (Float64.ratio 0 0) Float64.c0_7) with false.
  repeat split; try assumption.
  - rewrite filter_cons_True by reflexivity. now rewrite filter_general_emitted.
  - apply no_deployment_emitted.
Qed.

(** The empty catalog. *)
Lemma generateReport_zero_max_witness :
  exists report,
    Scoring.generateReport "2024-01-01T00:00:00Z" map_to_list
      (Samples.assessment ∅ "in_progress") [] = Ok report /\
    filter (fun r => Recommendation.Category r = "General")
      (Report.Recommendations report) = [Scoring.generalLow] /\
    length (Report.ModernizationPlan report) = 5%nat.
Proof.
  destruct (generateReport_zero_max "2024-01-01T00:00:00Z" map_to_list
              (Samples.assessment ∅ "in_progress") [] eq_refl eq_refl)
    as (report & H1 & _ & _ & _ & H2 & _ & H3).
  exists report. auto.
Defined.

End Recommendations.

(** ** Arithmetic of [int] *)
Section Wrap.

Lemma wrap_in_range (z : Z) : GoInt.in_range (GoInt.wrap z).
Proof.
  unfold GoInt.in_range, GoInt.wrap, GoInt.min_int, GoInt.max_int.
  pose proof (Z.mod_pos_bound (z + 2 ^ 63) (2 ^ 64) ltac:(lia)). lia.
Qed.

Lemma wrap_id (z : Z) : GoInt.in_range z -> GoInt.wrap z = z.
Proof.
  unfold GoInt.in_range, GoInt.wrap, GoInt.min_int, GoInt.max_int. intros H.
  rewrite Z.mod_small; lia.
Qed.

Lemma wrap_add_l (a b : Z) : GoInt.wrap (GoInt.wrap a + b) = GoInt.wrap (a + b).
Proof.
  unfold GoInt.wrap.
  replace ((a + 2 ^ 63) mod 2 ^ 64 - 2 ^ 63 + b + 2 ^ 63)
    with ((a + 2 ^ 63) mod 2 ^ 64 + b) by lia.
  rewrite Z.add_mod_idemp_l by lia.
  now replace (a + 2 ^ 63 + b) with (a + b + 2 ^ 63) by lia.
Qed.

Lemma wrap_add_r (a b : Z) : GoInt.wrap (a + GoInt.wrap b) = GoInt.wrap (a + b).
Proof. rewrite (Z.add_comm a), wrap_add_l. now rewrite Z.add_comm. Qed.

End Wrap.

(** ** The scoring loop *)
Section ScoringLoop.

Implicit Types (questions : list Question.t) (answers : gmap string string).
Implicit Types (acc : Scoring.scores) (options : list Option.t).

Lemma fold_left_agree {A B} (f g : A -> B -> A) (l : list B) (a : A) :
  (forall x, x ∈ l -> forall a, f a x = g a x) -> fold_left f l a = fold_left g l a.
Proof.
  revert a. induction l as [|x l IH]; intros a H; [reflexivity|]. simpl.
  rewrite (H x) by apply list_elem_of_here.
  apply IH. intros y Hy. apply H. now apply list_elem_of_further.
Qed.

Lemma selectedOption_elem options (optionID : string) (option : Option.t) :
  Scoring.selectedOption options optionID = Some option ->
  option ∈ options /\ Option.ID option = optionID.
Proof.
  induction options as [|o options IH]; simpl; [discriminate|].
  destruct (String.eqb (Option.ID o) optionID) eqn:E.
  - intros [= <-]. split; [apply list_elem_of_here | now apply String.eqb_eq].
  - intros H. destruct (IH H). split; [now apply list_elem_of_further | assumption].
Qed.

Lemma selectedOption_none options (optionID : string) :
  (forall option, option ∈ options -> Option.ID option <> optionID) ->
  Scoring.selectedOption options optionID = None.
Proof.
  induction options as [|o options IH]; simpl; intros H; [reflexivity|].
  destruct (String.eqb (Option.ID o) optionID) eqn:E.
  - apply String.eqb_eq in E. destruct (H o); [apply list_elem_of_here | assumption].
  - apply IH. intros o' Ho'. apply H. now apply list_elem_of_further.
Qed.

(** The running maximum never goes below its start nor below an option. *)
Lemma maxOptionPoints_from options (start : Z) :
  let result :=
    fold_left
      (fun max option => if Option.Points option >? max then Option.Points option else max)
      options start in
  start <= result /\ Forall (fun option => Option.Points option <= result) options.
Proof.
  revert start. induction options as [|o options IH]; intros start; simpl.
  - split; [lia | constructor].
  - destruct (IH (if Option.Points o >? start then Option.Points o else start))
      as [Hle Hall].
    destruct (Z.gtb_spec (Option.Points o) start); split; try lia;
      constructor; try assumption; lia.
Qed.

Lemma maxOptionPoints_nonneg options : 0 <= Scoring.maxOptionPoints options.
Proof. apply (maxOptionPoints_from options 0). Qed.

Lemma maxOptionPoints_upper options (option : Option.t) :
  option ∈ options -> Option.Points option <= Scoring.maxOptionPoints options.
Proof.
  intros Hin. pose proof (proj2 (maxOptionPoints_from options 0)) as H.
  rewrite Forall_forall in H. now apply H.
Qed.

(** The two integer accumulators are the exact sums, wrapped. *)
Lemma scoring_loop_exact questions answers acc :
  GoInt.in_range (Scoring.totalScore acc) ->
  GoInt.in_range (Scoring.maxScore acc) ->
  let result := fold_left (Scoring.scoreQuestion answers) questions acc in
  Scoring.totalScore result =
    GoInt.wrap (Scoring.totalScore acc + Exact.total questions answers) /\
  Scoring.maxScore result =
    GoInt.wrap (Scoring.maxScore acc + Exact.maxPossible questions).
Proof.
  revert acc. induction questions as [|q questions IH]; intros acc Ht Hm; simpl.
  - rewrite !Z.add_0_r, !wrap_id by assumption. auto.
  - assert (Hstep :
      Scoring.totalScore (Scoring.scoreQuestion answers acc q) =
        GoInt.wrap (Scoring.totalScore acc + Exact.score answers q) /\
      Scoring.maxScore (Scoring.scoreQuestion answers acc q) =
        GoInt.wrap (Scoring.maxScore acc + Exact.ceiling q)).
    { unfold Scoring.scoreQuestion, Exact.score, Exact.ceiling, GoInt.add, GoInt.mul.
      destruct (answers !! Question.ID q) as [optionID|];
        [destruct (Scoring.selectedOption (Question.Options q) optionID)|];
        cbn [Scoring.totalScore Scoring.maxScore];
        rewrite ?wrap_add_r, ?Z.add_0_r, ?(wrap_id _ Ht); auto. }
    destruct Hstep as [Hst Hsm].
    destruct (IH (Scoring.scoreQuestion answers acc q)) as [-> ->].
    + rewrite Hst. apply wrap_in_range.
    + rewrite Hsm. apply wrap_in_range.
    + rewrite Hst, Hsm, !wrap_add_l.
      split; f_equal; lia.
Qed.

Lemma calculateScores_exact questions answers :
  Scoring.totalScore (Scoring.calculateScores questions answers) =
    GoInt.wrap (Exact.total questions answers) /\
  Scoring.maxScore (Scoring.calculateScores questions answers) =
    GoInt.wrap (Exact.maxPossible questions).
Proof.
  unfold Scoring.calculateScores.
  apply (scoring_loop_exact questions answers (Scoring.mkScores 0 0 ∅ ∅));
    cbn; unfold GoInt.in_range, GoInt.min_int, GoInt.max_int; lia.
Qed.

(** An answer that selects nothing scores like no answer. *)
Lemma scoreQuestion_dangling answers (questionID optionID : string) acc
    (question : Question.t) :
  (Question.ID question = questionID ->
   forall option, option ∈ Question.Options question -> Option.ID option <> optionID) ->
  Scoring.scoreQuestion (<[questionID := optionID]> answers) acc question =
  Scoring.scoreQuestion (delete questionID answers) acc question.
Proof.
  intros H. unfold Scoring.scoreQuestion.
  destruct (decide (Question.ID question = questionID)) as [Heq|Hne].
  - rewrite Heq, lookup_insert_eq, lookup_delete_eq.
    now rewrite (selectedOption_none _ _ (H Heq)).
  - rewrite lookup_insert_ne, lookup_delete_ne by congruence. reflexivity.
Qed.

(** C4. Scoring returns for every catalog and answer map, and an answer
    whose option identifier matches no option of its question, or whose
    question identifier matches no question of the catalog, changes
    nothing: the scores and the whole report are those of the answer map
    without that entry. *)
Theorem dangling_answer_ignored (now : string) (range : MapRange)
    (assessment : Assessment.t) questions (questionID optionID : string) :
  (forall question, question ∈ questions -> Question.ID question = questionID ->
     forall option, option ∈ Question.Options question -> Option.ID option <> optionID) ->
  let answers := Assessment.Answers assessment in
  let without :=
    Assessment.mk (Assessment.ID assessment) (Assessment.ApplicationID assessment)
      (Assessment.CreatedAt assessment) (delete questionID answers)
      (Assessment.AnswersNil assessment) (Assessment.Status assessment) in
  Scoring.calculateScores questions (<[questionID := optionID]> answers) =
    Scoring.calculateScores questions (delete questionID answers) /\
  exists report,
    Scoring.generateReport now range
      (Assessment.setAnswer questionID optionID assessment) questions = Ok report /\
    Scoring.generateReport now range without questions = Ok report.
Proof.
  intros H answers without.
  assert (Hsc : Scoring.calculateScores questions (<[questionID := optionID]> answers) =
                Scoring.calculateScores questions (delete questionID answers)).
  { unfold Scoring.calculateScores. apply fold_left_agree.
    intros q Hq acc. apply scoreQuestion_dangling. now apply H. }
  split; [exact Hsc|].
  eexists. split; [reflexivity|].
  unfold Scoring.generateReport.
  cbn [Assessment.setAnswer Assessment.Answers Assessment.ID Assessment.ApplicationID
       without].
  fold answers. now rewrite Hsc.
Qed.

Lemma exact_total_bounds questions answers :
  pointsNonNegative questions -> weightsNonNegative questions ->
  0 <= Exact.total questions answers <= Exact.maxPossible questions.
Proof.
  unfold pointsNonNegative, weightsNonNegative.
  induction questions as [|q questions IH]; simpl; intros Hp Hw; [lia|].
  inversion Hp as [|? ? Hpq Hp']; inversion Hw as [|? ? Hwq Hw']; subst.
  specialize (IH Hp' Hw').
  assert (0 <= Exact.score answers q <= Exact.ceiling q); [|lia].
  unfold Exact.score, Exact.ceiling.
  pose proof (maxOptionPoints_nonneg (Question.Options q)).
  destruct (answers !! Question.ID q) as [optionID|]; [|nia].
  destruct (Scoring.selectedOption (Question.Options q) optionID) as [o|] eqn:E; [|nia].
  apply selectedOption_elem in E as [Hin _].
  pose proof (maxOptionPoints_upper _ _ Hin).
  rewrite Forall_forall in Hpq. specialize (Hpq o Hin). nia.
Qed.

(** C5, as amended.  When the points and the weights of the catalog are
    non-negative and the exact ceiling of the catalog fits in an [int],
    [0 <= total <= maxPossible]; and for every catalog, [maxPossible] is
    the same for any two answer maps. *)
Theorem score_ceiling questions answers answers' :
  (pointsNonNegative questions -> weightsNonNegative questions ->
   Exact.maxPossible questions <= GoInt.max_int ->
   0 <= Scoring.totalScore (Scoring.calculateScores questions answers)
     <= Scoring.maxScore (Scoring.calculateScores questions answers)) /\
  Scoring.maxScore (Scoring.calculateScores questions answers) =
    Scoring.maxScore (Scoring.calculateScores questions answers').
Proof.
  destruct (calculateScores_exact questions answers) as [Ht Hm].
  destruct (calculateScores_exact questions answers') as [_ Hm'].
  split; [|now rewrite Hm, Hm'].
  intros Hp Hw Hfit.
  pose proof (exact_total_bounds questions answers Hp Hw).
  rewrite Ht, Hm, !wrap_id;
    unfold GoInt.in_range, GoInt.min_int, GoInt.max_int in *; lia.
Qed.

Lemma exact_total_app questions questions' answers :
  Exact.total (questions ++ questions') answers =
  Exact.total questions answers + Exact.total questions' answers.
Proof. induction questions as [|q questions IH]; simpl; lia. Qed.

(** Raising the points of one option raises what the first match yields,
    when the weight is not negative. *)
Lemma selectedOption_raise options1 options2 (option : Option.t) (points weight : Z)
    (optionID : string) :
  Option.Points option <= points -> 0 <= weight ->
  match Scoring.selectedOption (options1 ++ option :: options2) optionID with
  | Some o => Option.Points o * weight
  | None => 0
  end <=
  match Scoring.selectedOption (options1 ++ withPoints points option :: options2) optionID with
  | Some o => Option.Points o * weight
  | None => 0
  end.
Proof.
  intros Hp Hw. induction options1 as [|o options1 IH]; simpl.
  - destruct (String.eqb (Option.ID option) optionID); simpl; [nia|lia].
  - destruct (String.eqb (Option.ID o) optionID); [lia|exact IH].
Qed.

(** C6, as amended.  Raising the points of one option of one question,
    everything else fixed, does not lower the total, when the weight of
    that question is not negative and the exact totals before and after
    fit in an [int]. *)
Theorem total_monotone (before after : list Question.t)
    (id text category : string) (weight : Z)
    (options1 options2 : list Option.t) (option : Option.t) (points : Z) answers :
  let catalog :=
    catalogWith before id text category weight options1 option options2 after in
  let catalog' :=
    catalogWith before id text category weight options1 (withPoints points option)
      options2 after in
  Option.Points option <= points ->
  0 <= weight ->
  GoInt.in_range (Exact.total catalog answers) ->
  GoInt.in_range (Exact.total catalog' answers) ->
  Scoring.totalScore (Scoring.calculateScores catalog answers) <=
  Scoring.totalScore (Scoring.calculateScores catalog' answers).
Proof.
  intros catalog catalog' Hp Hw Hr Hr'.
  rewrite (proj1 (calculateScores_exact catalog answers)),
          (proj1 (calculateScores_exact catalog' answers)), !wrap_id by assumption.
  unfold catalog, catalog', catalogWith. rewrite !exact_total_app. simpl.
  unfold Exact.score. cbn [Question.ID Question.Options Question.Weight].
  destruct (answers !! id) as [optionID|]; [|lia].
  pose proof (selectedOption_raise options1 options2 option points weight optionID Hp Hw).
  lia.
Qed.

(** An answer for "q1" naming an option the question does not have. *)
Lemma dangling_answer_ignored_witness :
  Scoring.calculateScores Samples.catalog (<["q1" := "o9"]> ∅) =
  Scoring.calculateScores Samples.catalog (delete "q1" ∅).
Proof.
  refine (proj1 (dangling_answer_ignored "2024-01-01T00:00:00Z" map_to_list
    (Samples.assessment ∅ "in_progress") Samples.catalog "q1" "o9" _)).
  intros q Hq _ o Ho.
  apply list_elem_of_singleton in Hq. subst q.
  apply list_elem_of_singleton in Ho. subst o. discriminate.
Defined.

(** C5 fails as stated: with a negative weight an answered question
    gives a negative total, and with a weight of 2^62 the ceiling of an
    unanswered question wraps to -2^63, below the total 0. *)
Lemma score_ceiling_counterexample :
  (pointsNonNegative (Samples.negativeWeight 1) /\
   Scoring.totalScore (Scoring.calculateScores (Samples.negativeWeight 1) Samples.answered) = -1 /\
   ~ (0 <= Scoring.totalScore (Scoring.calculateScores (Samples.negativeWeight 1) Samples.answered)
        <= Scoring.maxScore (Scoring.calculateScores (Samples.negativeWeight 1) Samples.answered))) /\
  (pointsNonNegative Samples.hugeWeight /\
   weightsNonNegative Samples.hugeWeight /\
   Scoring.totalScore (Scoring.calculateScores Samples.hugeWeight ∅) = 0 /\
   Scoring.maxScore (Scoring.calculateScores Samples.hugeWeight ∅) = - 2 ^ 63 /\
   ~ (0 <= Scoring.totalScore (Scoring.calculateScores Samples.hugeWeight ∅)
        <= Scoring.maxScore (Scoring.calculateScores Samples.hugeWeight ∅))).
Proof.
  assert (H1 : Scoring.totalScore
            (Scoring.calculateScores (Samples.negativeWeight 1) Samples.answered) = -1)
    by (vm_compute; reflexivity).
  assert (H2 : Scoring.totalScore (Scoring.calculateScores Samples.hugeWeight ∅) = 0)
    by (vm_compute; reflexivity).
  assert (H3 : Scoring.maxScore (Scoring.calculateScores Samples.hugeWeight ∅) = - 2 ^ 63)
    by (vm_compute; reflexivity).
  split; [split; [|split] | split; [|split; [|split; [|split]]]]; try assumption.
  - repeat constructor; simpl; lia.
  - rewrite H1. lia.
  - repeat constructor; simpl; lia.
  - repeat constructor; simpl; lia.
  - rewrite H2, H3. lia.
Qed.

(** Scenario A: the answered sample catalog scores 50 of 50. *)
Lemma score_ceiling_witness :
  0 <= Scoring.totalScore (Scoring.calculateScores Samples.catalog Samples.answered)
    <= Scoring.maxScore (Scoring.calculateScores Samples.catalog Samples.answered).
Proof.
  apply (score_ceiling Samples.catalog Samples.answered ∅).
  - repeat constructor; simpl; lia.
  - repeat constructor; simpl; lia.
  - vm_compute; discriminate.
Defined.

(** C6 fails as stated: with weight -1, raising the selected option from
    1 point to 2 lowers the total from -1 to -2; with weight 2, raising it
    from 2^62 - 1 points to 2^62 wraps the total from 2^63 - 2 to -2^63. *)
Lemma total_monotone_counterexample :
  (Samples.answered !! "q1" = Some "o1" /\
   Scoring.totalScore (Scoring.calculateScores (Samples.negativeWeight 1) Samples.answered) = -1 /\
   Scoring.totalScore (Scoring.calculateScores (Samples.negativeWeight 2) Samples.answered) = -2 /\
   ~ (Scoring.totalScore (Scoring.calculateScores (Samples.negativeWeight 1) Samples.answered)
      <= Scoring.totalScore (Scoring.calculateScores (Samples.negativeWeight 2) Samples.answered))) /\
  (weightsNonNegative (Samples.hugePoints (2 ^ 62)) /\
   pointsNonNegative (Samples.hugePoints (2 ^ 62)) /\
   Scoring.totalScore
     (Scoring.calculateScores (Samples.hugePoints (2 ^ 62 - 1)) Samples.answered) = 2 ^ 63 - 2 /\
   Scoring.totalScore
     (Scoring.calculateScores (Samples.hugePoints (2 ^ 62)) Samples.answered) = - 2 ^ 63 /\
   ~ (Scoring.totalScore
        (Scoring.calculateScores (Samples.hugePoints (2 ^ 62 - 1)) Samples.answered)
      <= Scoring.totalScore
           (Scoring.calculateScores (Samples.hugePoints (2 ^ 62)) Samples.answered))).
Proof.
  assert (H1 : Scoring.totalScore
            (Scoring.calculateScores (Samples.negativeWeight 1) Samples.answered) = -1)
    by (vm_compute; reflexivity).
  assert (H2 : Scoring.totalScore
            (Scoring.calculateScores (Samples.negativeWeight 2) Samples.answered) = -2)
    by (vm_compute; reflexivity).
  assert (H3 : Scoring.totalScore
            (Scoring.calculateScores (Samples.hugePoints (2 ^ 62 - 1)) Samples.answered)
            = 2 ^ 63 - 2)
    by (vm_compute; reflexivity).
  assert (H4 : Scoring.totalScore
            (Scoring.calculateScores (Samples.hugePoints (2 ^ 62)) Samples.answered)
            = - 2 ^ 63)
    by (vm_compute; reflexivity).
  split; [split; [|split; [|split]] | split; [|split; [|split; [|split]]]];
    try assumption.
  - vm_compute; reflexivity.
  - rewrite H1, H2. lia.
  - repeat constructor; simpl; lia.
  - repeat constructor; simpl; lia.
  - rewrite H3, H4. lia.
Qed.

(** The option of the sample catalog goes from 10 points to 20. *)
Lemma total_monotone_witness :
  Scoring.totalScore (Scoring.calculateScores
    (catalogWith [] "q1" "" "Architecture" 5 [] (Option.mk "o1" "Yes" 10) [] [])
    Samples.answered) <=
  Scoring.totalScore (Scoring.calculateScores
    (catalogWith [] "q1" "" "Architecture" 5 [] (withPoints 20 (Option.mk "o1" "Yes" 10)) [] [])
    Samples.answered).
Proof.
  apply (total_monotone [] [] "q1" "" "Architecture" 5 [] [] (Option.mk "o1" "Yes" 10) 20
           Samples.answered).
  - simpl; lia.
  - lia.
  - vm_compute; split; discriminate.
  - vm_compute; split; discriminate.
Defined.

End ScoringLoop.

(** ** The assessment service over the file storage *)
Section Service.

Implicit Types (s : FileStorage.t) (assessment : Assessment.t).
Implicit Types (assessmentID questionID optionID : string).

Lemma optionValid_spec (options : list Option.t) optionID :
  services.optionValid options optionID = true <->
  exists option, option ∈ options /\ Option.ID option = optionID.
Proof.
  induction options as [|o options IH]; simpl.
  - split; [discriminate|]. intros (o & Ho & _). inversion Ho.
  - destruct (String.eqb (Option.ID o) optionID) eqn:E.
    + apply String.eqb_eq in E. split; [|reflexivity].
      intros _. exists o. split; [apply list_elem_of_here | assumption].
    + apply String.eqb_neq in E. rewrite IH. split.
      * intros (o' & Ho' & Hid). exists o'. split; [now apply list_elem_of_further|assumption].
      * intros (o' & Ho' & Hid). apply elem_of_cons in Ho' as [->|Ho']; [contradiction|].
        exists o'. auto.
Qed.

(** *** Reading and writing one file *)

Lemma unreadable_spec s (p : string) :
  p ∉ FileStorage.unreadable s <-> FileStorage.readFaults s !! p = None.
Proof. unfold FileStorage.unreadable. apply not_elem_of_dom. Qed.

Lemma unwritable_spec s (p : string) :
  p ∉ FileStorage.unwritable s <-> FileStorage.writeFaults s !! p = None.
Proof. unfold FileStorage.unwritable. apply not_elem_of_dom. Qed.

(** Reading never changes the store. *)
Lemma readFile_state {A} (what dir id : string) (file : option A) s :
  (FileStorage.readFile what dir id file s).1 = s.
Proof.
  unfold FileStorage.readFile.
  destruct (FileStorage.readFaults s !! FileStorage.path dir id) as [[text|text]|];
    [|destruct file|]; reflexivity.
Qed.

Lemma readFile_readable {A} (what dir id : string) (file : option A) s :
  FileStorage.path dir id ∉ FileStorage.unreadable s ->
  FileStorage.readFile what dir id file s = (s, Ok file).
Proof.
  intros H%unreadable_spec. unfold FileStorage.readFile. now rewrite H.
Qed.

Lemma readFile_missing {A} (what dir id : string) s :
  FileStorage.readFile what dir id (@None A) s = (s, Ok None) \/
  exists text,
    FileStorage.readFaults s !! FileStorage.path dir id =
      Some (FileStorage.ReadError text) /\
    FileStorage.readFile what dir id (@None A) s =
      (s, Err ("failed to read " ++ what ++ " file: " ++ text)%string).
Proof.
  unfold FileStorage.readFile.
  destruct (FileStorage.readFaults s !! FileStorage.path dir id) as [[text|text]|];
    eauto.
Qed.

(** A record is returned only for a file that exists and on whose path
    no read fails. *)
Lemma readFile_found {A} (what dir id : string) (file : option A) s s' (a : A) :
  FileStorage.readFile what dir id file s = (s', Ok (Some a)) ->
  s' = s /\ file = Some a /\ FileStorage.path dir id ∉ FileStorage.unreadable s.
Proof.
  rewrite unreadable_spec. unfold FileStorage.readFile.
  destruct (FileStorage.readFaults s !! FileStorage.path dir id) as [[text|text]|];
    [|destruct file|]; try discriminate.
  now intros [= <- ->].
Qed.

Lemma readFile_not_found {A} (what dir id : string) (file : option A) s s' :
  FileStorage.readFile what dir id file s = (s', Ok None) ->
  s' = s /\ file = None.
Proof.
  unfold FileStorage.readFile.
  destruct (FileStorage.readFaults s !! FileStorage.path dir id) as [[text|text]|];
    [|destruct file|]; try discriminate; now intros [= <-].
Qed.

Lemma readFile_error {A} (what dir id : string) (file : option A) s s' (msg : string) :
  FileStorage.readFile what dir id file s = (s', Err msg) ->
  s' = s /\ FileStorage.path dir id ∈ FileStorage.unreadable s.
Proof.
  unfold FileStorage.readFile, FileStorage.unreadable.
  destruct (FileStorage.readFaults s !! FileStorage.path dir id) as [fault|] eqn:Hfault;
    [|discriminate].
  intros H. split; [|now apply elem_of_dom_2 in Hfault].
  destruct fault; [|destruct file]; now injection H as <-.
Qed.

(** The three ways a write ends. *)
Lemma writeFile_cases (what dir id : string) (put : FileStorage.t -> FileStorage.t) s :
  ((FileStorage.path dir id ∉ FileStorage.unwritable s) /\
   FileStorage.writeFile what dir id put s = (put s, Ok tt)) \/
  (exists fault,
     FileStorage.writeFaults s !! FileStorage.path dir id = Some fault /\
     FileStorage.writeFile what dir id put s =
       (match FileStorage.leaves fault with
        | FileStorage.Untouched => s
        | FileStorage.Truncated => FileStorage.truncated (FileStorage.path dir id) (put s)
        | FileStorage.Written => put s
        end,
        Err ("failed to write " ++ what ++ " file: " ++ FileStorage.text fault)%string)).
Proof.
  unfold FileStorage.writeFile.
  destruct (FileStorage.writeFaults s !! FileStorage.path dir id) as [fault|] eqn:Hfault.
  - right. eauto.
  - left. split; [now apply unwritable_spec|reflexivity].
Qed.

Lemma writeFile_ok (what dir id : string) (put : FileStorage.t -> FileStorage.t) s s' :
  FileStorage.writeFile what dir id put s = (s', Ok tt) ->
  s' = put s /\ FileStorage.path dir id ∉ FileStorage.unwritable s.
Proof.
  destruct (writeFile_cases what dir id put s) as [[Hw ->]|(fault & _ & ->)];
    [|discriminate].
  now intros [= <-].
Qed.

(** Files of different directories have different paths. *)
Lemma reports_not_assessments (id id' : string) :
  FileStorage.path "reports" id <> FileStorage.path "assessments" id'.
Proof. unfold FileStorage.path. cbn. discriminate. Qed.

Lemma questions_not_assessments (id id' : string) :
  FileStorage.path "questions" id <> FileStorage.path "assessments" id'.
Proof. unfold FileStorage.path. cbn. discriminate. Qed.

Lemma questions_not_reports (id id' : string) :
  FileStorage.path "questions" id <> FileStorage.path "reports" id'.
Proof. unfold FileStorage.path. cbn. discriminate. Qed.

Lemma questions_directory_not_file (id : string) :
  "questions" <> FileStorage.path "assessments" id /\
  "questions" <> FileStorage.path "reports" id.
Proof. unfold FileStorage.path. cbn. split; discriminate. Qed.

Lemma decodable_other (p q : string) (faults : gmap string FileStorage.readFault) :
  p <> q -> FileStorage.decodable p faults !! q = faults !! q.
Proof.
  intros Hne. unfold FileStorage.decodable.
  destruct (faults !! p) as [[text|text]|]; [reflexivity| |reflexivity].
  now apply lookup_delete_ne.
Qed.

Lemma undecodable_other (p q : string) (faults : gmap string FileStorage.readFault) :
  p <> q -> FileStorage.undecodable p faults !! q = faults !! q.
Proof.
  intros Hne. unfold FileStorage.undecodable.
  destruct (faults !! p) as [[text|text]|]; [reflexivity| |];
    now apply lookup_insert_ne.
Qed.

(** After a complete write the file decodes: reading its path fails only
    with the error of the operating system it failed with before. *)
Lemma decodable_self (p : string) (faults : gmap string FileStorage.readFault) :
  FileStorage.decodable p faults !! p =
  match faults !! p with
  | Some (FileStorage.ReadError text) => Some (FileStorage.ReadError text)
  | _ => None
  end.
Proof.
  unfold FileStorage.decodable.
  destruct (faults !! p) as [[text|text]|] eqn:Hp; [exact Hp| |exact Hp].
  apply lookup_delete_eq.
Qed.

(** After a write that broke off, reading the path fails. *)
Lemma undecodable_self (p : string) (faults : gmap string FileStorage.readFault) :
  is_Some (FileStorage.undecodable p faults !! p).
Proof.
  unfold FileStorage.undecodable.
  destruct (faults !! p) as [[text|text]|] eqn:Hp; [rewrite Hp; eauto| |];
    rewrite lookup_insert_eq; eauto.
Qed.

(** [validateAnswer] on the file storage, call by call. *)
Lemma validateAnswer_steps s assessmentID questionID optionID :
  services.validateAnswer assessmentID questionID optionID s =
  match GetAssessment assessmentID s with
  | (_, Err e) => (s, Err ("failed to get assessment: " ++ e)%string)
  | (_, Ok None) => (s, Err "assessment not found")
  | (_, Ok (Some assessment)) =>
      match GetQuestion questionID s with
      | (_, Err e) => (s, Err ("failed to get question: " ++ e)%string)
      | (_, Ok None) => (s, Err "question not found")
      | (_, Ok (Some question)) =>
          if services.optionValid (Question.Options question) optionID
          then (s, Ok assessment)
          else (s, Err "option not found for question")
      end
  end.
Proof.
  unfold services.validateAnswer, mbind, M_bind, wrapError, notNil, mret, M_ret, fail.
  cbn [GetAssessment GetQuestion FileStorage.storage].
  unfold FileStorage.GetAssessment, FileStorage.GetQuestion.
  pose proof (readFile_state "assessment" "assessments" assessmentID
                (FileStorage.assessments s !! assessmentID) s) as H1.
  destruct (FileStorage.readFile "assessment" "assessments" assessmentID _ s)
    as [s1 [[assessment|]|e1]]; cbn [fst] in H1; subst s1; try reflexivity.
  pose proof (readFile_state "question" "questions" questionID
                (FileStorage.lookupFile (FileStorage.questions s) questionID) s) as H2.
  destruct (FileStorage.readFile "question" "questions" questionID _ s)
    as [s2 [[question|]|e2]]; cbn [fst] in H2; subst s2; try reflexivity.
  destruct (services.optionValid _ _); reflexivity.
Qed.

(** [SaveAnswer] on the file storage, call by call. *)
Lemma SaveAnswer_steps s assessmentID questionID optionID :
  services.SaveAnswer assessmentID questionID optionID s =
  match GetAssessment assessmentID s with
  | (_, Err e) => (s, Returns (Err ("failed to get assessment: " ++ e)%string))
  | (_, Ok None) => (s, Returns (Err "assessment not found"))
  | (_, Ok (Some assessment)) =>
      match GetQuestion questionID s with
      | (_, Err e) => (s, Returns (Err ("failed to get question: " ++ e)%string))
      | (_, Ok None) => (s, Returns (Err "question not found"))
      | (_, Ok (Some question)) =>
          if services.optionValid (Question.Options question) optionID then
            if Assessment.AnswersNil assessment then
              (s, Panics "assignment to entry in nil map")
            else
              match UpdateAssessment
                      (Assessment.setAnswer questionID optionID assessment) s with
              | (s', Ok _) => (s', Returns (Ok tt))
              | (s', Err e) =>
                  (s', Returns (Err ("failed to update assessment: " ++ e)%string))
              end
          else (s, Returns (Err "option not found for question"))
      end
  end.
Proof.
  unfold services.SaveAnswer. rewrite validateAnswer_steps.
  destruct (GetAssessment assessmentID s) as [s1 [[assessment|]|e1]]; try reflexivity.
  destruct (GetQuestion questionID s) as [s2 [[question|]|e2]]; try reflexivity.
  destruct (services.optionValid _ _); [|reflexivity].
  unfold Assessment.assignAnswer, wrapError.
  destruct (Assessment.AnswersNil assessment); [reflexivity|].
  destruct (UpdateAssessment _ s) as [s' [[]|e]]; reflexivity.
Qed.

(** C8, as amended.  [SaveAnswer] returns an error exactly when the
    assessment is not found, the question is not found, the option
    identifier is not one of the question's options, or a storage call
    (reading the assessment, reading the question, writing the assessment
    back) reports an error.  It panics, returning nothing, exactly when
    assessment, question and option are found and the answers map of the
    assessment read is nil.  The status plays no part: whatever it is, a
    valid answer for an assessment with an allocated answers map is
    accepted and written when the storage calls succeed. *)
Theorem SaveAnswer_fails_iff s assessmentID questionID optionID :
  ((exists msg,
      (services.SaveAnswer assessmentID questionID optionID s).2 = Returns (Err msg)) <->
     (GetAssessment assessmentID s).2 = Ok None \/
     (GetQuestion questionID s).2 = Ok None \/
     (exists question,
        (GetQuestion questionID s).2 = Ok (Some question) /\
        forall option, option ∈ Question.Options question -> Option.ID option <> optionID) \/
     (exists msg, (GetAssessment assessmentID s).2 = Err msg) \/
     (exists msg, (GetQuestion questionID s).2 = Err msg) \/
     (exists assessment msg,
        (GetAssessment assessmentID s).2 = Ok (Some assessment) /\
        Assessment.AnswersNil assessment = false /\
        (UpdateAssessment (Assessment.setAnswer questionID optionID assessment) s).2 =
          Err msg)) /\
  ((exists msg,
      (services.SaveAnswer assessmentID questionID optionID s).2 = Panics msg) <->
     exists assessment question option,
       (GetAssessment assessmentID s).2 = Ok (Some assessment) /\
       (GetQuestion questionID s).2 = Ok (Some question) /\
       (option ∈ Question.Options question) /\ Option.ID option = optionID /\
       Assessment.AnswersNil assessment = true) /\
  (forall assessment question option s',
     (GetAssessment assessmentID s).2 = Ok (Some assessment) ->
     (GetQuestion questionID s).2 = Ok (Some question) ->
     option ∈ Question.Options question -> Option.ID option = optionID ->
     Assessment.AnswersNil assessment = false ->
     UpdateAssessment (Assessment.setAnswer questionID optionID assessment) s = (s', Ok tt) ->
     services.SaveAnswer assessmentID questionID optionID s = (s', Returns (Ok tt))).
Proof.
  rewrite SaveAnswer_steps.
  destruct (GetAssessment assessmentID s) as [s1 [[assessment|]|e1]]; cbn [snd].
  2:{ split; [split; [eauto 10|]|split; [split|]].
      - intros _. eauto.
      - intros [msg [=]].
      - intros (a & q & o & [=] & _).
      - intros; discriminate. }
  2:{ split; [split; [eauto 10|]|split; [split|]].
      - intros _. eauto.
      - intros [msg [=]].
      - intros (a & q & o & [=] & _).
      - intros; discriminate. }
  destruct (GetQuestion questionID s) as [s2 [[question|]|e2]]; cbn [snd].
  2:{ split; [split; [eauto 10|]|split; [split|]].
      - intros _. eauto.
      - intros [msg [=]].
      - intros (a & q & o & _ & [=] & _).
      - intros; discriminate. }
  2:{ split; [split; [eauto 10|]|split; [split|]].
      - intros _. eauto.
      - intros [msg [=]].
      - intros (a & q & o & _ & [=] & _).
      - intros; discriminate. }
  destruct (services.optionValid (Question.Options question) optionID) eqn:Hvalid.
  - pose proof (proj1 (optionValid_spec _ _) Hvalid) as (o & Ho & Hid).
    destruct (Assessment.AnswersNil assessment) eqn:Hnil; cbn [snd].
    { split; [split|split; [split|]].
      - intros [msg [=]].
      - intros [[=]|[[=]|[(q & [= <-] & Hq)|[[msg [=]]|[[msg [=]]|
                 (a & msg & [= <-] & Ha & _)]]]]].
        + destruct (Hq o Ho Hid).
        + congruence.
      - intros _. exists assessment, question, o. auto.
      - eauto.
      - intros a q o' s' [= <-] _ _ _ Ha. congruence. }
    destruct (UpdateAssessment (Assessment.setAnswer questionID optionID assessment) s)
      as [s' [[]|e3]] eqn:Hupd; cbn [snd].
    + split; [split|split; [split|]].
      * intros [msg [=]].
      * intros [[=]|[[=]|[(q & [= <-] & Hq)|[[msg [=]]|[[msg [=]]|
                 (a & msg & [= <-] & _ & Ha)]]]]].
        { destruct (Hq o Ho Hid). }
        { rewrite Hupd in Ha. discriminate. }
      * intros [msg [=]].
      * intros (a & q & o' & [= <-] & _ & _ & _ & Ha). congruence.
      * intros a q o' s'' [= <-] [= <-] _ _ _ Hupd'. rewrite Hupd in Hupd'. congruence.
    + split; [split|split; [split|]].
      * intros _. do 5 right. exists assessment, e3. rewrite Hupd. auto.
      * eauto.
      * intros [msg [=]].
      * intros (a & q & o' & [= <-] & _ & _ & _ & Ha). congruence.
      * intros a q o' s'' [= <-] [= <-] _ _ _ Hupd'. rewrite Hupd in Hupd'. congruence.
  - assert (Hnone : forall option,
              option ∈ Question.Options question -> Option.ID option <> optionID).
    { intros o Ho Hid.
      assert (services.optionValid (Question.Options question) optionID = true)
        by (apply optionValid_spec; eauto).
      congruence. }
    split; [split|split; [split|]].
    + intros _. right; right; left. eauto.
    + eauto.
    + intros [msg [=]].
    + intros (a & q & o & _ & [= <-] & Ho & Hid & _). destruct (Hnone o Ho Hid).
    + intros a q o s' _ [= <-] Ho Hid. destruct (Hnone o Ho Hid).
Qed.

(** C8 fails as stated: the assessment and the question are found and
    the option belongs to the question, yet [SaveAnswer] returns an error
    because the assessment file is read-only, and panics when the
    assessment file has no "answers". *)
Lemma SaveAnswer_fails_counterexample :
  let s :=
    Samples.store "in_progress"
      {[ "assessments/a1.json" := Samples.readOnly "assessments/a1.json" ]} in
  (GetAssessment "a1" s).2 = Ok (Some (Samples.assessment ∅ "in_progress")) /\
  (exists question,
     (GetQuestion "q1" s).2 = Ok (Some question) /\
     exists option, option ∈ Question.Options question /\ Option.ID option = "o1") /\
  services.SaveAnswer "a1" "q1" "o1" s =
    (s, Returns (Err ("failed to update assessment: failed to write assessment file: " ++
                      "open data/assessments/a1.json: permission denied"))) /\
  services.SaveAnswer "a1" "q1" "o1" Samples.storeWithoutAnswers =
    (Samples.storeWithoutAnswers, Panics "assignment to entry in nil map").
Proof.
  intros s. split; [|split; [|split]].
  - vm_compute; reflexivity.
  - eexists. split; [vm_compute; reflexivity|].
    eexists. split; [apply list_elem_of_here | reflexivity].
  - vm_compute; reflexivity.
  - vm_compute; reflexivity.
Qed.

(** A valid answer for an assessment that is already completed. *)
Lemma SaveAnswer_fails_iff_witness :
  let s := Samples.store "completed" ∅ in
  services.SaveAnswer "a1" "q1" "o1" s =
    (FileStorage.putAssessment
       (Assessment.setAnswer "q1" "o1" (Samples.assessment ∅ "completed")) s,
     Returns (Ok tt)).
Proof.
  intros s.
  apply (proj2 (proj2 (SaveAnswer_fails_iff s "a1" "q1" "o1"))
           (Samples.assessment ∅ "completed")
           (Question.mk "q1" "Is the application stateless?" "Architecture"
              [Option.mk "o1" "Yes" 10] 5)
           (Option.mk "o1" "Yes" 10)).
  - vm_compute; reflexivity.
  - vm_compute; reflexivity.
  - apply list_elem_of_here.
  - reflexivity.
  - reflexivity.
  - vm_compute; reflexivity.
Defined.

(** A successful [UpdateAssessment] replaces the file named after the
    assessment and nothing else. *)
Lemma UpdateAssessment_ok s assessment s' :
  UpdateAssessment assessment s = (s', Ok tt) ->
  s' = FileStorage.putAssessment assessment s.
Proof.
  cbn [UpdateAssessment FileStorage.storage]. unfold FileStorage.UpdateAssessment.
  destruct (FileStorage.assessments s !! Assessment.ID assessment); [|discriminate].
  intros H. now apply writeFile_ok in H.
Qed.

Lemma GetAssessment_found s assessmentID assessment :
  (GetAssessment assessmentID s).2 = Ok (Some assessment) ->
  FileStorage.assessments s !! assessmentID = Some assessment.
Proof.
  cbn [GetAssessment FileStorage.storage]. unfold FileStorage.GetAssessment.
  destruct (FileStorage.readFile _ _ _ _ s) as [s' r] eqn:H. cbn [snd]. intros ->.
  now apply readFile_found in H.
Qed.

(** Writing an assessment keeps every assessment file named after the ID
    it holds. *)
Lemma putAssessment_keyed s assessment :
  keyedByID s -> keyedByID (FileStorage.putAssessment assessment s).
Proof.
  intros Hkeyed id a. cbn [FileStorage.putAssessment FileStorage.assessments].
  destruct (decide (Assessment.ID assessment = id)) as [<-|Hne].
  - rewrite lookup_insert_eq. now intros [= <-].
  - rewrite lookup_insert_ne by assumption. apply Hkeyed.
Qed.



(** [generateReport] has no failing path. *)
Lemma generateReport_ok (now : string) (range : MapRange) assessment
    (questions : list Question.t) :
  exists report, Scoring.generateReport now range assessment questions = Ok report.
Proof. eexists. reflexivity. Qed.

(** C10, as amended.  [CompleteAssessment] writes the assessment with
    status "completed" before it builds and saves the report, and report
    generation itself never fails.  When saving the report fails, the
    call returns an error and the stored assessment is the completed one,
    which [GetAssessment] then returns.  What is left of the report
    depends on how the write failed: when the file could not be opened
    the reports are those of before, so none exists for the assessment
    when none did; when the write broke off a report file exists that
    [GetReport] cannot decode; when only closing the file failed the new
    report is stored.  (The ID the assessment holds is a single path
    element, so that its file and the file of its report are two
    files.) *)
Theorem CompleteAssessment_not_atomic (now : string) (range : MapRange)
    s assessmentID assessment (questions : list Question.t) s1 :
  FileStorage.plain (Assessment.ID assessment) = true ->
  GetAssessment assessmentID s = (s, Ok (Some assessment)) ->
  GetQuestions s = (s, Ok questions) ->
  UpdateAssessment (Assessment.setStatus "completed" assessment) s = (s1, Ok tt) ->
  exists report,
    Scoring.generateReport now range
      (Assessment.setStatus "completed" assessment) questions = Ok report /\
    forall s2 msg,
      SaveReport report s1 = (s2, Err msg) ->
      services.CompleteAssessment now range assessmentID s =
        (s2, Err ("failed to save report: " ++ msg)%string) /\
      FileStorage.assessments s2 !! Assessment.ID assessment =
        Some (Assessment.setStatus "completed" assessment) /\
      Assessment.Status (Assessment.setStatus "completed" assessment) = "completed" /\
      (Assessment.ID assessment = assessmentID ->
       GetAssessment assessmentID s2 =
         (s2, Ok (Some (Assessment.setStatus "completed" assessment)))) /\
      exists fault,
        FileStorage.writeFaults s !! FileStorage.path "reports" (Assessment.ID assessment) =
          Some fault /\
        (FileStorage.leaves fault = FileStorage.Untouched ->
           FileStorage.reports s2 = FileStorage.reports s /\
           (GetReport (Assessment.ID assessment) s2).2 =
             (GetReport (Assessment.ID assessment) s).2) /\
        (FileStorage.leaves fault = FileStorage.Truncated ->
           is_Some (FileStorage.reports s2 !! Assessment.ID assessment) /\
           exists e, GetReport (Assessment.ID assessment) s2 = (s2, Err e)) /\
        (FileStorage.leaves fault = FileStorage.Written ->
           FileStorage.reports s2 !! Assessment.ID assessment = Some report /\
           (FileStorage.path "reports" (Assessment.ID assessment)
              ∉ FileStorage.unreadable s ->
            GetReport (Assessment.ID assessment) s2 = (s2, Ok (Some report)))).
Proof.
  intros _ Hget Hqs Hupd.
  destruct (generateReport_shape now range (Assessment.setStatus "completed" assessment)
              questions) as (report & Hreport & Hid & _).
  change (Assessment.ID (Assessment.setStatus "completed" assessment))
    with (Assessment.ID assessment) in Hid.
  exists report. split; [exact Hreport|].
  intros s2 msg Hsave.
  split.
  { unfold services.CompleteAssessment, mbind, M_bind, wrapError, notNil, mret, M_ret.
    rewrite Hget. cbv beta iota. rewrite Hqs. cbv beta iota zeta.
    rewrite Hupd. cbv beta iota. rewrite Hreport. cbv beta iota. now rewrite Hsave. }
  apply UpdateAssessment_ok in Hupd. subst s1.
  set (completed := Assessment.setStatus "completed" assessment) in *.
  set (pa := FileStorage.path "assessments" (Assessment.ID assessment)).
  set (pr := FileStorage.path "reports" (Assessment.ID assessment)).
  assert (Hne : pr <> pa) by apply reports_not_assessments.
  assert (Hne' : pa <> pr) by (intros E; now apply Hne).
  revert Hsave. cbn [SaveReport FileStorage.storage]. unfold FileStorage.SaveReport.
  rewrite Hid. fold pr.
  destruct (writeFile_cases "report" "reports" (Assessment.ID assessment)
              (FileStorage.putReport report) (FileStorage.putAssessment completed s))
    as [[Hw ->]|(fault & Hfault & ->)]; [discriminate|].
  fold pr in Hfault |- *. cbn [FileStorage.putAssessment FileStorage.writeFaults] in Hfault.
  intros [= <- <-].
  assert (Hfaults : forall s',
            FileStorage.readFaults s' =
              FileStorage.decodable pa (FileStorage.readFaults s) \/
            FileStorage.readFaults s' =
              FileStorage.decodable pr
                (FileStorage.decodable pa (FileStorage.readFaults s)) \/
            FileStorage.readFaults s' =
              FileStorage.undecodable pr
                (FileStorage.decodable pr
                   (FileStorage.decodable pa (FileStorage.readFaults s))) ->
            FileStorage.readFaults s !! pa = None ->
            FileStorage.readFaults s' !! pa = None).
  { intros s' [ -> | [ -> | -> ] ] Hnone;
      rewrite ?undecodable_other, ?decodable_other by exact Hne;
      rewrite decodable_self; now rewrite Hnone. }
  split.
  { destruct (FileStorage.leaves fault); cbn; apply lookup_insert_eq. }
  split; [reflexivity|].
  split.
  { intros Hkeyed. apply readFile_found in Hget as (_ & _ & Hreadable).
    apply unreadable_spec in Hreadable. rewrite <- Hkeyed in Hreadable |- *.
    fold pa in Hreadable.
    cbn [GetAssessment FileStorage.storage]. unfold FileStorage.GetAssessment.
    assert (Hstored :
      FileStorage.assessments
        match FileStorage.leaves fault with
        | FileStorage.Untouched => FileStorage.putAssessment completed s
        | FileStorage.Truncated =>
            FileStorage.truncated pr
              (FileStorage.putReport report (FileStorage.putAssessment completed s))
        | FileStorage.Written =>
            FileStorage.putReport report (FileStorage.putAssessment completed s)
        end !! Assessment.ID assessment = Some completed).
    { destruct (FileStorage.leaves fault); cbn; apply lookup_insert_eq. }
    rewrite Hstored. apply readFile_readable. apply unreadable_spec. fold pa.
    apply Hfaults; [|exact Hreadable].
    destruct (FileStorage.leaves fault);
      cbn [FileStorage.truncated FileStorage.putReport FileStorage.putAssessment
           FileStorage.readFaults];
      rewrite ?Hid; fold pa pr;
      change (FileStorage.path "assessments" (Assessment.ID completed)) with pa; auto. }
  exists fault. split; [exact Hfault|].
  split; [|split]; intros ->.
  - split; [reflexivity|].
    cbn [GetReport FileStorage.storage]. unfold FileStorage.GetReport, FileStorage.readFile.
    cbn [FileStorage.putAssessment FileStorage.readFaults FileStorage.reports].
    fold pa pr.
    change (FileStorage.path "assessments" (Assessment.ID completed)) with pa.
    rewrite decodable_other by exact Hne'.
    destruct (FileStorage.readFaults s !! pr) as [[text|text]|];
      [|destruct (FileStorage.reports s !! Assessment.ID assessment)|]; reflexivity.
  - split; [cbn; rewrite Hid, lookup_insert_eq; eauto|].
    cbn [GetReport FileStorage.storage]. unfold FileStorage.GetReport, FileStorage.readFile.
    cbn [FileStorage.truncated FileStorage.putReport FileStorage.putAssessment
         FileStorage.readFaults FileStorage.reports].
    rewrite Hid, lookup_insert_eq. fold pa pr.
    change (FileStorage.path "assessments" (Assessment.ID completed)) with pa.
    destruct (undecodable_self pr
                (FileStorage.decodable pr
                   (FileStorage.decodable pa (FileStorage.readFaults s))))
      as [[text|text] ->]; eauto.
  - split; [cbn; rewrite Hid; apply lookup_insert_eq|].
    intros Hreadable%unreadable_spec. fold pr in Hreadable.
    cbn [GetReport FileStorage.storage]. unfold FileStorage.GetReport.
    cbn [FileStorage.putReport FileStorage.reports]. rewrite Hid, lookup_insert_eq.
    apply readFile_readable. apply unreadable_spec.
    cbn [FileStorage.putReport FileStorage.putAssessment FileStorage.readFaults].
    rewrite Hid. fold pa pr.
    change (FileStorage.path "assessments" (Assessment.ID completed)) with pa.
    rewrite decodable_self, decodable_other by exact Hne'.
    now rewrite Hreadable.
Qed.

(** C10 fails as stated: the disk is full when the report of "a1" is
    written.  [CompleteAssessment] returns the error and the assessment
    stays completed, but a report file exists, which cannot be decoded. *)
Lemma CompleteAssessment_not_atomic_counterexample :
  let s :=
    Samples.store "in_progress"
      {[ "reports/a1.json" := Samples.diskFull "reports/a1.json" ]} in
  let result := services.CompleteAssessment "2024-01-01T00:00:00Z" map_to_list "a1" s in
  result.2 =
    Err ("failed to save report: failed to write report file: " ++
         "write data/reports/a1.json: no space left on device") /\
  GetAssessment "a1" result.1 =
    (result.1, Ok (Some (Samples.assessment ∅ "completed"))) /\
  is_Some (FileStorage.reports result.1 !! "a1") /\
  GetReport "a1" result.1 =
    (result.1, Err "failed to unmarshal report: unexpected end of JSON input").
Proof.
  intros s result. split; [vm_compute; reflexivity|].
  split; [vm_compute; reflexivity|]. split; [|vm_compute; reflexivity].
  vm_compute. eauto.
Qed.

(** The report file of "a1" is read-only: no report is left. *)
Lemma CompleteAssessment_not_atomic_witness :
  let s :=
    Samples.store "in_progress"
      {[ "reports/a1.json" := Samples.readOnly "reports/a1.json" ]} in
  let completed := Assessment.setStatus "completed" (Samples.assessment ∅ "in_progress") in
  exists s2,
    services.CompleteAssessment "2024-01-01T00:00:00Z" map_to_list "a1" s =
      (s2, Err ("failed to save report: failed to write report file: " ++
                "open data/reports/a1.json: permission denied")) /\
    FileStorage.assessments s2 !! "a1" = Some completed /\
    FileStorage.reports s2 = FileStorage.reports s.
Proof.
  intros s completed.
  destruct (CompleteAssessment_not_atomic "2024-01-01T00:00:00Z" map_to_list s "a1"
              (Samples.assessment ∅ "in_progress")
              (snd <$> FileStorage.questions s)
              (FileStorage.putAssessment completed s))
    as (report & Hreport & Hfail).
  - reflexivity.
  - vm_compute; reflexivity.
  - vm_compute; reflexivity.
  - vm_compute; reflexivity.
  - injection Hreport as <-.
    destruct (Hfail (FileStorage.putAssessment completed s)
                ("failed to write report file: " ++
                 "open data/reports/a1.json: permission denied")%string)
      as (Hres & Hstored & _ & _ & fault & Hfault & Huntouched & _).
    + vm_compute; reflexivity.
    + exists (FileStorage.putAssessment completed s).
      split; [exact Hres|]. split; [exact Hstored|].
      vm_compute in Hfault. injection Hfault as <-.
      now destruct (Huntouched eq_refl) as [-> _].
Defined.

End Service.

(** ** Scenarios *)
Section Scenarios.

(** The thresholds are the doubles nearest to 1/2, 6/10 and 7/10; a zero
    divisor gives NaN or an infinity; large integers are rounded. *)
Example float64_values :
  Float64.ratio 1 2 = Float64.c0_5 /\
  Float64.ratio 6 10 = Float64.c0_6 /\
  Float64.ratio 7 10 = Float64.c0_7 /\
  Float64.ratio 0 0 = S754_nan /\
  Float64.ratio 5 0 = S754_infinity false /\
  Float64.ratio (-5) 0 = S754_infinity true /\
  Float64.of_int (2 ^ 63 - 1) = Float64.of_int (2 ^ 63).
Proof. vm_compute. repeat split. Qed.

(** Scenario A: the single question answered with its best option. *)
Example scenario_answered :
  exists report,
    Scoring.generateReport "2024-01-01T00:00:00Z" map_to_list
      (Samples.assessment Samples.answered "in_progress") Samples.catalog = Ok report /\
    Report.TotalScore report = 50 /\
    Report.MaxPossibleScore report = 50 /\
    Report.Recommendations report = [Scoring.generalLow] /\
    Report.Risks report = [] /\
    map ModernizationStep.Order (Report.ModernizationPlan report) = [1; 2; 3; 4; 5].
Proof. eexists. split; [reflexivity|]. vm_compute. repeat split. Qed.

(** Scenario B: the same catalog without an answer. *)
Example scenario_unanswered :
  exists report,
    Scoring.generateReport "2024-01-01T00:00:00Z" map_to_list
      (Samples.assessment ∅ "in_progress") Samples.catalog = Ok report /\
    Report.TotalScore report = 0 /\
    Report.MaxPossibleScore report = 50 /\
    Report.Recommendations report = [Scoring.generalHigh] /\
    Report.Risks report = [Scoring.deploymentRisk] /\
    map ModernizationStep.Order (Report.ModernizationPlan report) =
      [1; 2; 3; 4; 5; 6; 7; 8].
Proof. eexists. split; [reflexivity|]. vm_compute. repeat split. Qed.

(** Scenario C, on the installed questions: "Architecture" at 20 of 50
    and "Persistence" at 12 of 40. *)
Example scenario_categories :
  exists report,
    Scoring.generateReport "2024-01-01T00:00:00Z" map_to_list
      (Samples.assessment {[ "q1" := "q1_a3"; "q4" := "q4_a3" ]} "in_progress")
      Samples.sampleQuestions = Ok report /\
    Report.TotalScore report = 32 /\
    Report.MaxPossibleScore report = 190 /\
    Report.Recommendations report =
      [Scoring.generalHigh;
       Scoring.architectureRecommendation "Architecture";
       Scoring.persistenceRecommendation "Persistence"] /\
    Report.Risks report =
      [Scoring.deploymentRisk;
       Scoring.architectureRisk "Architecture";
       Scoring.persistenceRisk "Persistence"].
Proof. eexists. split; [reflexivity|]. vm_compute. repeat split. Qed.

(** A category the loop never scored gets no entry even when its rule
    would apply: "Architecture" is unanswered here. *)
Example scenario_unanswered_category :
  exists report,
    Scoring.generateReport "2024-01-01T00:00:00Z" map_to_list
      (Samples.assessment {[ "q4" := "q4_a3" ]} "in_progress")
      Samples.sampleQuestions = Ok report /\
    Report.CategoryScores report !! "Architecture" = None /\
    Report.Recommendations report =
      [Scoring.generalHigh; Scoring.persistenceRecommendation "Persistence"].
Proof. eexists. split; [reflexivity|]. vm_compute. repeat split. Qed.

(** Scenario D: an answer for a question the catalog does not have. *)
Example scenario_stale_answer :
  Scoring.calculateScores Samples.catalog {[ "q1" := "o1"; "q9" := "o1" ]} =
  Scoring.calculateScores Samples.catalog Samples.answered.
Proof. vm_compute. reflexivity. Qed.

(** A quota found exceeded only when the report file is closed: the call
    fails although the report is stored in full, and [GetReport] then
    returns it. *)
Example report_written_despite_error :
  let s :=
    Samples.store "in_progress"
      {[ "reports/a1.json" := Samples.quotaOnClose "reports/a1.json" ]} in
  let result := services.CompleteAssessment "2024-01-01T00:00:00Z" map_to_list "a1" s in
  result.2 =
    Err ("failed to save report: failed to write report file: " ++
         "close data/reports/a1.json: disk quota exceeded") /\
  exists report, GetReport "a1" result.1 = (result.1, Ok (Some report)).
Proof.
  intros s result. split; [vm_compute; reflexivity|].
  eexists. vm_compute. reflexivity.
Qed.

(** An answer saved after the assessment was completed is stored, and the
    status stays "completed". *)
Example save_after_complete :
  let s0 := Samples.store "in_progress" ∅ in
  let completed := services.CompleteAssessment "2024-01-01T00:00:00Z" map_to_list "a1" s0 in
  let saved := services.SaveAnswer "a1" "q1" "o1" completed.1 in
  (exists report, completed.2 = Ok report) /\
  saved.2 = Returns (Ok tt) /\
  FileStorage.assessments saved.1 !! "a1" =
    Some (Samples.assessment Samples.answered "completed").
Proof.
  intros s0 completed saved. split; [eexists; reflexivity|].
  split; vm_compute; reflexivity.
Qed.

End Scenarios.

(** ** More on the scoring loop *)
Section ScoringMore.

Implicit Types (questions : list Question.t) (answers : gmap string string).
Implicit Types (acc : Scoring.scores) (options : list Option.t).

Lemma maxOptionPoints_attained options (start : Z) :
  let result :=
    fold_left
      (fun max option => if Option.Points option >? max then Option.Points option else max)
      options start in
  result = start \/ exists option, option ∈ options /\ Option.Points option = result.
Proof.
  revert start. induction options as [|o options IH]; intros start; simpl; [now left|].
  destruct (IH (if Option.Points o >? start then Option.Points o else start))
    as [->|(o' & Ho' & <-)].
  - destruct (Option.Points o >? start); [right|now left].
    exists o. split; [apply list_elem_of_here|reflexivity].
  - right. exists o'. split; [now apply list_elem_of_further|reflexivity].
Qed.

(** X1. [maxOptionPoints] is the largest of 0 and the points of the
    options: it is never negative, no option has more points, and it is
    either 0 or the points of one of the options.  In particular it is 0
    for a question without options or whose options all have negative
    points. *)
Theorem maxOptionPoints_greatest options :
  0 <= Scoring.maxOptionPoints options /\
  (forall option, option ∈ options ->
     Option.Points option <= Scoring.maxOptionPoints options) /\
  (Scoring.maxOptionPoints options = 0 \/
   exists option, option ∈ options /\
     Option.Points option = Scoring.maxOptionPoints options) /\
  ((forall option, option ∈ options -> Option.Points option <= 0) ->
   Scoring.maxOptionPoints options = 0).
Proof.
  split; [apply maxOptionPoints_nonneg|].
  split; [intros o; apply maxOptionPoints_upper|].
  pose proof (maxOptionPoints_attained options 0) as Hatt.
  split; [exact Hatt|].
  intros Hneg. destruct Hatt as [H|(o & Ho & Hp)]; [exact H|].
  pose proof (maxOptionPoints_nonneg options). specialize (Hneg o Ho).
  unfold Scoring.maxOptionPoints in *. lia.
Qed.

Lemma add_swap (a b c : Z) :
  GoInt.add (GoInt.add a b) c = GoInt.add (GoInt.add a c) b.
Proof. unfold GoInt.add. rewrite !wrap_add_l. f_equal. lia. Qed.

Lemma addTo_swap (k1 k2 : string) (v1 v2 : Z) (m : gmap string Z) :
  Scoring.addTo k1 v1 (Scoring.addTo k2 v2 m) =
  Scoring.addTo k2 v2 (Scoring.addTo k1 v1 m).
Proof.
  unfold Scoring.addTo. destruct (decide (k1 = k2)) as [->|Hne].
  - rewrite !lookup_insert_eq, !insert_insert_eq. simpl.
    now rewrite add_swap.
  - rewrite !lookup_insert_ne by congruence. now apply insert_insert_ne.
Qed.

(** Two iterations of the scoring loop can be exchanged. *)
Lemma scoreQuestion_swap answers acc (q1 q2 : Question.t) :
  Scoring.scoreQuestion answers (Scoring.scoreQuestion answers acc q1) q2 =
  Scoring.scoreQuestion answers (Scoring.scoreQuestion answers acc q2) q1.
Proof.
  unfold Scoring.scoreQuestion.
  destruct (answers !! Question.ID q1) as [o1|];
    [destruct (Scoring.selectedOption (Question.Options q1) o1)|];
    (destruct (answers !! Question.ID q2) as [o2|];
      [destruct (Scoring.selectedOption (Question.Options q2) o2)|]);
    cbn [Scoring.totalScore Scoring.maxScore Scoring.categoryScores
         Scoring.categoryMaxScores];
    f_equal; auto using add_swap, addTo_swap.
Qed.

Lemma fold_left_permutation {A B} (f : A -> B -> A) (l l' : list B) :
  (forall a x y, f (f a x) y = f (f a y) x) ->
  l ≡ₚ l' -> forall a, fold_left f l a = fold_left f l' a.
Proof.
  intros Hswap Hperm. induction Hperm as [|x l l' _ IH|x y l|l l' l'' _ IH1 _ IH2];
    intros a; simpl.
  - reflexivity.
  - apply IH.
  - now rewrite Hswap.
  - now rewrite IH1.
Qed.

(** The header of a report: the loop over the categories and the plan
    leave it as [generateReport] first fills it. *)
Lemma generateReport_header (now : string) (range : MapRange)
    (assessment : Assessment.t) questions (report : Report.t) :
  Scoring.generateReport now range assessment questions = Ok report ->
  Report.ApplicationID report = Assessment.ApplicationID assessment /\
  Report.GeneratedAt report = now.
Proof.
  unfold Scoring.generateReport, Scoring.generateRecommendations. intros [= <-].
  cbn [Report.setModernizationPlan Report.ApplicationID Report.GeneratedAt].
  set (start := Scoring.overallRecommendation _ _ _).
  assert (Hstart : Report.ApplicationID start = Assessment.ApplicationID assessment /\
                   Report.GeneratedAt start = now).
  { subst start. unfold Scoring.overallRecommendation.
    destruct (Float64.ltb _ Float64.c0_5); [|destruct (Float64.ltb _ Float64.c0_7)];
      split; reflexivity. }
  clearbody start. revert start Hstart.
  induction (range _) as [|[category score] entries IH]; intros start Hstart;
    [exact Hstart|].
  cbn [fold_left]. apply IH. unfold Scoring.categoryRecommendation.
  destruct (_ !! category) as [m|]; [|exact Hstart].
  destruct (m =? 0); [exact Hstart|].
  destruct (_ && _); [exact Hstart|]. destruct (_ && _); exact Hstart.
Qed.

(** X2. The scores do not depend on the order in which the catalog lists
    the questions, and two reports over the same questions, listed in any
    order and with the category scores visited in any order, differ at
    most in the order of their recommendations and of their risks: the
    header, the scores, the plan and the first recommendation, which is
    the overall one, are the same. *)
Theorem scoring_order_irrelevant (now : string) (range range' : MapRange)
    (assessment : Assessment.t) questions questions' :
  questions ≡ₚ questions' ->
  fair range -> fair range' ->
  Scoring.calculateScores questions (Assessment.Answers assessment) =
    Scoring.calculateScores questions' (Assessment.Answers assessment) /\
  exists report report',
    Scoring.generateReport now range assessment questions = Ok report /\
    Scoring.generateReport now range' assessment questions' = Ok report' /\
    Report.AssessmentID report = Report.AssessmentID report' /\
    Report.ApplicationID report = Report.ApplicationID report' /\
    Report.GeneratedAt report = Report.GeneratedAt report' /\
    Report.TotalScore report = Report.TotalScore report' /\
    Report.MaxPossibleScore report = Report.MaxPossibleScore report' /\
    Report.CategoryScores report = Report.CategoryScores report' /\
    Report.ModernizationPlan report = Report.ModernizationPlan report' /\
    head (Report.Recommendations report) = head (Report.Recommendations report') /\
    Report.Recommendations report ≡ₚ Report.Recommendations report' /\
    Report.Risks report ≡ₚ Report.Risks report'.
Proof.
  intros Hperm Hfair Hfair'.
  assert (Hsc : Scoring.calculateScores questions (Assessment.Answers assessment) =
                Scoring.calculateScores questions' (Assessment.Answers assessment)).
  { unfold Scoring.calculateScores. apply fold_left_permutation; [|exact Hperm].
    intros a x y. apply scoreQuestion_swap. }
  split; [exact Hsc|].
  destruct (generateReport_shape now range assessment questions)
    as (report & Hreport & Hid & Ht & Hm & Hcat & Hrec & Hrisk & Hplan).
  destruct (generateReport_shape now range' assessment questions')
    as (report' & Hreport' & Hid' & Ht' & Hm' & Hcat' & Hrec' & Hrisk' & Hplan').
  destruct (generateReport_header _ _ _ _ _ Hreport) as [Happ Hat].
  destruct (generateReport_header _ _ _ _ _ Hreport') as [Happ' Hat'].
  rewrite <- Hsc in *.
  exists report, report'. split; [exact Hreport|]. split; [exact Hreport'|].
  rewrite Hid, Hid', Happ, Happ', Hat, Hat', Ht, Ht', Hm, Hm', Hcat, Hcat',
    Hplan, Hplan', Hrec, Hrec', Hrisk, Hrisk'.
  repeat split.
  - constructor. apply Permutation_flat_map.
    now rewrite (Hfair _), (Hfair' _).
  - apply Permutation_app_head, Permutation_flat_map.
    now rewrite (Hfair _), (Hfair' _).
Qed.

(** The installed questions, first to last and last to first, with the
    category scores visited in the two directions. *)
Lemma scoring_order_irrelevant_witness :
  let assessment :=
    Samples.assessment {[ "q1" := "q1_a3"; "q4" := "q4_a3" ]} "in_progress" in
  exists report report',
    Scoring.generateReport "2024-01-01T00:00:00Z" map_to_list assessment
      Samples.sampleQuestions = Ok report /\
    Scoring.generateReport "2024-01-01T00:00:00Z" (fun m => reverse (map_to_list m))
      assessment (reverse Samples.sampleQuestions) = Ok report' /\
    Report.TotalScore report = Report.TotalScore report' /\
    Report.Recommendations report ≡ₚ Report.Recommendations report' /\
    Report.Recommendations report <> Report.Recommendations report'.
Proof.
  intros assessment.
  destruct (scoring_order_irrelevant "2024-01-01T00:00:00Z" map_to_list
              (fun m => reverse (map_to_list m)) assessment
              Samples.sampleQuestions (reverse Samples.sampleQuestions))
    as (_ & report & report' & Hr & Hr' & _ & _ & _ & Ht & _ & _ & _ & _ & Hrec & _).
  - symmetry. apply reverse_Permutation.
  - intros m. reflexivity.
  - intros m. apply reverse_Permutation.
  - exists report, report'. repeat split; try assumption.
    injection Hr as <-. injection Hr' as <-. vm_compute. discriminate.
Defined.

Lemma lookup_addTo_is_Some (k c : string) (v : Z) (m : gmap string Z) :
  is_Some (Scoring.addTo k v m !! c) <-> c = k \/ is_Some (m !! c).
Proof.
  unfold Scoring.addTo. destruct (decide (k = c)) as [->|Hne].
  - rewrite lookup_insert_eq. split; [now left|]. intros _. eauto.
  - rewrite lookup_insert_ne by assumption. split; [now right|].
    intros [->|H]; [contradiction|exact H].
Qed.

(** Which categories the two maps of the loop hold. *)
Lemma scoring_loop_categories questions answers acc (category : string) :
  let result := fold_left (Scoring.scoreQuestion answers) questions acc in
  (is_Some (Scoring.categoryScores result !! category) <->
     is_Some (Scoring.categoryScores acc !! category) \/
     exists question, question ∈ questions /\
       Question.Category question = category /\
       is_Some (pickedOption answers question)) /\
  (is_Some (Scoring.categoryMaxScores result !! category) <->
     is_Some (Scoring.categoryMaxScores acc !! category) \/
     exists question, question ∈ questions /\ Question.Category question = category).
Proof.
  revert acc. induction questions as [|q questions IH]; intros acc; simpl.
  - split; (split; [now left|]); (intros [H|(q & Hq & _)]; [exact H|inversion Hq]).
  - destruct (IH (Scoring.scoreQuestion answers acc q)) as [IHs IHm].
    rewrite IHs, IHm. clear IH IHs IHm.
    assert (Hstep :
      (is_Some (Scoring.categoryScores (Scoring.scoreQuestion answers acc q) !! category) <->
         is_Some (Scoring.categoryScores acc !! category) \/
         (Question.Category q = category /\ is_Some (pickedOption answers q))) /\
      (is_Some (Scoring.categoryMaxScores (Scoring.scoreQuestion answers acc q) !! category) <->
         is_Some (Scoring.categoryMaxScores acc !! category) \/
         Question.Category q = category)).
    { pose proof (@is_Some_None Option.t) as Hnone.
      unfold Scoring.scoreQuestion, pickedOption.
      destruct (answers !! Question.ID q) as [optionID|];
        [destruct (Scoring.selectedOption (Question.Options q) optionID) as [o|]|];
        cbn [Scoring.categoryScores Scoring.categoryMaxScores];
        rewrite ?lookup_addTo_is_Some;
        try (assert (is_Some (Some o)) by eauto);
        intuition congruence. }
    destruct Hstep as [-> ->]. split.
    + split.
      * intros [[H|[Hc Hp]]|(q' & Hq' & Hc & Hp)]; [now left| |].
        -- right. exists q. split; [apply list_elem_of_here|auto].
        -- right. exists q'. split; [now apply list_elem_of_further|auto].
      * intros [H|(q' & Hq' & Hc & Hp)]; [now left; left|].
        apply elem_of_cons in Hq' as [->|Hq']; [left; right; auto|].
        right. exists q'. auto.
    + split.
      * intros [[H|Hc]|(q' & Hq' & Hc)]; [now left| |].
        -- right. exists q. split; [apply list_elem_of_here|auto].
        -- right. exists q'. split; [now apply list_elem_of_further|auto].
      * intros [H|(q' & Hq' & Hc)]; [now left; left|].
        apply elem_of_cons in Hq' as [->|Hq']; [left; right; auto|].
        right. exists q'. auto.
Qed.

(** X3. After scoring, a category has a score exactly when some question
    of that category has an answer that names one of its options, and it
    has a maximum exactly when the catalog has a question of that
    category; so every category with a score also has a maximum. *)
Theorem scored_categories questions answers (category : string) :
  let sc := Scoring.calculateScores questions answers in
  (is_Some (Scoring.categoryScores sc !! category) <->
     exists question, question ∈ questions /\
       Question.Category question = category /\
       is_Some (pickedOption answers question)) /\
  (is_Some (Scoring.categoryMaxScores sc !! category) <->
     exists question, question ∈ questions /\ Question.Category question = category) /\
  (is_Some (Scoring.categoryScores sc !! category) ->
   is_Some (Scoring.categoryMaxScores sc !! category)).
Proof.
  intros sc. subst sc. unfold Scoring.calculateScores.
  destruct (scoring_loop_categories questions answers (Scoring.mkScores 0 0 ∅ ∅) category)
    as [Hs Hm].
  cbn [Scoring.categoryScores Scoring.categoryMaxScores] in Hs, Hm.
  rewrite lookup_empty in Hs, Hm.
  assert (Hnone : ~ is_Some (@None Z)) by (intros [? [=]]).
  split; [|split].
  - rewrite Hs. split; [intros [H|H]; [contradiction|exact H] | now right].
  - rewrite Hm. split; [intros [H|H]; [contradiction|exact H] | now right].
  - rewrite Hs, Hm. intros [H|(q & Hq & Hc & _)]; [contradiction|]. right. eauto.
Qed.

Lemma lookup_addTo_default (k c : string) (v : Z) (m : gmap string Z) :
  default 0 (Scoring.addTo k v m !! c) =
  if String.eqb k c then GoInt.add (default 0 (m !! c)) v else default 0 (m !! c).
Proof.
  unfold Scoring.addTo. destruct (String.eqb_spec k c) as [->|Hne].
  - now rewrite lookup_insert_eq.
  - now rewrite lookup_insert_ne.
Qed.

(** The entries of the two maps are the exact per-category sums, wrapped. *)
Lemma scoring_loop_category_exact questions answers acc (category : string) :
  GoInt.in_range (default 0 (Scoring.categoryScores acc !! category)) ->
  GoInt.in_range (default 0 (Scoring.categoryMaxScores acc !! category)) ->
  let result := fold_left (Scoring.scoreQuestion answers) questions acc in
  default 0 (Scoring.categoryScores result !! category) =
    GoInt.wrap (default 0 (Scoring.categoryScores acc !! category) +
                Exact.categoryTotal category questions answers) /\
  default 0 (Scoring.categoryMaxScores result !! category) =
    GoInt.wrap (default 0 (Scoring.categoryMaxScores acc !! category) +
                Exact.categoryMax category questions).
Proof.
  revert acc. induction questions as [|q questions IH]; intros acc Hs Hm; simpl.
  - rewrite !Z.add_0_r, !wrap_id by assumption. auto.
  - assert (Hstep :
      default 0 (Scoring.categoryScores (Scoring.scoreQuestion answers acc q) !! category) =
        GoInt.wrap (default 0 (Scoring.categoryScores acc !! category) +
                    (if String.eqb (Question.Category q) category
                     then Exact.score answers q else 0)) /\
      default 0 (Scoring.categoryMaxScores (Scoring.scoreQuestion answers acc q) !! category) =
        GoInt.wrap (default 0 (Scoring.categoryMaxScores acc !! category) +
                    (if String.eqb (Question.Category q) category
                     then Exact.ceiling q else 0))).
    { unfold Scoring.scoreQuestion, Exact.score, Exact.ceiling, GoInt.add, GoInt.mul.
      destruct (answers !! Question.ID q) as [optionID|];
        [destruct (Scoring.selectedOption (Question.Options q) optionID)|];
        cbn [Scoring.categoryScores Scoring.categoryMaxScores];
        rewrite ?lookup_addTo_default; unfold GoInt.add;
        destruct (String.eqb (Question.Category q) category);
        rewrite ?wrap_add_r, ?Z.add_0_r, ?(wrap_id _ Hs), ?(wrap_id _ Hm); auto. }
    destruct Hstep as [Hss Hsm].
    destruct (IH (Scoring.scoreQuestion answers acc q)) as [-> ->].
    + rewrite Hss. apply wrap_in_range.
    + rewrite Hsm. apply wrap_in_range.
    + rewrite Hss, Hsm, !wrap_add_l. split; f_equal; lia.
Qed.

Lemma exact_category_bounds questions answers (category : string) :
  pointsNonNegative questions -> weightsNonNegative questions ->
  0 <= Exact.categoryTotal category questions answers
    <= Exact.categoryMax category questions /\
  Exact.categoryMax category questions <= Exact.maxPossible questions.
Proof.
  unfold pointsNonNegative, weightsNonNegative.
  induction questions as [|q questions IH]; simpl; intros Hp Hw; [lia|].
  pose proof (exact_total_bounds [q] answers) as Hq. simpl in Hq.
  inversion Hp as [|? ? Hpq Hp']; inversion Hw as [|? ? Hwq Hw']; subst.
  specialize (IH Hp' Hw').
  specialize (Hq ltac:(repeat constructor; assumption) ltac:(repeat constructor; assumption)).
  destruct (String.eqb (Question.Category q) category); lia.
Qed.

(** What [calculateScores] leaves in the two maps for one category. *)
Lemma scored_categories_aux questions answers (category : string) :
  let sc := Scoring.calculateScores questions answers in
  (is_Some (Scoring.categoryScores sc !! category) ->
   is_Some (Scoring.categoryMaxScores sc !! category)) /\
  (default 0 (Scoring.categoryScores sc !! category) =
     GoInt.wrap (Exact.categoryTotal category questions answers) /\
   default 0 (Scoring.categoryMaxScores sc !! category) =
     GoInt.wrap (Exact.categoryMax category questions)).
Proof.
  intros sc. subst sc. unfold Scoring.calculateScores. split.
  - destruct (scoring_loop_categories questions answers (Scoring.mkScores 0 0 ∅ ∅) category)
      as [Hs Hm].
    cbn [Scoring.categoryScores Scoring.categoryMaxScores] in Hs, Hm.
    rewrite lookup_empty in Hs, Hm. rewrite Hs, Hm.
    intros [H|(q & Hq & Hc & _)]; [destruct (is_Some_None H)|]. right. eauto.
  - destruct (scoring_loop_category_exact questions answers
                (Scoring.mkScores 0 0 ∅ ∅) category) as [Hs Hm];
      cbn [Scoring.categoryScores Scoring.categoryMaxScores];
      rewrite ?lookup_empty; cbn [default];
      try (unfold GoInt.in_range, GoInt.min_int, GoInt.max_int; lia).
    cbn [Scoring.categoryScores Scoring.categoryMaxScores] in Hs, Hm.
    rewrite lookup_empty in Hs, Hm. cbn [default] in Hs, Hm.
    now rewrite Hs, Hm.
Qed.

(** X4. When the points and weights of the catalog are non-negative and
    the exact ceiling of the catalog fits in an [int], every category
    with a score has a maximum, and
    [0 <= category score <= category maximum <= maxPossible]. *)
Theorem category_score_bounds questions answers (category : string) (score : Z) :
  pointsNonNegative questions -> weightsNonNegative questions ->
  Exact.maxPossible questions <= GoInt.max_int ->
  let sc := Scoring.calculateScores questions answers in
  Scoring.categoryScores sc !! category = Some score ->
  exists categoryMax,
    Scoring.categoryMaxScores sc !! category = Some categoryMax /\
    0 <= score <= categoryMax /\ categoryMax <= Scoring.maxScore sc.
Proof.
  intros Hp Hw Hfit sc Hscore.
  destruct (scored_categories_aux questions answers category) as [Hsome Hexact].
  fold sc in Hsome, Hexact.
  destruct (Hsome (ex_intro _ score Hscore)) as [categoryMax Hmax].
  exists categoryMax. split; [exact Hmax|].
  destruct Hexact as [Hs Hm]. rewrite Hscore in Hs. rewrite Hmax in Hm.
  change (default 0 (Some score)) with score in Hs.
  change (default 0 (Some categoryMax)) with categoryMax in Hm.
  destruct (exact_category_bounds questions answers category Hp Hw) as [Hb Hb'].
  pose proof (proj2 (calculateScores_exact questions answers)) as Hms. fold sc in Hms.
  rewrite Hms, Hs, Hm, !wrap_id;
    unfold GoInt.in_range, GoInt.min_int, GoInt.max_int in *; lia.
Qed.

(** The sample catalog answered: "Architecture" scores 50 of 50. *)
Lemma category_score_bounds_witness :
  exists categoryMax,
    Scoring.categoryMaxScores (Scoring.calculateScores Samples.catalog Samples.answered)
      !! "Architecture" = Some categoryMax /\
    0 <= 50 <= categoryMax /\
    categoryMax <= Scoring.maxScore (Scoring.calculateScores Samples.catalog Samples.answered).
Proof.
  apply (category_score_bounds Samples.catalog Samples.answered "Architecture" 50).
  - repeat constructor; simpl; lia.
  - repeat constructor; simpl; lia.
  - vm_compute; discriminate.
  - vm_compute; reflexivity.
Defined.

End ScoringMore.

(** ** Conversion of integers to [float64] and division

    The mantissa arithmetic behind [float64(n)] and [/], as far as it
    decides whether a ratio is a number. *)
Section FloatConversion.

Lemma digits2_pos_bounds (p : positive) :
  2 ^ (Zpos (digits2_pos p) - 1) <= Zpos p < 2 ^ Zpos (digits2_pos p).
Proof.
  induction p as [p IH|p IH|]; cbn [digits2_pos].
  - rewrite Pos2Z.inj_succ.
    replace (Z.succ (Zpos (digits2_pos p)) - 1) with (Z.succ (Zpos (digits2_pos p) - 1)) by lia.
    rewrite !Z.pow_succ_r by lia. lia.
  - rewrite Pos2Z.inj_succ.
    replace (Z.succ (Zpos (digits2_pos p)) - 1) with (Z.succ (Zpos (digits2_pos p) - 1)) by lia.
    rewrite !Z.pow_succ_r by lia. lia.
  - simpl. lia.
Qed.

Lemma shr_1_m (r : shr_record) :
  0 <= shr_m r -> shr_m (shr_1 r) = shr_m r / 2.
Proof.
  destruct r as [m b s]. cbn [shr_m]. intros Hm.
  destruct m as [|[p|p|]|p]; cbn [shr_1 shr_m]; try lia; try reflexivity.
  - rewrite Pos2Z.inj_xI. apply Z.div_unique with 1; lia.
  - rewrite Pos2Z.inj_xO. apply Z.div_unique with 0; lia.
Qed.

Lemma pow2_twice (x : Z) : 0 <= x -> 2 ^ (x + x) = 2 ^ x * 2 ^ x.
Proof. intros H. now apply Z.pow_add_r. Qed.

Lemma iter_shr_1_m (k : positive) (r : shr_record) :
  0 <= shr_m r -> shr_m (SpecFloat.iter_pos shr_1 k r) = shr_m r / 2 ^ Zpos k.
Proof.
  revert r. induction k as [k IH|k IH|]; intros r Hr; cbn [SpecFloat.iter_pos].
  - assert (H1 : 0 <= shr_m (shr_1 r)) by (rewrite shr_1_m by assumption; apply Z.div_pos; lia).
    assert (H2 : 0 <= shr_m (SpecFloat.iter_pos shr_1 k (shr_1 r)))
      by (rewrite IH by assumption; apply Z.div_pos; lia).
    rewrite IH, IH, shr_1_m by assumption.
    rewrite !Z.div_div by lia. f_equal.
    rewrite (Pos2Z.inj_xI k).
    replace (2 * Zpos k + 1) with (Zpos k + Zpos k + 1) by lia.
    rewrite (Z.pow_add_r 2 (Zpos k + Zpos k) 1) by lia.
    rewrite pow2_twice by lia.
    change (2 ^ 1) with 2. ring.
  - assert (H2 : 0 <= shr_m (SpecFloat.iter_pos shr_1 k r))
      by (rewrite IH by assumption; apply Z.div_pos; lia).
    rewrite IH, IH by assumption.
    rewrite !Z.div_div by lia. f_equal.
    rewrite (Pos2Z.inj_xO k).
    replace (2 * Zpos k) with (Zpos k + Zpos k) by lia.
    rewrite pow2_twice by lia. ring.
  - rewrite shr_1_m by assumption. reflexivity.
Qed.

Lemma shr_record_of_loc_m (m : Z) (l : location) : shr_m (shr_record_of_loc m l) = m.
Proof. destruct l as [|[]]; reflexivity. Qed.

Lemma round_nearest_even_bounds (m : Z) (l : location) :
  m <= round_nearest_even m l <= m + 1.
Proof. destruct l as [|[]]; cbn [round_nearest_even]; try destruct (Z.even m); lia. Qed.

(** What [shr_fexp] does to a non-negative mantissa. *)
Lemma shr_fexp_cases (m e : Z) (l : location) :
  0 <= m ->
  let n := fexp 53 1024 (Zdigits2 m + e) - e in
  let r := fst (shr_fexp 53 1024 m e l) in
  let e' := snd (shr_fexp 53 1024 m e l) in
  (n <= 0 /\ shr_m r = m /\ e' = e) \/
  (0 < n /\ shr_m r = m / 2 ^ n /\ e' = e + n).
Proof.
  intros Hm n r e'. subst r e'. unfold shr_fexp, shr. fold n.
  destruct n as [|k|k] eqn:Hn; cbn [fst snd].
  - left. rewrite shr_record_of_loc_m. lia.
  - right. rewrite iter_shr_1_m by (rewrite shr_record_of_loc_m; lia).
    rewrite shr_record_of_loc_m. lia.
  - left. rewrite shr_record_of_loc_m. lia.
Qed.

Lemma binary_round_aux_not_nan (sx : bool) (m e : Z) (l : location) :
  0 <= m -> binary_round_aux 53 1024 sx m e l <> S754_nan.
Proof.
  intros Hm. unfold binary_round_aux.
  pose proof (shr_fexp_cases m e l Hm) as H1.
  destruct (shr_fexp 53 1024 m e l) as [r1 e1]. cbn [fst snd] in H1.
  assert (Hr1 : 0 <= shr_m r1).
  { destruct H1 as [(_ & -> & _)|(Hn & -> & _)]; [lia|]. apply Z.div_pos; lia. }
  pose proof (round_nearest_even_bounds (shr_m r1) (loc_of_shr_record r1)) as Hround.
  set (m2 := round_nearest_even (shr_m r1) (loc_of_shr_record r1)) in *.
  pose proof (shr_fexp_cases m2 e1 loc_Exact ltac:(lia)) as H2.
  destruct (shr_fexp 53 1024 m2 e1 loc_Exact) as [r2 e2]. cbn [fst snd] in H2.
  assert (Hr2 : 0 <= shr_m r2).
  { destruct H2 as [(_ & -> & _)|(Hn & -> & _)]; [lia|]. apply Z.div_pos; lia. }
  destruct (shr_m r2) as [|p|p]; [discriminate| |lia].
  destruct (e2 <=? 1024 - 53); discriminate.
Qed.

Lemma Zdigits2_bounds (m : Z) :
  0 < m -> 0 < Zdigits2 m /\ 2 ^ (Zdigits2 m - 1) <= m < 2 ^ Zdigits2 m.
Proof.
  destruct m as [|p|p]; try lia. intros _. cbn [Zdigits2].
  split; [lia|apply digits2_pos_bounds].
Qed.

Lemma div_pow2_pos (m n : Z) :
  0 < m -> 0 <= n < Zdigits2 m -> 0 < m / 2 ^ n.
Proof.
  intros Hm Hn. destruct (Zdigits2_bounds m Hm) as [_ [Hlo _]].
  apply Z.div_str_pos. split; [lia|].
  apply Z.le_trans with (2 ^ (Zdigits2 m - 1)); [|exact Hlo].
  apply Z.pow_le_mono_r; lia.
Qed.

Lemma Zdigits2_le (m m' : Z) : 0 < m -> m <= 2 * m' -> 0 < m' -> Zdigits2 m <= Zdigits2 m' + 1.
Proof.
  intros Hm Hle Hm'.
  destruct (Zdigits2_bounds m Hm) as [Hd [Hlo _]].
  destruct (Zdigits2_bounds m' Hm') as [Hd' [_ Hhi']].
  assert (2 ^ (Zdigits2 m - 1) < 2 ^ (Zdigits2 m' + 1)).
  { rewrite Z.pow_add_r by lia. change (2 ^ 1) with 2. lia. }
  apply Z.pow_lt_mono_r_iff in H; lia.
Qed.

(** Rounding an exact positive mantissa of the normal range is finite. *)
Lemma binary_round_aux_finite (sx : bool) (m e : Z) :
  0 < m ->
  -1074 <= Zdigits2 m + e - 53 ->
  2 * Zdigits2 m + e + 1 <= 971 ->
  exists m' e', binary_round_aux 53 1024 sx m e loc_Exact = S754_finite sx m' e'.
Proof.
  intros Hm Hlo Hhi. unfold binary_round_aux.
  destruct (Zdigits2_bounds m Hm) as [Hd _].
  assert (Hfexp : fexp 53 1024 (Zdigits2 m + e) = Zdigits2 m + e - 53).
  { unfold fexp, emin. lia. }
  pose proof (shr_fexp_cases m e loc_Exact ltac:(lia)) as H1.
  rewrite Hfexp in H1.
  destruct (shr_fexp 53 1024 m e loc_Exact) as [r1 e1]. cbn [fst snd] in H1.
  assert (Hr1 : 0 < shr_m r1 <= m /\ e <= e1 <= Zdigits2 m + e /\ -1074 <= e1).
  { destruct H1 as [(Hn & -> & ->)|(Hn & -> & ->)]; [lia|].
    split; [|lia]. split; [apply div_pow2_pos; lia|].
    apply Z.div_le_upper_bound; [lia|].
    pose proof (Z.pow_pos_nonneg 2 (Zdigits2 m + e - 53 - e) ltac:(lia) ltac:(lia)).
    nia. }
  destruct Hr1 as (Hr1 & He1 & He1').
  pose proof (round_nearest_even_bounds (shr_m r1) (loc_of_shr_record r1)) as Hround.
  set (m2 := round_nearest_even (shr_m r1) (loc_of_shr_record r1)) in *.
  assert (Hm2 : 0 < m2) by lia.
  destruct (Zdigits2_bounds m2 Hm2) as [Hd2 _].
  assert (Hd2' : Zdigits2 m2 <= Zdigits2 m + 1) by (apply Zdigits2_le; lia).
  pose proof (shr_fexp_cases m2 e1 loc_Exact ltac:(lia)) as H2.
  destruct (shr_fexp 53 1024 m2 e1 loc_Exact) as [r2 e2]. cbn [fst snd] in H2.
  assert (Hr2 : 0 < shr_m r2 /\ e2 <= 971).
  { unfold fexp, emin in H2.
    destruct H2 as [(Hn & -> & ->)|(Hn & -> & ->)]; [lia|].
    split; [apply div_pow2_pos; lia|lia]. }
  destruct Hr2 as [Hr2 He2].
  destruct (shr_m r2) as [|p|p]; try lia.
  exists p, e2. destruct (Z.leb_spec e2 (1024 - 53)); [reflexivity|lia].
Qed.

Lemma digits2_pos_iter_xO (p k : positive) :
  Zpos (digits2_pos (Pos.iter xO p k)) = Zpos (digits2_pos p) + Zpos k.
Proof.
  induction k as [|k IH] using Pos.peano_ind.
  - cbn. lia.
  - rewrite Pos.iter_succ. cbn [digits2_pos]. lia.
Qed.

Lemma binary_round_finite (sx : bool) (p : positive) :
  Zpos p < 2 ^ 64 ->
  exists m e, binary_round 53 1024 sx p 0 = S754_finite sx m e.
Proof.
  intros Hp. unfold binary_round, shl_align.
  pose proof (digits2_pos_bounds p) as [Hlo _].
  assert (Hd : Zpos (digits2_pos p) <= 64).
  { assert (2 ^ (Zpos (digits2_pos p) - 1) < 2 ^ 64) by lia.
    apply Z.pow_lt_mono_r_iff in H; lia. }
  assert (Hfexp : fexp 53 1024 (Zpos (digits2_pos p) + 0) = Zpos (digits2_pos p) - 53).
  { unfold fexp, emin. lia. }
  rewrite Hfexp.
  destruct (Zpos (digits2_pos p) - 53 - 0) as [|k|k] eqn:Hk.
  - apply binary_round_aux_finite; cbn [Zdigits2]; lia.
  - apply binary_round_aux_finite; cbn [Zdigits2]; lia.
  - apply binary_round_aux_finite; cbn [Zdigits2];
      rewrite ?digits2_pos_iter_xO; lia.
Qed.

(** [float64(n)] of an [int]: zero for 0, otherwise finite with the sign
    of [n]. *)
Lemma of_int_zero : Float64.of_int 0 = S754_zero false.
Proof. reflexivity. Qed.

Lemma of_int_finite (n : Z) :
  n <> 0 -> GoInt.in_range n ->
  exists m e, Float64.of_int n = S754_finite (n <? 0) m e.
Proof.
  unfold GoInt.in_range, GoInt.min_int, GoInt.max_int, Float64.of_int, binary_normalize.
  intros Hn Hr. destruct n as [|p|p]; [contradiction| |];
    apply binary_round_finite; lia.
Qed.

Lemma div_finite_not_nan (sx sy : bool) (mx my : positive) (ex ey : Z) :
  Float64.div (S754_finite sx mx ex) (S754_finite sy my ey) <> S754_nan.
Proof.
  unfold Float64.div, SFdiv, SFdiv_core_binary.
  set (s := _ - _ - Z.min _ _).
  set (m' := match s with Zpos _ => _ | Z0 => _ | Zneg _ => _ end).
  assert (Hm' : 0 <= m').
  { subst m'. destruct s; [lia| |lia]. apply Z.shiftl_nonneg. lia. }
  pose proof (Z_div_mod m' (Zpos my) ltac:(lia)) as Hdiv.
  destruct (Z.div_eucl m' (Zpos my)) as [q r].
  apply binary_round_aux_not_nan. nia.
Qed.

End FloatConversion.

(** ** When a ratio is a number *)
Section Ratio.

Lemma ratio_zero_numerator (b : Z) :
  b <> 0 -> GoInt.in_range b -> Float64.ratio 0 b = S754_zero (b <? 0).
Proof.
  intros Hb Hr. unfold Float64.ratio. rewrite of_int_zero.
  destruct (of_int_finite b Hb Hr) as (m & e & ->). reflexivity.
Qed.

Lemma zero_below_thresholds (s : bool) :
  Float64.ltb (S754_zero s) Float64.c0_5 = true /\
  Float64.ltb (S754_zero s) Float64.c0_7 = true.
Proof. split; reflexivity. Qed.

(** X5. For two [int]s the quotient [float64(a) / float64(b)] is NaN
    exactly when both are 0.  So the overall ratio is NaN only for
    [total = 0] and [maxPossible = 0], and the ratio of a category, which
    is computed only for a non-zero maximum, never is. *)
Theorem ratio_nan_iff (a b : Z) :
  GoInt.in_range a -> GoInt.in_range b ->
  (Float64.ratio a b = S754_nan <-> a = 0 /\ b = 0).
Proof.
  intros Ha Hb. split.
  - intros Hnan. destruct (decide (a = 0)) as [->|Hna].
    + split; [reflexivity|]. destruct (decide (b = 0)) as [->|Hnb]; [reflexivity|].
      rewrite (ratio_zero_numerator b Hnb Hb) in Hnan. discriminate.
    + exfalso. revert Hnan. unfold Float64.ratio.
      destruct (of_int_finite a Hna Ha) as (ma & ea & ->).
      destruct (decide (b = 0)) as [->|Hnb].
      * rewrite of_int_zero. discriminate.
      * destruct (of_int_finite b Hnb Hb) as (mb & eb & ->).
        apply div_finite_not_nan.
  - intros [-> ->]. reflexivity.
Qed.

(** 32 of 190 is a number; 0 of 0 is not. *)
Lemma ratio_nan_iff_witness :
  Float64.ratio 32 190 <> S754_nan /\ Float64.ratio 0 0 = S754_nan.
Proof.
  split.
  - intros Hnan. apply (ratio_nan_iff 32 190) in Hnan as [H _]; [discriminate| |];
      vm_compute; split; discriminate.
  - apply (ratio_nan_iff 0 0); [| |split; reflexivity]; vm_compute; split; discriminate.
Defined.

End Ratio.

(** ** The report as a whole *)
Section ReportMore.

Implicit Types (categoryMaxScores categoryScores : gmap string Z).

(** What one iteration emits, by category. *)
Lemma emitted_by_category categoryMaxScores (category : string) (score : Z) :
  Scoring.emittedRecommendations categoryMaxScores (category, score) =
    (if String.eqb category "Architecture" then
       if ruleFires categoryMaxScores "Architecture" score Float64.c0_5
       then [Scoring.architectureRecommendation "Architecture"] else []
     else if String.eqb category "Persistence" then
       if ruleFires categoryMaxScores "Persistence" score Float64.c0_6
       then [Scoring.persistenceRecommendation "Persistence"] else []
     else []) /\
  Scoring.emittedRisks categoryMaxScores (category, score) =
    (if String.eqb category "Architecture" then
       if ruleFires categoryMaxScores "Architecture" score Float64.c0_5
       then [Scoring.architectureRisk "Architecture"] else []
     else if String.eqb category "Persistence" then
       if ruleFires categoryMaxScores "Persistence" score Float64.c0_6
       then [Scoring.persistenceRisk "Persistence"] else []
     else []).
Proof.
  unfold Scoring.emittedRecommendations, Scoring.emittedRisks,
    Scoring.categoryRecommendation, ruleFires.
  destruct (String.eqb_spec category "Architecture") as [->|Harch].
  - destruct (categoryMaxScores !! "Architecture") as [m|]; [|split; reflexivity].
    destruct (m =? 0); [split; reflexivity|]. cbn [negb andb].
    change (String.eqb "Architecture" "Architecture") with true.
    change (String.eqb "Architecture" "Persistence") with false.
    rewrite andb_true_r, andb_false_r.
    destruct (Float64.ltb _ Float64.c0_5); split; reflexivity.
  - destruct (String.eqb_spec category "Persistence") as [->|Hpers].
    + destruct (categoryMaxScores !! "Persistence") as [m|]; [|split; reflexivity].
      destruct (m =? 0); [split; reflexivity|]. cbn [negb andb].
      change (String.eqb "Persistence" "Architecture") with false.
      change (String.eqb "Persistence" "Persistence") with true.
      rewrite andb_true_r, andb_false_r.
      destruct (Float64.ltb _ Float64.c0_6); split; reflexivity.
    + destruct (categoryMaxScores !! category) as [m|]; [|split; reflexivity].
      destruct (m =? 0); [split; reflexivity|].
      rewrite !andb_false_r. split; reflexivity.
Qed.

(** The category loop over the entries of a map, up to order. *)
Lemma category_loop_entries categoryMaxScores categoryScores :
  flat_map (Scoring.emittedRecommendations categoryMaxScores) (map_to_list categoryScores)
    ≡ₚ categoryRecommendations categoryScores categoryMaxScores /\
  flat_map (Scoring.emittedRisks categoryMaxScores) (map_to_list categoryScores)
    ≡ₚ categoryRisks categoryScores categoryMaxScores.
Proof.
  unfold categoryRecommendations, categoryRisks.
  induction categoryScores as [|category score m Hfresh IH] using map_ind.
  - rewrite map_to_list_empty, !lookup_empty. split; reflexivity.
  - destruct IH as [IHrec IHrisk].
    rewrite map_to_list_insert by assumption. cbn [flat_map].
    rewrite IHrec, IHrisk.
    destruct (emitted_by_category categoryMaxScores category score) as [-> ->].
    destruct (String.eqb_spec category "Architecture") as [->|Harch].
    + rewrite lookup_insert_eq, Hfresh, lookup_insert_ne by discriminate.
      split; reflexivity.
    + destruct (String.eqb_spec category "Persistence") as [->|Hpers].
      * rewrite lookup_insert_eq, Hfresh, lookup_insert_ne by discriminate.
        split; rewrite app_nil_r; apply Permutation_app_comm.
      * rewrite !lookup_insert_ne by congruence. split; reflexivity.
Qed.

(** X6. Up to order, the recommendations and risks of a report do not
    depend on the order in which the runtime visits the category scores:
    they are the overall entry (and the Deployment risk in the High tier)
    plus what the "Architecture" and "Persistence" rules give for the
    scores of those two categories.  A report has at most three
    recommendations and three risks. *)
Theorem report_entries_up_to_order (now : string) (range : MapRange)
    (assessment : Assessment.t) (questions : list Question.t) :
  fair range ->
  let sc := Scoring.calculateScores questions (Assessment.Answers assessment) in
  let ratio := Float64.ratio (Scoring.totalScore sc) (Scoring.maxScore sc) in
  exists report,
    Scoring.generateReport now range assessment questions = Ok report /\
    Report.Recommendations report ≡ₚ
      (if Float64.ltb ratio Float64.c0_5 then Scoring.generalHigh
       else if Float64.ltb ratio Float64.c0_7 then Scoring.generalMedium
       else Scoring.generalLow) ::
      categoryRecommendations (Scoring.categoryScores sc) (Scoring.categoryMaxScores sc) /\
    Report.Risks report ≡ₚ
      (if Float64.ltb ratio Float64.c0_5 then [Scoring.deploymentRisk] else []) ++
      categoryRisks (Scoring.categoryScores sc) (Scoring.categoryMaxScores sc) /\
    (length (Report.Recommendations report) <= 3)%nat /\
    (length (Report.Risks report) <= 3)%nat.
Proof.
  intros Hfair sc ratio.
  destruct (generateReport_shape now range assessment questions)
    as (report & Hreport & _ & _ & _ & _ & Hrec & Hrisk & _).
  fold sc ratio in Hrec, Hrisk.
  destruct (category_loop_entries (Scoring.categoryMaxScores sc) (Scoring.categoryScores sc))
    as [Hprec Hprisk].
  assert (Hrec' : Report.Recommendations report ≡ₚ
    (if Float64.ltb ratio Float64.c0_5 then Scoring.generalHigh
     else if Float64.ltb ratio Float64.c0_7 then Scoring.generalMedium
     else Scoring.generalLow) ::
    categoryRecommendations (Scoring.categoryScores sc) (Scoring.categoryMaxScores sc)).
  { rewrite Hrec. constructor. rewrite <- Hprec.
    apply Permutation_flat_map, Hfair. }
  assert (Hrisk' : Report.Risks report ≡ₚ
    (if Float64.ltb ratio Float64.c0_5 then [Scoring.deploymentRisk] else []) ++
    categoryRisks (Scoring.categoryScores sc) (Scoring.categoryMaxScores sc)).
  { rewrite Hrisk. apply Permutation_app_head. rewrite <- Hprisk.
    apply Permutation_flat_map, Hfair. }
  exists report. split; [exact Hreport|]. split; [exact Hrec'|]. split; [exact Hrisk'|].
  rewrite (Permutation_length Hrec'), (Permutation_length Hrisk').
  unfold categoryRecommendations, categoryRisks.
  rewrite length_app. cbn [length]. rewrite !length_app.
  split.
  - destruct (Scoring.categoryScores sc !! "Architecture") as [s1|];
      [destruct (ruleFires _ "Architecture" s1 _)|];
      (destruct (Scoring.categoryScores sc !! "Persistence") as [s2|];
        [destruct (ruleFires _ "Persistence" s2 _)|]); cbn [length]; lia.
  - destruct (Float64.ltb ratio Float64.c0_5);
      (destruct (Scoring.categoryScores sc !! "Architecture") as [s1|];
        [destruct (ruleFires _ "Architecture" s1 _)|]);
      (destruct (Scoring.categoryScores sc !! "Persistence") as [s2|];
        [destruct (ruleFires _ "Persistence" s2 _)|]); cbn [length]; lia.
Qed.

(** The installed questions with two weak answers, visited last to first. *)
Lemma report_entries_up_to_order_witness :
  exists report,
    Scoring.generateReport "2024-01-01T00:00:00Z" (fun m => reverse (map_to_list m))
      (Samples.assessment {[ "q1" := "q1_a3"; "q4" := "q4_a3" ]} "in_progress")
      Samples.sampleQuestions = Ok report /\
    (length (Report.Recommendations report) <= 3)%nat /\
    (length (Report.Risks report) <= 3)%nat.
Proof.
  destruct (report_entries_up_to_order "2024-01-01T00:00:00Z"
              (fun m => reverse (map_to_list m))
              (Samples.assessment {[ "q1" := "q1_a3"; "q4" := "q4_a3" ]} "in_progress")
              Samples.sampleQuestions)
    as (report & Hreport & _ & _ & Hrec & Hrisk).
  - intros m. apply reverse_Permutation.
  - exists report. auto.
Defined.

Lemma general_not_emitted categoryMaxScores (entries : list (string * Z))
    (r : Recommendation.t) :
  Recommendation.Category r = "General" ->
  r ∉ flat_map (Scoring.emittedRecommendations categoryMaxScores) entries.
Proof.
  intros Hg Hin. destruct (emitted_categories categoryMaxScores entries) as [H _].
  rewrite Forall_forall in H. destruct (H r Hin) as [Hc|Hc]; rewrite Hg in Hc; discriminate.
Qed.

(** X7. The plan and the overall recommendation of a report always belong
    to the same tier: the plan has 8 steps exactly when the report holds
    the High recommendation (and exactly when it holds the Deployment
    risk), 7 steps exactly for Medium and 5 steps exactly for Low. *)
Theorem plan_matches_recommendation (now : string) (range : MapRange)
    (assessment : Assessment.t) (questions : list Question.t) :
  exists report,
    Scoring.generateReport now range assessment questions = Ok report /\
    (Scoring.generalHigh ∈ Report.Recommendations report <->
       length (Report.ModernizationPlan report) = 8%nat) /\
    (Scoring.deploymentRisk ∈ Report.Risks report <->
       length (Report.ModernizationPlan report) = 8%nat) /\
    (Scoring.generalMedium ∈ Report.Recommendations report <->
       length (Report.ModernizationPlan report) = 7%nat) /\
    (Scoring.generalLow ∈ Report.Recommendations report <->
       length (Report.ModernizationPlan report) = 5%nat).
Proof.
  destruct (generateReport_shape now range assessment questions)
    as (report & Hreport & _ & _ & _ & _ & Hrec & Hrisk & Hplan).
  exists report. split; [exact Hreport|].
  set (sc := Scoring.calculateScores questions (Assessment.Answers assessment)) in *.
  destruct (plan_shape (Scoring.totalScore sc) (Scoring.maxScore sc)) as (_ & Hlen & _).
  rewrite Hplan, Hlen, Hrec, Hrisk. clear Hplan Hlen Hrec Hrisk.
  set (ratio := Float64.ratio _ _).
  set (entries := range (Scoring.categoryScores sc)).
  pose proof (general_not_emitted (Scoring.categoryMaxScores sc) entries) as Hgen.
  pose proof (no_deployment_emitted (Scoring.categoryMaxScores sc) entries
                Scoring.deploymentRisk) as Hdep.
  rewrite !elem_of_cons.
  destruct (Float64.ltb ratio Float64.c0_5);
    [|destruct (Float64.ltb ratio Float64.c0_7)]; cbn [app];
    rewrite ?elem_of_cons;
    repeat split; intros H; try reflexivity; try discriminate;
    try (now left);
    try (destruct H as [H|H]; [discriminate|]);
    try (now apply Hgen in H);
    try (now apply Hdep in H).
Qed.

Lemma exact_total_unanswered (questions : list Question.t) (answers : gmap string string) :
  (forall question, question ∈ questions -> pickedOption answers question = None) ->
  Exact.total questions answers = 0.
Proof.
  induction questions as [|q questions IH]; intros H; simpl; [reflexivity|].
  rewrite IH by (intros q' Hq'; apply H; now apply list_elem_of_further).
  specialize (H q (list_elem_of_here _ _)). unfold pickedOption in H. unfold Exact.score.
  destruct (answers !! Question.ID q); [now rewrite H|reflexivity].
Qed.

(** X8. When no answer of the assessment names an option of its question
    (in particular when there are no answers), the total is 0 and no
    category has a score; the report then consists of the overall entries
    alone: the High recommendation, the Deployment risk and the 8-step plan
    when [maxPossible] is not 0, the Low recommendation, no risk and the
    5-step plan when it is 0. *)
Theorem unanswered_report (now : string) (range : MapRange)
    (assessment : Assessment.t) (questions : list Question.t) :
  fair range ->
  (forall question, question ∈ questions ->
     pickedOption (Assessment.Answers assessment) question = None) ->
  exists report,
    Scoring.generateReport now range assessment questions = Ok report /\
    Report.TotalScore report = 0 /\
    Report.CategoryScores report = ∅ /\
    (Report.MaxPossibleScore report <> 0 ->
       Report.Recommendations report = [Scoring.generalHigh] /\
       Report.Risks report = [Scoring.deploymentRisk] /\
       length (Report.ModernizationPlan report) = 8%nat) /\
    (Report.MaxPossibleScore report = 0 ->
       Report.Recommendations report = [Scoring.generalLow] /\
       Report.Risks report = [] /\
       length (Report.ModernizationPlan report) = 5%nat).
Proof.
  intros Hfair Hnone.
  destruct (generateReport_shape now range assessment questions)
    as (report & Hreport & _ & Ht & Hm & Hcat & Hrec & Hrisk & Hplan).
  set (sc := Scoring.calculateScores questions (Assessment.Answers assessment)) in *.
  destruct (plan_shape (Scoring.totalScore sc) (Scoring.maxScore sc)) as (_ & Hlen & _).
  assert (Htotal : Scoring.totalScore sc = 0).
  { unfold sc. rewrite (proj1 (calculateScores_exact _ _)).
    now rewrite exact_total_unanswered. }
  assert (Hempty : Scoring.categoryScores sc = ∅).
  { apply map_empty. intros category. apply eq_None_not_Some. intros Hsome.
    destruct (scoring_loop_categories questions (Assessment.Answers assessment)
                (Scoring.mkScores 0 0 ∅ ∅) category) as [Hs _].
    apply Hs in Hsome. cbn [Scoring.categoryScores] in Hsome.
    rewrite lookup_empty in Hsome.
    destruct Hsome as [H|(q & Hq & _ & Hp)]; [destruct (is_Some_None H)|].
    rewrite (Hnone q Hq) in Hp. destruct (is_Some_None Hp). }
  assert (Hrange : range (Scoring.categoryScores sc) = []).
  { apply Permutation_nil_r. rewrite (Hfair _), Hempty. now rewrite map_to_list_empty. }
  assert (Hin : GoInt.in_range (Scoring.maxScore sc)).
  { unfold sc. rewrite (proj2 (calculateScores_exact _ _)). apply wrap_in_range. }
  exists report. rewrite Ht, Hm, Hcat, Hrec, Hrisk, Hplan, Hlen, Hrange, Htotal.
  cbn [flat_map app]. rewrite app_nil_r.
  split; [exact Hreport|]. split; [reflexivity|]. split; [exact Hempty|]. split.
  - intros Hnz. rewrite (ratio_zero_numerator _ Hnz Hin).
    destruct (zero_below_thresholds (Scoring.maxScore sc <? 0)) as [-> _].
    repeat split.
  - intros ->.
    change (Float64.ltb (Float64.ratio 0 0) Float64.c0_5) with false.
    change (Float64.ltb (Float64.ratio 0 0) Float64.c0_7) with false.
    repeat split.
Qed.

(** Scenario B, for any clock: the sample catalog without answers. *)
Lemma unanswered_report_witness :
  exists report,
    Scoring.generateReport "2024-01-01T00:00:00Z" map_to_list
      (Samples.assessment ∅ "in_progress") Samples.catalog = Ok report /\
    Report.Recommendations report = [Scoring.generalHigh] /\
    Report.Risks report = [Scoring.deploymentRisk].
Proof.
  destruct (unanswered_report "2024-01-01T00:00:00Z" map_to_list
              (Samples.assessment ∅ "in_progress") Samples.catalog)
    as (report & Hreport & _ & _ & Hhigh & _).
  - intros m. reflexivity.
  - intros q _. reflexivity.
  - exists report. split; [exact Hreport|].
    destruct Hhigh as (H1 & H2 & _); [|auto].
    injection Hreport as <-. vm_compute. discriminate.
Defined.

End ReportMore.

(** ** More on the file storage *)
Section StorageMore.

Implicit Types (s : FileStorage.t) (assessment : Assessment.t) (report : Report.t).

(** X10. [UpdateAssessment] never creates or removes an assessment file
    and touches no other file: the stored identifiers, the other
    assessments, the applications, the questions and the reports are the
    same afterwards, whatever the outcome.  A missing file gives
    "assessment not found" and leaves the store as it is.  When the write
    fails, the store is as before if the file could not be opened, the
    file can no longer be read if the write broke off, and it holds the
    new assessment if only closing it failed.  [CreateAssessment] instead
    writes the file whether or not one exists, replacing an assessment of
    the same ID.  (The ID the assessment holds is a single path element,
    so that its file is in the assessments directory.) *)
Theorem update_never_creates s s' assessment (outcome : result unit) :
  FileStorage.plain (Assessment.ID assessment) = true ->
  (UpdateAssessment assessment s = (s', outcome) ->
     dom (FileStorage.assessments s') = dom (FileStorage.assessments s) /\
     (forall other, other <> Assessment.ID assessment ->
        FileStorage.assessments s' !! other = FileStorage.assessments s !! other) /\
     FileStorage.applications s' = FileStorage.applications s /\
     FileStorage.questions s' = FileStorage.questions s /\
     FileStorage.reports s' = FileStorage.reports s /\
     (FileStorage.assessments s !! Assessment.ID assessment = None ->
        outcome = Err ("assessment not found: " ++ Assessment.ID assessment)%string /\
        s' = s) /\
     (forall msg, outcome = Err msg ->
        is_Some (FileStorage.assessments s !! Assessment.ID assessment) ->
        exists fault,
          FileStorage.writeFaults s
            !! FileStorage.path "assessments" (Assessment.ID assessment) = Some fault /\
          (FileStorage.leaves fault = FileStorage.Untouched -> s' = s) /\
          (FileStorage.leaves fault = FileStorage.Truncated ->
             exists e, GetAssessment (Assessment.ID assessment) s' = (s', Err e)) /\
          (FileStorage.leaves fault = FileStorage.Written ->
             FileStorage.assessments s' !! Assessment.ID assessment = Some assessment))) /\
  (CreateAssessment assessment s = (s', Ok tt) ->
     FileStorage.assessments s' =
       <[Assessment.ID assessment := assessment]> (FileStorage.assessments s)).
Proof.
  intros _.
  cbn [CreateAssessment UpdateAssessment GetAssessment FileStorage.storage].
  unfold FileStorage.CreateAssessment, FileStorage.UpdateAssessment.
  split.
  - destruct (FileStorage.assessments s !! Assessment.ID assessment) as [old|] eqn:Hold.
    2:{ intros [= <- <-]. repeat split; try reflexivity.
        intros msg _ Hsome. destruct (is_Some_None Hsome). }
    assert (Hdom : dom (<[Assessment.ID assessment := assessment]>
                          (FileStorage.assessments s)) =
                   dom (FileStorage.assessments s)).
    { rewrite dom_insert_L. apply elem_of_dom_2 in Hold.
      now apply subseteq_union_1_L, singleton_subseteq_l. }
    destruct (writeFile_cases "assessment" "assessments" (Assessment.ID assessment)
                (FileStorage.putAssessment assessment) s)
      as [[Hw ->]|(fault & Hfault & ->)]; intros [= <- <-].
    + split; [exact Hdom|]. split; [intros other Hne; now apply lookup_insert_ne|].
      repeat split; discriminate.
    + split; [destruct (FileStorage.leaves fault); [reflexivity|exact Hdom..]|].
      split.
      { intros other Hne. destruct (FileStorage.leaves fault); [reflexivity|..];
          now apply lookup_insert_ne. }
      split; [now destruct (FileStorage.leaves fault)|].
      split; [now destruct (FileStorage.leaves fault)|].
      split; [now destruct (FileStorage.leaves fault)|].
      split; [discriminate|].
      intros msg _ _. exists fault. split; [exact Hfault|].
      split; [|split]; intros ->.
      * reflexivity.
      * unfold FileStorage.GetAssessment, FileStorage.readFile.
        cbn [FileStorage.truncated FileStorage.putAssessment FileStorage.readFaults
             FileStorage.assessments].
        rewrite lookup_insert_eq.
        destruct (undecodable_self
                    (FileStorage.path "assessments" (Assessment.ID assessment))
                    (FileStorage.decodable
                       (FileStorage.path "assessments" (Assessment.ID assessment))
                       (FileStorage.readFaults s))) as [[text|text] ->]; eauto.
      * cbn. apply lookup_insert_eq.
  - intros H. now apply writeFile_ok in H as [-> _].
Qed.

(** Updating an assessment the sample store does not have. *)
Lemma update_never_creates_witness :
  let s := Samples.store "in_progress" ∅ in
  let other := Assessment.mk "a2" "app1" "2024-01-01T00:00:00Z" ∅ false "in_progress" in
  UpdateAssessment other s = (s, Err "assessment not found: a2") /\
  dom (FileStorage.assessments s) = dom (FileStorage.assessments s).
Proof.
  intros s other.
  destruct (proj1 (update_never_creates s s other (Err "assessment not found: a2")
                     eq_refl))
    as (Hdom & _).
  - vm_compute; reflexivity.
  - split; [|exact Hdom]. vm_compute; reflexivity.
Defined.

Lemma elem_of_readDir {A} (files : gmap string A) (name : string) (a : A) :
  (name, a) ∈ FileStorage.readDir files <-> files !! name = Some a.
Proof.
  unfold FileStorage.readDir. rewrite merge_sort_Permutation.
  apply elem_of_map_to_list.
Qed.

Lemma length_readDir {A} (files : gmap string A) :
  length (FileStorage.readDir files) = size files.
Proof.
  unfold FileStorage.readDir. rewrite merge_sort_Permutation.
  apply length_map_to_list.
Qed.

(** The loop of [ListAssessments], by outcome. *)
Lemma readAssessments_outcome s (applicationID : string)
    (files : list (string * Assessment.t)) (acc : list Assessment.t) :
  match FileStorage.readAssessments s applicationID files acc with
  | Ok l =>
      (forall name a, (name, a) ∈ files ->
         FileStorage.path "assessments" name ∉ FileStorage.unreadable s) /\
      exists kept,
        l = acc ++ kept /\
        (length kept <= length files)%nat /\
        forall a, a ∈ kept <->
          exists name, (name, a) ∈ files /\
            (applicationID = "" \/ Assessment.ApplicationID a = applicationID)
  | Err _ =>
      exists name a, (name, a) ∈ files /\
        FileStorage.path "assessments" name ∈ FileStorage.unreadable s
  end.
Proof.
  revert acc. induction files as [|[name a] files IH]; intros acc; cbn [FileStorage.readAssessments].
  - split; [intros ? ? H; inversion H|]. exists []. rewrite app_nil_r.
    split; [reflexivity|]. split; [reflexivity|].
    intros a. split; [intros H; inversion H|intros (? & H & _); inversion H].
  - destruct (FileStorage.readFaults s !! FileStorage.path "assessments" name)
      as [fault|] eqn:Hfault.
    { assert (Hbad : FileStorage.path "assessments" name ∈ FileStorage.unreadable s)
        by now apply elem_of_dom_2 in Hfault.
      destruct fault; exists name, a; (split; [apply list_elem_of_here|exact Hbad]). }
    assert (Hgood : FileStorage.path "assessments" name ∉ FileStorage.unreadable s)
      by now apply unreadable_spec.
    assert (Hkeep : String.eqb applicationID ""
                    || String.eqb (Assessment.ApplicationID a) applicationID = true <->
                    applicationID = "" \/ Assessment.ApplicationID a = applicationID).
    { rewrite orb_true_iff, !String.eqb_eq. reflexivity. }
    destruct (String.eqb applicationID ""
              || String.eqb (Assessment.ApplicationID a) applicationID) eqn:Hk.
    + specialize (IH (acc ++ [a])).
      destruct (FileStorage.readAssessments s applicationID files (acc ++ [a])) as [l|msg].
      * destruct IH as (Hall & kept & -> & Hlen & Hkept). split.
        { intros n a' [[= -> ->]|H]%elem_of_cons; [exact Hgood|eauto]. }
        exists (a :: kept). rewrite <- app_assoc. split; [reflexivity|].
        split; [cbn [length]; lia|].
        intros a'. rewrite elem_of_cons, Hkept. split.
        -- intros [->|(n & Hn & Hc)].
           ++ exists name. split; [apply list_elem_of_here|now apply Hkeep].
           ++ exists n. split; [now apply list_elem_of_further|exact Hc].
        -- intros (n & [[= -> ->]|Hn]%elem_of_cons & Hc); [now left|right; eauto].
      * destruct IH as (n & a' & Hn & Hbad). exists n, a'.
        split; [now apply list_elem_of_further|exact Hbad].
    + specialize (IH acc).
      destruct (FileStorage.readAssessments s applicationID files acc) as [l|msg].
      * destruct IH as (Hall & kept & -> & Hlen & Hkept). split.
        { intros n a' [[= -> ->]|H]%elem_of_cons; [exact Hgood|eauto]. }
        exists kept. split; [reflexivity|]. split; [cbn [length]; lia|].
        intros a'. rewrite Hkept. split.
        -- intros (n & Hn & Hc). exists n. split; [now apply list_elem_of_further|exact Hc].
        -- intros (n & [[= -> ->]|Hn]%elem_of_cons & Hc); [|eauto].
           apply Hkeep in Hc. congruence.
      * destruct IH as (n & a' & Hn & Hbad). exists n, a'.
        split; [now apply list_elem_of_further|exact Hbad].
Qed.

(** X11. [ListAssessments] fails exactly when the directory or the file
    of some stored assessment (of any application) cannot be read.  When
    it succeeds it leaves the store unchanged and returns exactly the
    stored assessments of the application, or all stored assessments for
    the empty application identifier, and never more entries than there
    are files. *)
Theorem ListAssessments_lists s (applicationID : string) :
  ((exists l, FileStorage.ListAssessments applicationID s = (s, Ok l)) <->
     ("assessments" ∉ FileStorage.unreadable s) /\
     forall id a, FileStorage.assessments s !! id = Some a ->
       FileStorage.path "assessments" id ∉ FileStorage.unreadable s) /\
  (forall s' l, FileStorage.ListAssessments applicationID s = (s', Ok l) ->
     s' = s /\
     (length l <= size (FileStorage.assessments s))%nat /\
     forall a, a ∈ l <->
       exists id, FileStorage.assessments s !! id = Some a /\
         (applicationID = "" \/ Assessment.ApplicationID a = applicationID)).
Proof.
  unfold FileStorage.ListAssessments.
  pose proof (readAssessments_outcome s applicationID
                (FileStorage.readDir (FileStorage.assessments s)) []) as Hloop.
  destruct (FileStorage.readFaults s !! "assessments") as [fault|] eqn:Hdir.
  { apply elem_of_dom_2 in Hdir. fold (FileStorage.unreadable s) in Hdir.
    split; [|intros ? ? [=]]. split; [intros [l [=]]|intros [H _]; contradiction]. }
  apply unreadable_spec in Hdir.
  destruct (FileStorage.readAssessments s applicationID
              (FileStorage.readDir (FileStorage.assessments s)) []) as [l|msg].
  - destruct Hloop as (Hall & kept & -> & Hlen & Hkept). cbn [app] in *. split.
    + split; [|eauto]. intros _. split; [exact Hdir|].
      intros id a Hid. apply (Hall id a). now apply elem_of_readDir.
    + intros s' l [= <- <-]. split; [reflexivity|].
      split; [now rewrite <- length_readDir|].
      intros a. rewrite Hkept. split; intros (id & Hid & Hc); exists id;
        (split; [now apply elem_of_readDir|exact Hc]).
  - destruct Hloop as (name & a & Hin & Hbad). split; [|intros ? ? [=]].
    split; [intros [l [=]]|]. intros [_ Hall]. exfalso.
    apply (Hall name a); [now apply elem_of_readDir|exact Hbad].
Qed.

(** The assessments of "app1" in the sample store. *)
Lemma ListAssessments_lists_witness :
  let s := Samples.store "in_progress" ∅ in
  Samples.assessment ∅ "in_progress" ∈
    match (FileStorage.ListAssessments "app1" s).2 with Ok l => l | Err _ => [] end.
Proof.
  intros s.
  destruct (proj2 (ListAssessments_lists s "app1") s [Samples.assessment ∅ "in_progress"])
    as (_ & _ & Hin).
  - vm_compute; reflexivity.
  - replace (FileStorage.ListAssessments "app1" s).2
      with (@Ok (list Assessment.t) [Samples.assessment ∅ "in_progress"])
      by (vm_compute; reflexivity).
    apply Hin. exists "a1". split; [vm_compute; reflexivity|now right].
Defined.

End StorageMore.

(** ** More on the assessment service *)
Section ServiceMore.

Implicit Types (s : FileStorage.t) (assessment : Assessment.t) (report : Report.t).
Implicit Types (assessmentID questionID optionID applicationID : string).

Lemma sameButAssessment_refl (id : string) s : sameButAssessment id s s.
Proof. repeat split. Qed.

Lemma sameButAssessment_put (id : string) assessment s :
  Assessment.ID assessment = id ->
  sameButAssessment id s (FileStorage.putAssessment assessment s) /\
  sameButAssessment id s
    (FileStorage.truncated (FileStorage.path "assessments" id)
       (FileStorage.putAssessment assessment s)).
Proof.
  intros <-. split; repeat split; intros other Hne; cbn; now apply lookup_insert_ne.
Qed.

(** What a failed [UpdateAssessment] leaves. *)
Lemma UpdateAssessment_err s assessment s' (msg : string) :
  UpdateAssessment assessment s = (s', Err msg) ->
  s' = s \/
  exists fault,
    FileStorage.writeFaults s
      !! FileStorage.path "assessments" (Assessment.ID assessment) = Some fault /\
    FileStorage.leaves fault <> FileStorage.Untouched /\
    msg = ("failed to write assessment file: " ++ FileStorage.text fault)%string /\
    is_Some (FileStorage.assessments s !! Assessment.ID assessment) /\
    (s' = FileStorage.putAssessment assessment s \/
     s' = FileStorage.truncated (FileStorage.path "assessments" (Assessment.ID assessment))
            (FileStorage.putAssessment assessment s)).
Proof.
  cbn [UpdateAssessment FileStorage.storage]. unfold FileStorage.UpdateAssessment.
  destruct (FileStorage.assessments s !! Assessment.ID assessment) as [old|];
    [|intros [= <-]; now left].
  destruct (writeFile_cases "assessment" "assessments" (Assessment.ID assessment)
              (FileStorage.putAssessment assessment) s)
    as [[Hw ->]|(fault & Hfault & ->)]; [discriminate|].
  intros [= <- <-].
  destruct (FileStorage.leaves fault) eqn:Hleaves; [now left|right..];
    exists fault; rewrite Hleaves; repeat split; eauto; discriminate.
Qed.

Lemma GetAssessment_inv s assessmentID s' assessment :
  GetAssessment assessmentID s = (s', Ok (Some assessment)) ->
  s' = s /\ Some assessment = FileStorage.assessments s !! assessmentID /\
  FileStorage.path "assessments" assessmentID ∉ FileStorage.unreadable s.
Proof.
  cbn [GetAssessment FileStorage.storage]. unfold FileStorage.GetAssessment.
  intros H. apply readFile_found in H as (-> & -> & Hreadable). auto.
Qed.

Lemma SaveAnswer_ok_inv s assessmentID questionID optionID s' :
  services.SaveAnswer assessmentID questionID optionID s = (s', Returns (Ok tt)) ->
  exists assessment question,
    GetAssessment assessmentID s = (s, Ok (Some assessment)) /\
    GetQuestion questionID s = (s, Ok (Some question)) /\
    services.optionValid (Question.Options question) optionID = true /\
    Assessment.AnswersNil assessment = false /\
    UpdateAssessment (Assessment.setAnswer questionID optionID assessment) s = (s', Ok tt) /\
    s' = FileStorage.putAssessment (Assessment.setAnswer questionID optionID assessment) s.
Proof.
  rewrite SaveAnswer_steps.
  destruct (GetAssessment assessmentID s) as [s1 [[assessment|]|e1]] eqn:Hget;
    [|discriminate..].
  destruct (GetAssessment_inv _ _ _ _ Hget) as (-> & _ & _).
  destruct (GetQuestion questionID s) as [s2 [[question|]|e2]] eqn:Hq; [|discriminate..].
  assert (s2 = s).
  { revert Hq. cbn [GetQuestion FileStorage.storage]. unfold FileStorage.GetQuestion.
    intros Hq. now apply readFile_found in Hq as (-> & _). }
  subst s2.
  destruct (services.optionValid _ _) eqn:Hvalid; [|discriminate].
  destruct (Assessment.AnswersNil assessment) eqn:Hnil; [discriminate|].
  destruct (UpdateAssessment _ s) as [s'' [[]|e3]] eqn:Hupd; [|discriminate].
  intros [= <-]. exists assessment, question.
  repeat split; try assumption. now apply UpdateAssessment_ok.
Qed.

(** What [SaveAnswer] leaves when it does not succeed. *)
Lemma SaveAnswer_panic_inv s assessmentID questionID optionID s' (msg : string) :
  services.SaveAnswer assessmentID questionID optionID s = (s', Panics msg) -> s' = s.
Proof.
  rewrite SaveAnswer_steps.
  destruct (GetAssessment assessmentID s) as [s1 [[assessment|]|e1]]; [|discriminate..].
  destruct (GetQuestion questionID s) as [s2 [[question|]|e2]]; [|discriminate..].
  destruct (services.optionValid _ _); [|discriminate].
  destruct (Assessment.AnswersNil assessment); [now intros [= <-]|].
  destruct (UpdateAssessment _ s) as [s'' [[]|e3]]; discriminate.
Qed.

Lemma SaveAnswer_err_inv s assessmentID questionID optionID s' (msg : string) :
  services.SaveAnswer assessmentID questionID optionID s = (s', Returns (Err msg)) ->
  s' = s \/
  exists assessment fault,
    FileStorage.assessments s !! assessmentID = Some assessment /\
    FileStorage.writeFaults s
      !! FileStorage.path "assessments" (Assessment.ID assessment) = Some fault /\
    FileStorage.leaves fault <> FileStorage.Untouched /\
    msg = ("failed to update assessment: failed to write assessment file: " ++
           FileStorage.text fault)%string /\
    is_Some (FileStorage.assessments s !! Assessment.ID assessment) /\
    sameButAssessment (Assessment.ID assessment) s s' /\
    dom (FileStorage.assessments s') = dom (FileStorage.assessments s).
Proof.
  rewrite SaveAnswer_steps.
  destruct (GetAssessment assessmentID s) as [s1 [[assessment|]|e1]] eqn:Hget;
    [|intros [= <-]; now left..].
  destruct (GetQuestion questionID s) as [s2 [[question|]|e2]];
    [|intros [= <-]; now left..].
  destruct (services.optionValid _ _); [|intros [= <-]; now left].
  destruct (Assessment.AnswersNil assessment); [discriminate|].
  set (answered := Assessment.setAnswer questionID optionID assessment).
  assert (Hfound : FileStorage.assessments s !! assessmentID = Some assessment)
    by (apply GetAssessment_found; now rewrite Hget).
  destruct (UpdateAssessment answered s) as [s'' [[]|e3]] eqn:Hupd; [discriminate|].
  intros [= <- <-].
  apply UpdateAssessment_err in Hupd
    as [->|(fault & Hfault & Hleaves & -> & Hsome & Hs')]; [now left|right].
  change (Assessment.ID answered) with (Assessment.ID assessment) in *.
  assert (Hdom : dom (<[Assessment.ID assessment := answered]>
                        (FileStorage.assessments s)) =
                 dom (FileStorage.assessments s)).
  { rewrite dom_insert_L. destruct Hsome as [old Hold]. apply elem_of_dom_2 in Hold.
    now apply subseteq_union_1_L, singleton_subseteq_l. }
  destruct (sameButAssessment_put (Assessment.ID assessment) answered s eq_refl)
    as [Hput Htrunc].
  exists assessment, fault. destruct Hs' as [-> | ->];
    (split; [exact Hfound|split; [exact Hfault|split; [exact Hleaves|
     split; [reflexivity|split; [exact Hsome|split; [assumption|exact Hdom]]]]]]).
Qed.

(** X12. [SaveAnswer] writes at most once, last: a panic and every error
    but the one of that write leave the store exactly as it was, and so
    does the error of the write when the file could not be opened.
    Whatever the outcome, the applications, the questions and the reports
    are unchanged and no assessment file is created or removed; when the
    write fails after opening the file, the file of the assessment read
    is the only one that differs.  (The ID the stored assessment holds is
    a single path element, so that the file written is in the assessments
    directory.) *)
Theorem SaveAnswer_all_or_nothing s assessmentID questionID optionID s' (outcome : run unit) :
  (forall assessment,
     FileStorage.assessments s !! assessmentID = Some assessment ->
     FileStorage.plain (Assessment.ID assessment) = true) ->
  services.SaveAnswer assessmentID questionID optionID s = (s', outcome) ->
  FileStorage.applications s' = FileStorage.applications s /\
  FileStorage.questions s' = FileStorage.questions s /\
  FileStorage.reports s' = FileStorage.reports s /\
  dom (FileStorage.assessments s') = dom (FileStorage.assessments s) /\
  (forall msg, outcome = Panics msg -> s' = s) /\
  (forall msg, outcome = Returns (Err msg) ->
     s' = s \/
     exists assessment fault,
       FileStorage.assessments s !! assessmentID = Some assessment /\
       FileStorage.writeFaults s
         !! FileStorage.path "assessments" (Assessment.ID assessment) = Some fault /\
       FileStorage.leaves fault <> FileStorage.Untouched /\
       msg = ("failed to update assessment: failed to write assessment file: " ++
              FileStorage.text fault)%string /\
       sameButAssessment (Assessment.ID assessment) s s').
Proof.
  intros _ H. destruct outcome as [[[]|msg]|msg].
  - apply SaveAnswer_ok_inv in H as (a & q & _ & _ & _ & _ & Hupd & ->).
    assert (Hsome : is_Some (FileStorage.assessments s !! Assessment.ID a)).
    { revert Hupd. cbn [UpdateAssessment FileStorage.storage].
      unfold FileStorage.UpdateAssessment.
      change (Assessment.ID (Assessment.setAnswer questionID optionID a))
        with (Assessment.ID a).
      destruct (FileStorage.assessments s !! Assessment.ID a); [eauto|discriminate]. }
    cbn [FileStorage.putAssessment FileStorage.questions FileStorage.reports
         FileStorage.applications FileStorage.assessments Assessment.setAnswer
         Assessment.ID].
    repeat split; try discriminate. rewrite dom_insert_L. destruct Hsome as [old Hold].
    apply elem_of_dom_2 in Hold. now apply subseteq_union_1_L, singleton_subseteq_l.
  - apply SaveAnswer_err_inv in H
      as [->|(a & fault & Ha & Hfault & Hleaves & -> & _ & Hsame & Hdom)].
    + repeat split; auto; discriminate.
    + destruct Hsame as (Happ & Hq & Hr & Hother).
      repeat split; try assumption; try discriminate.
      intros msg [= <-]. right. exists a, fault. repeat split; assumption.
  - apply SaveAnswer_panic_inv in H as ->. repeat split; auto; discriminate.
Qed.

(** An option the sample question does not have: nothing changes. *)
Lemma SaveAnswer_all_or_nothing_witness :
  let s := Samples.store "in_progress" ∅ in
  (services.SaveAnswer "a1" "q1" "o9" s).1 = s.
Proof.
  intros s.
  assert (Hplain : forall assessment,
            FileStorage.assessments s !! "a1" = Some assessment ->
            FileStorage.plain (Assessment.ID assessment) = true).
  { intros a. unfold s, Samples.store. cbn [FileStorage.assessments].
    intros [_ <-]%lookup_singleton_Some. reflexivity. }
  destruct (SaveAnswer_all_or_nothing s "a1" "q1" "o9" _
              (Returns (Err "option not found for question")) Hplain
              ltac:(vm_compute; reflexivity))
    as (_ & _ & _ & _ & _ & Herr).
  destruct (Herr "option not found for question" eq_refl)
    as [H|(a & fault & _ & Hfault & _)]; [exact H|].
  vm_compute in Hfault. discriminate.
Defined.

(** [StartAssessment] on the file storage, call by call. *)
Lemma StartAssessment_steps (now newUUID : string) s applicationID :
  let assessment := Assessment.mk newUUID applicationID now ∅ false "in_progress" in
  services.StartAssessment now newUUID applicationID s =
  match GetApplication applicationID s with
  | (_, Err e) => (s, Err ("failed to find application: " ++ e)%string)
  | (_, Ok None) => (s, Err "application not found")
  | (_, Ok (Some _)) =>
      match CreateAssessment assessment s with
      | (s', Ok _) => (s', Ok assessment)
      | (s', Err e) => (s', Err ("failed to create assessment: " ++ e)%string)
      end
  end.
Proof.
  intros assessment.
  unfold services.StartAssessment, mbind, M_bind, wrapError, notNil, mret, M_ret, fail.
  cbn [GetApplication CreateAssessment FileStorage.storage].
  unfold FileStorage.GetApplication.
  pose proof (readFile_state "application" "applications" applicationID
                (FileStorage.applications s !! applicationID) s) as H1.
  destruct (FileStorage.readFile "application" "applications" applicationID _ s)
    as [s1 [[app|]|e1]]; cbn [fst] in H1; subst s1; try reflexivity.
  fold assessment.
  destruct (FileStorage.CreateAssessment assessment s) as [s' [[]|e]]; reflexivity.
Qed.

(** X13. For an application identifier and a new identifier that are
    single path elements, [StartAssessment] succeeds exactly when the
    application file exists and can be read and the file of the new
    assessment can be written.  It then stores and returns an assessment
    with the new identifier, the application, the creation time, status
    "in_progress" and an allocated map without answers, replacing any
    assessment stored under that identifier.  When it fails the store is
    unchanged, unless the write failed after opening the file: then only
    the file of the new assessment differs. *)
Theorem StartAssessment_creates (now newUUID : string) s applicationID :
  FileStorage.plain applicationID = true ->
  FileStorage.plain newUUID = true ->
  let assessment := Assessment.mk newUUID applicationID now ∅ false "in_progress" in
  let outcome := services.StartAssessment now newUUID applicationID s in
  ((exists a, outcome.2 = Ok a) <->
     (FileStorage.path "applications" applicationID ∉ FileStorage.unreadable s) /\
     is_Some (FileStorage.applications s !! applicationID) /\
     (FileStorage.path "assessments" newUUID ∉ FileStorage.unwritable s)) /\
  (forall a, outcome.2 = Ok a ->
     a = assessment /\ outcome.1 = FileStorage.putAssessment assessment s /\
     FileStorage.assessments outcome.1 !! newUUID = Some assessment) /\
  (forall msg, outcome.2 = Err msg ->
     outcome.1 = s \/
     exists fault,
       FileStorage.writeFaults s !! FileStorage.path "assessments" newUUID = Some fault /\
       FileStorage.leaves fault <> FileStorage.Untouched /\
       sameButAssessment newUUID s outcome.1).
Proof.
  intros _ _ assessment outcome. subst outcome. rewrite StartAssessment_steps.
  fold assessment.
  cbn [GetApplication CreateAssessment FileStorage.storage].
  unfold FileStorage.GetApplication, FileStorage.CreateAssessment.
  change (Assessment.ID assessment) with newUUID.
  destruct (FileStorage.readFile "application" "applications" applicationID
              (FileStorage.applications s !! applicationID) s)
    as [s1 [[app|]|e1]] eqn:Hread.
  - apply readFile_found in Hread as (-> & Happ & Hreadable).
    destruct (writeFile_cases "assessment" "assessments" newUUID
                (FileStorage.putAssessment assessment) s)
      as [[Hw ->]|(fault & Hfault & ->)]; cbn [fst snd].
    + split; [|split; [|intros ? [=]]].
      * split; [|eauto]. intros _. rewrite Happ. eauto.
      * intros a [= <-]. split; [reflexivity|]. split; [reflexivity|].
        cbn [FileStorage.putAssessment FileStorage.assessments]. apply lookup_insert_eq.
    + split; [|split; [intros ? [=]|]].
      * split; [intros [? [=]]|]. intros (_ & _ & Hw).
        apply elem_of_dom_2 in Hfault. contradiction.
      * intros msg _.
        destruct (sameButAssessment_put newUUID assessment s eq_refl) as [Hput Htrunc].
        destruct (FileStorage.leaves fault) eqn:Hleaves; [now left|right..];
          exists fault; rewrite Hleaves; (split; [exact Hfault|]);
          (split; [discriminate|assumption]).
  - apply readFile_not_found in Hread as (-> & Happ). cbn [fst snd].
    split; [|split; [intros ? [=]|auto]].
    split; [intros [? [=]]|]. intros (_ & H & _). rewrite Happ in H.
    destruct (is_Some_None H).
  - apply readFile_error in Hread as (-> & Hbad). cbn [fst snd].
    split; [|split; [intros ? [=]|auto]].
    split; [intros [? [=]]|]. intros (H & _). contradiction.
Qed.

(** Starting an assessment for "app1" in the seeded store. *)
Lemma StartAssessment_creates_witness :
  let outcome :=
    services.StartAssessment "2024-01-01T00:00:00Z" "a1" "app1" Samples.seeded in
  outcome.2 = Ok (Samples.assessment ∅ "in_progress") /\
  FileStorage.assessments outcome.1 !! "a1" = Some (Samples.assessment ∅ "in_progress").
Proof.
  intros outcome.
  destruct (proj1 (proj2 (StartAssessment_creates "2024-01-01T00:00:00Z" "a1"
                            Samples.seeded "app1" eq_refl eq_refl))
              (Samples.assessment ∅ "in_progress")) as (_ & _ & H).
  - vm_compute; reflexivity.
  - split; [vm_compute; reflexivity|exact H].
Defined.

Lemma GetQuestions_state s : (GetQuestions s).1 = s.
Proof.
  cbn [GetQuestions FileStorage.storage]. unfold FileStorage.GetQuestions.
  now destruct (FileStorage.readFaults s !! "questions").
Qed.

(** [GetQuestions] only looks at the questions directory. *)
Lemma GetQuestions_frame s s' :
  FileStorage.questions s' = FileStorage.questions s ->
  FileStorage.readFaults s' !! "questions" = FileStorage.readFaults s !! "questions" ->
  (forall name,
     FileStorage.readFaults s' !! FileStorage.path "questions" name =
     FileStorage.readFaults s !! FileStorage.path "questions" name) ->
  (GetQuestions s').2 = (GetQuestions s).2.
Proof.
  intros Hq Hdir Hfiles. cbn [GetQuestions FileStorage.storage].
  unfold FileStorage.GetQuestions. rewrite Hq, Hdir.
  assert (Hloop : forall files acc,
            FileStorage.readQuestions s' files acc = FileStorage.readQuestions s files acc).
  { induction files as [|[n q] files IH]; intros acc; cbn [FileStorage.readQuestions];
      [reflexivity|]. rewrite Hfiles.
    destruct (FileStorage.readFaults s !! FileStorage.path "questions" n) as [[t|t]|];
      [reflexivity..|apply IH]. }
  rewrite Hloop. now destruct (FileStorage.readFaults s !! "questions").
Qed.

Lemma GetQuestions_putAssessment assessment s :
  (GetQuestions (FileStorage.putAssessment assessment s)).2 = (GetQuestions s).2.
Proof.
  apply GetQuestions_frame; [reflexivity|..];
    cbn [FileStorage.putAssessment FileStorage.readFaults].
  - apply decodable_other. intros E. symmetry in E.
    now apply (proj1 (questions_directory_not_file _)) in E.
  - intros name. apply decodable_other. intros E. symmetry in E.
    now apply questions_not_assessments in E.
Qed.

Lemma GetQuestions_putReport report s :
  (GetQuestions (FileStorage.putReport report s)).2 = (GetQuestions s).2.
Proof.
  apply GetQuestions_frame; [reflexivity|..];
    cbn [FileStorage.putReport FileStorage.readFaults].
  - apply decodable_other. intros E. symmetry in E.
    now apply (proj2 (questions_directory_not_file _)) in E.
  - intros name. apply decodable_other. intros E. symmetry in E.
    now apply questions_not_reports in E.
Qed.

Lemma GetQuestions_eq s s' (outcome : result (list Question.t)) :
  (GetQuestions s').2 = (GetQuestions s).2 ->
  GetQuestions s = (s, outcome) -> GetQuestions s' = (s', outcome).
Proof.
  intros H Hs. pose proof (GetQuestions_state s') as Hstate.
  destruct (GetQuestions s') as [s0 r]. cbn [fst snd] in *. subst s0.
  rewrite Hs in H. cbn [snd] in H. now subst r.
Qed.

(** A path on which no read failed stays so when the file is written. *)
Lemma decodable_id (p : string) (faults : gmap string FileStorage.readFault) :
  (forall text, faults !! p <> Some (FileStorage.DecodeError text)) ->
  FileStorage.decodable p faults = faults.
Proof.
  intros H. unfold FileStorage.decodable.
  destruct (faults !! p) as [[text|text]|] eqn:Hp; try reflexivity.
  now destruct (H text).
Qed.

Lemma decodable_idemp (p : string) (faults : gmap string FileStorage.readFault) :
  FileStorage.decodable p (FileStorage.decodable p faults) = FileStorage.decodable p faults.
Proof.
  apply decodable_id. intros text. rewrite decodable_self.
  destruct (faults !! p) as [[t|t]|]; discriminate.
Qed.

(** [CompleteAssessment] on the file storage, call by call. *)
Lemma CompleteAssessment_steps (now : string) (range : MapRange) s assessmentID :
  services.CompleteAssessment now range assessmentID s =
  match GetAssessment assessmentID s with
  | (_, Err e) => (s, Err ("failed to get assessment: " ++ e)%string)
  | (_, Ok None) => (s, Err "assessment not found")
  | (_, Ok (Some assessment)) =>
      match GetQuestions s with
      | (_, Err e) => (s, Err ("failed to get questions: " ++ e)%string)
      | (_, Ok questions) =>
          let completed := Assessment.setStatus "completed" assessment in
          match UpdateAssessment completed s with
          | (s1, Err e) => (s1, Err ("failed to update assessment: " ++ e)%string)
          | (s1, Ok _) =>
              match Scoring.generateReport now range completed questions with
              | Err e => (s1, Err ("failed to generate report: " ++ e)%string)
              | Ok report =>
                  match SaveReport report s1 with
                  | (s2, Err e) => (s2, Err ("failed to save report: " ++ e)%string)
                  | (s2, Ok _) => (s2, Ok report)
                  end
              end
          end
      end
  end.
Proof.
  unfold services.CompleteAssessment, mbind, M_bind, wrapError, notNil, mret, M_ret, fail.
  pose proof (readFile_state "assessment" "assessments" assessmentID
                (FileStorage.assessments s !! assessmentID) s) as H1.
  change (FileStorage.readFile "assessment" "assessments" assessmentID
            (FileStorage.assessments s !! assessmentID) s)
    with (GetAssessment assessmentID s) in H1.
  destruct (GetAssessment assessmentID s) as [s1 [[assessment|]|e1]];
    cbn [fst] in H1; subst s1; try reflexivity.
  pose proof (GetQuestions_state s) as H2.
  destruct (GetQuestions s) as [s2 [questions|e2]]; cbn [fst] in H2; subst s2;
    try reflexivity.
  cbv zeta.
  destruct (UpdateAssessment (Assessment.setStatus "completed" assessment) s)
    as [s1 [[]|e]]; [|reflexivity].
  destruct (generateReport_ok now range (Assessment.setStatus "completed" assessment)
              questions) as [report ->].
  destruct (SaveReport report s1) as [s2 [[]|e]]; reflexivity.
Qed.

(** What a successful [CompleteAssessment] read and wrote. *)
Lemma CompleteAssessment_ok_inv (now : string) (range : MapRange) s assessmentID s' report :
  services.CompleteAssessment now range assessmentID s = (s', Ok report) ->
  exists assessment questions,
    GetAssessment assessmentID s = (s, Ok (Some assessment)) /\
    GetQuestions s = (s, Ok questions) /\
    is_Some (FileStorage.assessments s !! Assessment.ID assessment) /\
    Scoring.generateReport now range (Assessment.setStatus "completed" assessment) questions
      = Ok report /\
    Report.AssessmentID report = Assessment.ID assessment /\
    s' = FileStorage.putReport report
           (FileStorage.putAssessment (Assessment.setStatus "completed" assessment) s) /\
    (FileStorage.path "assessments" (Assessment.ID assessment)
       ∉ FileStorage.unwritable s) /\
    (FileStorage.path "reports" (Assessment.ID assessment) ∉ FileStorage.unwritable s).
Proof.
  rewrite CompleteAssessment_steps.
  destruct (GetAssessment assessmentID s) as [s0 [[assessment|]|e]] eqn:Hget;
    [|discriminate..].
  destruct (GetAssessment_inv _ _ _ _ Hget) as (-> & _ & _).
  pose proof (GetQuestions_state s) as Hsame.
  destruct (GetQuestions s) as [s0 [questions|e]] eqn:Hqs; [|discriminate].
  cbn [fst] in Hsame. subst s0. cbv zeta.
  set (completed := Assessment.setStatus "completed" assessment).
  destruct (UpdateAssessment completed s) as [s1 [[]|e]] eqn:Hupd; [|discriminate].
  destruct (generateReport_shape now range completed questions)
    as (r & Hr & Hid & _).
  change (Assessment.ID completed) with (Assessment.ID assessment) in Hid.
  rewrite Hr.
  destruct (SaveReport r s1) as [s2 [[]|e]] eqn:Hsave; [|discriminate].
  intros [= <- <-]. exists assessment, questions.
  revert Hupd. cbn [UpdateAssessment FileStorage.storage].
  unfold FileStorage.UpdateAssessment.
  change (Assessment.ID completed) with (Assessment.ID assessment).
  destruct (FileStorage.assessments s !! Assessment.ID assessment) as [old|] eqn:Hold;
    [|discriminate].
  intros Hupd. apply writeFile_ok in Hupd as [-> Hw1].
  revert Hsave. cbn [SaveReport FileStorage.storage]. unfold FileStorage.SaveReport.
  rewrite Hid. intros Hsave. apply writeFile_ok in Hsave as [-> Hw2].
  repeat split; eauto.
Qed.



Lemma putAssessment_twice s assessment assessment' :
  Assessment.ID assessment = Assessment.ID assessment' ->
  FileStorage.putAssessment assessment (FileStorage.putAssessment assessment' s) =
  FileStorage.putAssessment assessment s.
Proof.
  intros Hid. unfold FileStorage.putAssessment.
  cbn [FileStorage.assessments FileStorage.applications FileStorage.questions
       FileStorage.reports FileStorage.readFaults FileStorage.writeFaults].
  now rewrite Hid, insert_insert_eq, decodable_idemp.
Qed.

(** X15. Of two successful answers to the same question only the second
    is kept: the store is the one a single [SaveAnswer] with the second
    option leaves.  (The store's assessment files are named after the IDs
    they hold.) *)
Theorem SaveAnswer_overwrites s assessmentID questionID (option1 option2 : string) s1 s2 :
  keyedByID s ->
  services.SaveAnswer assessmentID questionID option1 s = (s1, Returns (Ok tt)) ->
  services.SaveAnswer assessmentID questionID option2 s1 = (s2, Returns (Ok tt)) ->
  services.SaveAnswer assessmentID questionID option2 s = (s2, Returns (Ok tt)) /\
  exists assessment,
    FileStorage.assessments s !! assessmentID = Some assessment /\
    FileStorage.assessments s2 !! assessmentID =
      Some (Assessment.setAnswer questionID option2 assessment).
Proof.
  intros Hkeyed H1 H2.
  apply SaveAnswer_ok_inv in H1 as (a & q & Hget & Hq & Hv1 & Hnil & Hupd1 & ->).
  apply SaveAnswer_ok_inv in H2 as (a' & q' & Hget' & Hq' & Hv2 & _ & Hupd2 & ->).
  destruct (GetAssessment_inv _ _ _ _ Hget) as (_ & Hfound & Hread).
  destruct (GetAssessment_inv _ _ _ _ Hget') as (_ & Hfound' & _).
  assert (Hid : Assessment.ID a = assessmentID) by (apply Hkeyed; now symmetry).
  cbn [FileStorage.putAssessment FileStorage.assessments Assessment.setAnswer
       Assessment.ID] in Hfound'.
  rewrite Hid, lookup_insert_eq in Hfound'. injection Hfound' as ->.
  assert (Hset : Assessment.setAnswer questionID option2
                   (Assessment.setAnswer questionID option1 a) =
                 Assessment.setAnswer questionID option2 a).
  { unfold Assessment.setAnswer.
    cbn [Assessment.ID Assessment.ApplicationID Assessment.CreatedAt Assessment.Answers
         Assessment.AnswersNil Assessment.Status]. now rewrite insert_insert_eq. }
  rewrite Hset in *. rewrite putAssessment_twice by reflexivity.
  assert (Hq2 : q' = q).
  { apply readFile_found in Hq as (_ & Hq & _).
    apply readFile_found in Hq' as (_ & Hq' & _).
    cbn [FileStorage.putAssessment FileStorage.questions] in Hq'. congruence. }
  subst q'.
  assert (Hupd : UpdateAssessment (Assessment.setAnswer questionID option2 a) s =
                 (FileStorage.putAssessment (Assessment.setAnswer questionID option2 a) s,
                  Ok tt)).
  { revert Hupd1. cbn [UpdateAssessment FileStorage.storage].
    unfold FileStorage.UpdateAssessment.
    cbn [Assessment.setAnswer Assessment.ID].
    destruct (FileStorage.assessments s !! Assessment.ID a); [|discriminate].
    intros Hupd1. apply writeFile_ok in Hupd1 as [_ Hw].
    destruct (writeFile_cases "assessment" "assessments" (Assessment.ID a)
                (FileStorage.putAssessment (Assessment.setAnswer questionID option2 a)) s)
      as [[_ E]|(fault & Hfault & _)]; [exact E|].
    apply elem_of_dom_2 in Hfault. contradiction. }
  split.
  - rewrite SaveAnswer_steps, Hget, Hq, Hv2, Hnil, Hupd. reflexivity.
  - exists a. split; [now symmetry|].
    cbn [FileStorage.putAssessment FileStorage.assessments Assessment.setAnswer
         Assessment.ID]. rewrite Hid. apply lookup_insert_eq.
Qed.

Lemma started_keyed : keyedByID Samples.started.
Proof.
  apply putAssessment_keyed. intros id a. cbn. now rewrite lookup_empty.
Qed.

(** "q1" answered twice in the started store. *)
Lemma SaveAnswer_overwrites_witness :
  let s1 := (services.SaveAnswer "a1" "q1" "q1_a1" Samples.started).1 in
  let s2 := (services.SaveAnswer "a1" "q1" "q1_a3" s1).1 in
  services.SaveAnswer "a1" "q1" "q1_a3" Samples.started = (s2, Returns (Ok tt)).
Proof.
  intros s1 s2.
  apply (SaveAnswer_overwrites Samples.started "a1" "q1" "q1_a1" "q1_a3" s1 s2).
  - exact started_keyed.
  - vm_compute; reflexivity.
  - vm_compute; reflexivity.
Defined.

(** Two reports of the same assessment over the same questions. *)
Lemma generateReport_sameFindings (now now' : string) (range range' : MapRange)
    assessment (questions : list Question.t) report report' :
  fair range -> fair range' ->
  Scoring.generateReport now range assessment questions = Ok report ->
  Scoring.generateReport now' range' assessment questions = Ok report' ->
  sameFindings report report' /\ Report.GeneratedAt report' = now'.
Proof.
  intros Hfair Hfair' Hreport Hreport'.
  destruct (generateReport_shape now range assessment questions)
    as (r & Hr & Hid & Ht & Hm & Hcat & Hrec & Hrisk & Hplan).
  destruct (generateReport_shape now' range' assessment questions)
    as (r' & Hr' & Hid' & Ht' & Hm' & Hcat' & Hrec' & Hrisk' & Hplan').
  rewrite Hreport in Hr. injection Hr as <-.
  rewrite Hreport' in Hr'. injection Hr' as <-.
  destruct (generateReport_header _ _ _ _ _ Hreport) as [Happ _].
  destruct (generateReport_header _ _ _ _ _ Hreport') as [Happ' Hat'].
  split; [|exact Hat']. unfold sameFindings.
  rewrite Hid, Hid', Happ, Happ', Ht, Ht', Hm, Hm', Hcat, Hcat',
    Hplan, Hplan', Hrec, Hrec', Hrisk, Hrisk'.
  repeat split.
  - constructor. apply Permutation_flat_map. now rewrite (Hfair _), (Hfair' _).
  - apply Permutation_app_head, Permutation_flat_map.
    now rewrite (Hfair _), (Hfair' _).
Qed.

(** X16. Completing an assessment again succeeds and rewrites the two
    files with what they hold: the assessment stays as the first
    completion left it and the new report has the same findings as the
    first, whatever the times of the two calls and the orders in which the
    runtime visits the category scores; with the same time and order the
    report and the store are exactly those of the first completion.  (The
    store's assessment files are named after the IDs they hold, and the
    identifier is a single path element.) *)
Theorem CompleteAssessment_again (now now' : string) (range range' : MapRange)
    s assessmentID s1 report :
  keyedByID s -> FileStorage.plain assessmentID = true ->
  fair range -> fair range' ->
  services.CompleteAssessment now range assessmentID s = (s1, Ok report) ->
  exists report',
    services.CompleteAssessment now' range' assessmentID s1 =
      (FileStorage.putReport report' s1, Ok report') /\
    sameFindings report report' /\
    Report.GeneratedAt report' = now' /\
    FileStorage.assessments (FileStorage.putReport report' s1) =
      FileStorage.assessments s1 /\
    (now' = now -> range' = range ->
     report' = report /\ FileStorage.putReport report' s1 = s1).
Proof.
  intros Hkeyed _ Hfair Hfair' H.
  apply CompleteAssessment_ok_inv in H
    as (a & qs & Hget & Hqs & Hsome & Hreport & Hrid & -> & Hw1 & Hw2).
  destruct (GetAssessment_inv _ _ _ _ Hget) as (_ & Hfound & Hread).
  assert (Hid : Assessment.ID a = assessmentID) by (apply Hkeyed; now symmetry).
  set (completed := Assessment.setStatus "completed" a) in *.
  set (s1 := FileStorage.putReport report (FileStorage.putAssessment completed s)).
  set (pa := FileStorage.path "assessments" (Assessment.ID a)) in *.
  set (pr := FileStorage.path "reports" (Assessment.ID a)) in *.
  assert (Hne : pr <> pa) by apply reports_not_assessments.
  assert (Hreadable : FileStorage.readFaults s !! pa = None).
  { apply unreadable_spec. subst pa. now rewrite Hid. }
  assert (Hfaults1 : FileStorage.readFaults s1 =
                     FileStorage.decodable pr (FileStorage.readFaults s)).
  { subst s1. cbn [FileStorage.putReport FileStorage.putAssessment FileStorage.readFaults].
    rewrite Hrid. change (Assessment.ID completed) with (Assessment.ID a).
    fold pa pr. f_equal. apply decodable_id. intros text. now rewrite Hreadable. }
  assert (Hlookup : FileStorage.assessments s1 !! Assessment.ID a = Some completed).
  { subst s1. cbn [FileStorage.putReport FileStorage.putAssessment FileStorage.assessments].
    change (Assessment.ID completed) with (Assessment.ID a). apply lookup_insert_eq. }
  destruct (generateReport_ok now' range' completed qs) as [report' Hreport'].
  destruct (generateReport_sameFindings now now' range range' completed qs report report'
              Hfair Hfair' Hreport Hreport') as [Hsame Hat].
  exists report'.
  assert (Hget1 : GetAssessment assessmentID s1 = (s1, Ok (Some completed))).
  { cbn [GetAssessment FileStorage.storage]. unfold FileStorage.GetAssessment.
    rewrite <- Hid, Hlookup. apply readFile_readable. apply unreadable_spec.
    fold pa. rewrite Hfaults1, decodable_other by exact Hne. exact Hreadable. }
  assert (Hqs1 : GetQuestions s1 = (s1, Ok qs)).
  { apply (GetQuestions_eq s); [|exact Hqs]. subst s1.
    now rewrite GetQuestions_putReport, GetQuestions_putAssessment. }
  assert (Hput : FileStorage.putAssessment completed s1 = s1).
  { subst s1. unfold FileStorage.putReport, FileStorage.putAssessment.
    cbn [FileStorage.assessments FileStorage.applications FileStorage.questions
         FileStorage.reports FileStorage.readFaults FileStorage.writeFaults].
    rewrite insert_insert_eq. f_equal.
    change (Assessment.ID completed) with (Assessment.ID a). rewrite Hrid. fold pa pr.
    apply decodable_id. intros text.
    rewrite decodable_other by exact Hne. rewrite decodable_self, Hreadable.
    discriminate. }
  assert (Hupd1 : UpdateAssessment completed s1 = (s1, Ok tt)).
  { cbn [UpdateAssessment FileStorage.storage]. unfold FileStorage.UpdateAssessment.
    change (Assessment.ID completed) with (Assessment.ID a). rewrite Hlookup.
    destruct (writeFile_cases "assessment" "assessments" (Assessment.ID a)
                (FileStorage.putAssessment completed) s1)
      as [[_ ->]|(fault & Hfault & _)]; [now rewrite Hput|].
    apply elem_of_dom_2 in Hfault. contradiction. }
  assert (Hsave1 : SaveReport report' s1 = (FileStorage.putReport report' s1, Ok tt)).
  { cbn [SaveReport FileStorage.storage]. unfold FileStorage.SaveReport.
    destruct (writeFile_cases "report" "reports" (Report.AssessmentID report')
                (FileStorage.putReport report') s1)
      as [[_ ->]|(fault & Hfault & _)]; [reflexivity|].
    destruct Hsame as (Hsame & _). rewrite <- Hsame, Hrid in Hfault.
    apply elem_of_dom_2 in Hfault. contradiction. }
  split.
  { rewrite CompleteAssessment_steps, Hget1, Hqs1. cbv zeta.
    change (Assessment.setStatus "completed" completed) with completed.
    now rewrite Hupd1, Hreport', Hsave1. }
  split; [exact Hsame|]. split; [exact Hat|]. split; [reflexivity|].
  intros -> ->. rewrite Hreport in Hreport'. injection Hreport' as <-.
  split; [reflexivity|].
  subst s1. unfold FileStorage.putReport.
  cbn [FileStorage.assessments FileStorage.applications FileStorage.questions
       FileStorage.reports FileStorage.readFaults FileStorage.writeFaults
       FileStorage.putAssessment].
  now rewrite insert_insert_eq, decodable_idemp.
Qed.

(** The sample assessment completed twice, the second time a minute
    later and with the category scores visited in the other direction. *)
Lemma CompleteAssessment_again_witness :
  let s := Samples.store "in_progress" ∅ in
  let first := services.CompleteAssessment "2024-01-01T00:00:00Z" map_to_list "a1" s in
  exists report report',
    first.2 = Ok report /\
    (services.CompleteAssessment "2024-01-01T00:01:00Z" (fun m => reverse (map_to_list m))
       "a1" first.1).2 = Ok report' /\
    sameFindings report report'.
Proof.
  intros s first.
  destruct (generateReport_ok "2024-01-01T00:00:00Z" map_to_list
              (Samples.assessment ∅ "completed") Samples.catalog) as [report Hreport].
  assert (Hout : first =
    (FileStorage.putReport report
       (FileStorage.putAssessment (Samples.assessment ∅ "completed") s), Ok report)).
  { injection Hreport as <-. vm_compute; reflexivity. }
  destruct (CompleteAssessment_again "2024-01-01T00:00:00Z" "2024-01-01T00:01:00Z"
              map_to_list (fun m => reverse (map_to_list m)) s "a1" first.1 report)
    as (report' & Hagain & Hsame & _).
  - intros id a. unfold s, Samples.store. cbn [FileStorage.assessments].
    intros [<- <-]%lookup_singleton_Some. reflexivity.
  - reflexivity.
  - intros m. reflexivity.
  - intros m. apply reverse_Permutation.
  - now rewrite Hout.
  - exists report, report'. rewrite Hagain, Hout. auto.
Defined.

Lemma lookupFile_elem {A} (files : list (string * A)) (name : string) (a : A) :
  FileStorage.lookupFile files name = Some a -> (name, a) ∈ files.
Proof.
  induction files as [|[n x] files IH]; cbn [FileStorage.lookupFile]; [discriminate|].
  destruct (String.eqb_spec n name) as [->|Hne].
  - intros [= ->]. apply list_elem_of_here.
  - intros H. apply list_elem_of_further. now apply IH.
Qed.

Lemma readQuestions_ok s (files : list (string * Question.t)) (acc l : list Question.t) :
  FileStorage.readQuestions s files acc = Ok l -> l = acc ++ (snd <$> files).
Proof.
  revert acc. induction files as [|[n q] files IH]; intros acc;
    cbn [FileStorage.readQuestions].
  - intros [= <-]. cbn. now rewrite app_nil_r.
  - destruct (FileStorage.readFaults s !! FileStorage.path "questions" n) as [[t|t]|];
      [discriminate..|].
    intros H. apply IH in H as ->. cbn. now rewrite <- app_assoc.
Qed.

Lemma GetQuestions_ok s s' (questions : list Question.t) :
  GetQuestions s = (s', Ok questions) -> questions = snd <$> FileStorage.questions s.
Proof.
  cbn [GetQuestions FileStorage.storage]. unfold FileStorage.GetQuestions.
  destruct (FileStorage.readFaults s !! "questions"); [discriminate|].
  intros [= _ H]. now apply readQuestions_ok in H.
Qed.

Lemma optionValid_selected (options : list Option.t) optionID :
  services.optionValid options optionID = true ->
  is_Some (Scoring.selectedOption options optionID).
Proof.
  induction options as [|o options IH]; cbn; [discriminate|].
  destruct (String.eqb (Option.ID o) optionID); [eauto|exact IH].
Qed.

(** X17. An answer [SaveAnswer] accepted for a question whose identifier
    is a single path element always counts when the assessment is
    completed: the question is part of the catalog that is scored, the
    scorer finds the saved option, and the category of the question gets
    an entry in the report's category scores.  (The files of the store
    are named after the IDs they hold; for an identifier like "./q1" the
    question file read is not the one the scorer looks the answer up
    under.) *)
Theorem accepted_answer_counts (now : string) (range : MapRange)
    s assessmentID questionID optionID s1 s2 report :
  keyedByID s -> questionsKeyedByID s ->
  FileStorage.plain questionID = true ->
  services.SaveAnswer assessmentID questionID optionID s = (s1, Returns (Ok tt)) ->
  services.CompleteAssessment now range assessmentID s1 = (s2, Ok report) ->
  exists assessment question questions,
    FileStorage.assessments s !! assessmentID = Some assessment /\
    GetQuestion questionID s = (s, Ok (Some question)) /\
    GetQuestions s = (s, Ok questions) /\
    question ∈ questions /\
    is_Some (pickedOption (<[questionID := optionID]> (Assessment.Answers assessment))
               question) /\
    Report.TotalScore report =
      Scoring.totalScore
        (Scoring.calculateScores questions
           (<[questionID := optionID]> (Assessment.Answers assessment))) /\
    is_Some (Report.CategoryScores report !! Question.Category question).
Proof.
  intros Hkeyed Hqkeyed _ Hsave Hcomplete.
  apply SaveAnswer_ok_inv in Hsave as (a & q & Hget & Hq & Hvalid & _ & _ & ->).
  destruct (GetAssessment_inv _ _ _ _ Hget) as (_ & Hfound & _).
  assert (Hid : Assessment.ID a = assessmentID) by (apply Hkeyed; now symmetry).
  set (s1 := FileStorage.putAssessment (Assessment.setAnswer questionID optionID a) s) in *.
  apply CompleteAssessment_ok_inv in Hcomplete
    as (a1 & qs & Hget1 & Hqs1 & _ & Hreport & _).
  destruct (GetAssessment_inv _ _ _ _ Hget1) as (_ & Hfound1 & _).
  assert (Ha1 : a1 = Assessment.setAnswer questionID optionID a).
  { subst s1. cbn [FileStorage.putAssessment FileStorage.assessments Assessment.setAnswer
                   Assessment.ID] in Hfound1.
    rewrite Hid, lookup_insert_eq in Hfound1. congruence. }
  subst a1.
  assert (Hqs : GetQuestions s = (s, Ok qs)).
  { apply (GetQuestions_eq s1); [|exact Hqs1]. subst s1.
    now rewrite GetQuestions_putAssessment. }
  assert (Hlookup : FileStorage.lookupFile (FileStorage.questions s) questionID = Some q).
  { revert Hq. cbn [GetQuestion FileStorage.storage]. unfold FileStorage.GetQuestion.
    intros Hq. now apply readFile_found in Hq as (_ & Hq & _). }
  apply lookupFile_elem in Hlookup.
  assert (Hin : q ∈ qs).
  { rewrite (GetQuestions_ok _ _ _ Hqs). apply list_elem_of_fmap.
    exists (questionID, q). auto. }
  assert (Hqid : Question.ID q = questionID) by now apply Hqkeyed.
  assert (Hpicked :
    is_Some (pickedOption (<[questionID := optionID]> (Assessment.Answers a)) q)).
  { unfold pickedOption. rewrite Hqid, lookup_insert_eq.
    now apply optionValid_selected. }
  destruct (generateReport_shape now range
              (Assessment.setStatus "completed" (Assessment.setAnswer questionID optionID a))
              qs) as (r & Hr & _ & Ht & _ & Hcat & _).
  rewrite Hreport in Hr. injection Hr as <-.
  exists a, q, qs. repeat split; try assumption; try (now symmetry).
  rewrite Hcat.
  cbn [Assessment.setStatus Assessment.setAnswer Assessment.Answers].
  destruct (scoring_loop_categories qs (<[questionID := optionID]> (Assessment.Answers a))
              (Scoring.mkScores 0 0 ∅ ∅) (Question.Category q)) as [Hs _].
  apply Hs. right. exists q. auto.
Qed.

(** "q4" answered in the started store, then the assessment completed. *)
Lemma accepted_answer_counts_witness :
  let s1 := (services.SaveAnswer "a1" "q4" "q4_a3" Samples.started).1 in
  let outcome := services.CompleteAssessment "2024-01-01T00:00:00Z" map_to_list "a1" s1 in
  exists report question,
    outcome.2 = Ok report /\
    GetQuestion "q4" Samples.started = (Samples.started, Ok (Some question)) /\
    is_Some (Report.CategoryScores report !! Question.Category question).
Proof.
  intros s1 outcome.
  assert (Hout : exists report, outcome = (outcome.1, Ok report)).
  { destruct (generateReport_ok "2024-01-01T00:00:00Z" map_to_list
                (Samples.assessment {[ "q4" := "q4_a3" ]} "completed")
                Samples.sampleQuestions) as [report Hreport].
    exists report. injection Hreport as <-. vm_compute; reflexivity. }
  destruct Hout as [report Hout].
  destruct (accepted_answer_counts "2024-01-01T00:00:00Z" map_to_list Samples.started
              "a1" "q4" "q4_a3" s1 outcome.1 report)
    as (a & q & qs & _ & Hq & _ & _ & _ & _ & Hcat).
  - exact started_keyed.
  - intros name q' Hin. unfold Samples.started, Samples.seeded in Hin.
    cbn [FileStorage.putAssessment FileStorage.questions] in Hin.
    apply list_elem_of_fmap in Hin as (q0 & [= -> ->] & _). reflexivity.
  - reflexivity.
  - vm_compute; reflexivity.
  - exact Hout.
  - exists report, q. rewrite Hout. cbn [snd]. auto.
Defined.

(** X18. The three service operations keep every assessment file named
    after the ID it holds, whether they succeed or fail. *)
Theorem service_keeps_keys (now newUUID : string) (range : MapRange)
    s applicationID assessmentID questionID optionID :
  keyedByID s ->
  keyedByID (services.StartAssessment now newUUID applicationID s).1 /\
  keyedByID (services.SaveAnswer assessmentID questionID optionID s).1 /\
  keyedByID (services.CompleteAssessment now range assessmentID s).1.
Proof.
  intros Hkeyed.
  assert (Hwrite : forall (what : string) assessment,
            keyedByID (FileStorage.writeFile what "assessments" (Assessment.ID assessment)
                         (FileStorage.putAssessment assessment) s).1).
  { intros what assessment.
    destruct (writeFile_cases what "assessments" (Assessment.ID assessment)
                (FileStorage.putAssessment assessment) s)
      as [[_ ->]|(fault & _ & ->)]; cbn [fst]; [now apply putAssessment_keyed|].
    destruct (FileStorage.leaves fault); [exact Hkeyed|..];
      now apply (putAssessment_keyed s assessment). }
  assert (Hupdate : forall assessment, keyedByID (UpdateAssessment assessment s).1).
  { intros assessment. cbn [UpdateAssessment FileStorage.storage].
    unfold FileStorage.UpdateAssessment.
    destruct (FileStorage.assessments s !! Assessment.ID assessment);
      [apply Hwrite|exact Hkeyed]. }
  split; [|split].
  - rewrite StartAssessment_steps.
    destruct (GetApplication applicationID s) as [s0 [[app|]|e]]; try exact Hkeyed.
    set (assessment := Assessment.mk newUUID applicationID now ∅ false "in_progress").
    pose proof (Hwrite "assessment" assessment) as H.
    cbn [CreateAssessment FileStorage.storage]. unfold FileStorage.CreateAssessment.
    destruct (FileStorage.writeFile _ _ _ _ s) as [s' [[]|e]]; exact H.
  - rewrite SaveAnswer_steps.
    destruct (GetAssessment assessmentID s) as [s0 [[a|]|e]]; try exact Hkeyed.
    destruct (GetQuestion questionID s) as [s0' [[q|]|e]]; try exact Hkeyed.
    destruct (services.optionValid _ _); [|exact Hkeyed].
    destruct (Assessment.AnswersNil a); [exact Hkeyed|].
    pose proof (Hupdate (Assessment.setAnswer questionID optionID a)) as H.
    destruct (UpdateAssessment _ s) as [s' [[]|e]]; exact H.
  - rewrite CompleteAssessment_steps.
    destruct (GetAssessment assessmentID s) as [s0 [[a|]|e]]; try exact Hkeyed.
    destruct (GetQuestions s) as [s0' [qs|e]]; try exact Hkeyed. cbv zeta.
    pose proof (Hupdate (Assessment.setStatus "completed" a)) as Hk1.
    destruct (UpdateAssessment (Assessment.setStatus "completed" a) s)
      as [s1 [[]|e]] eqn:Hupd; cbn [fst] in Hk1; [|exact Hk1].
    destruct (Scoring.generateReport now range (Assessment.setStatus "completed" a) qs)
      as [report|e]; [|exact Hk1].
    cbn [SaveReport FileStorage.storage]. unfold FileStorage.SaveReport.
    destruct (writeFile_cases "report" "reports" (Report.AssessmentID report)
                (FileStorage.putReport report) s1)
      as [[_ ->]|(fault & _ & ->)]; [exact Hk1|].
    destruct (FileStorage.leaves fault); exact Hk1.
Qed.

(** Starting, answering and completing in the seeded store. *)
Lemma service_keeps_keys_witness :
  keyedByID
    (services.CompleteAssessment "2024-01-01T00:00:00Z" map_to_list "a1" Samples.started).1.
Proof.
  apply (service_keeps_keys "2024-01-01T00:00:00Z" "a2" map_to_list Samples.started
           "app1" "a1" "q1" "q1_a1" started_keyed).
Defined.

End ServiceMore.

(** ** The HTTP handlers over the file storage *)
Section Handlers.



(** X20. The [SaveAnswer] handler answers 400 exactly when the body
    cannot be decoded or one of the two identifiers is empty; it answers
    200 exactly when both identifiers are given and the service saved the
    answer; it writes no response exactly when the service panics; every
    other response is a 500.  Every response other than 200 carries an
    error message.  A 400 and a panic leave the store as it was; so does a
    500, unless it reports that writing the assessment failed after the
    file was opened, when the file of that assessment is the only one that
    differs.  (The ID the stored assessment holds is a single path
    element, so that the file written is in the assessments directory.) *)
Theorem SaveAnswer_handler_responses s assessmentID (req : result (string * string)) :
  (forall assessment,
     FileStorage.assessments s !! assessmentID = Some assessment ->
     FileStorage.plain (Assessment.ID assessment) = true) ->
  let outcome := api.SaveAnswer assessmentID req s in
  (api.code <$> outcome.2 = Some 400 <->
     (exists e, req = Err e) \/
     (exists questionID optionID,
        req = Ok (questionID, optionID) /\ (questionID = "" \/ optionID = ""))) /\
  (api.code <$> outcome.2 = Some 200 <->
     exists questionID optionID,
       req = Ok (questionID, optionID) /\ questionID <> "" /\ optionID <> "" /\
       services.SaveAnswer assessmentID questionID optionID s =
         (outcome.1, Returns (Ok tt))) /\
  (outcome.2 = None <->
     exists questionID optionID msg,
       req = Ok (questionID, optionID) /\ questionID <> "" /\ optionID <> "" /\
       services.SaveAnswer assessmentID questionID optionID s = (outcome.1, Panics msg)) /\
  (forall response, outcome.2 = Some response ->
     api.code response = 200 \/ api.code response = 400 \/ api.code response = 500) /\
  (forall response, outcome.2 = Some response -> api.code response <> 200 ->
     exists message, api.body response = api.ErrorBody message) /\
  (api.code <$> outcome.2 = Some 400 \/ outcome.2 = None -> outcome.1 = s) /\
  (api.code <$> outcome.2 = Some 500 ->
     outcome.1 = s \/
     exists assessment fault,
       FileStorage.assessments s !! assessmentID = Some assessment /\
       FileStorage.writeFaults s
         !! FileStorage.path "assessments" (Assessment.ID assessment) = Some fault /\
       FileStorage.leaves fault <> FileStorage.Untouched /\
       sameButAssessment (Assessment.ID assessment) s outcome.1).
Proof.
  intros _ outcome. subst outcome. unfold api.SaveAnswer.
  destruct req as [[questionID optionID]|e].
  2:{ cbn [fmap option_fmap option_map fst snd api.respondWithError api.respondWithJSON
           api.code api.body].
      split; [split; [eauto|reflexivity]|].
      split; [split; [discriminate|intros (q & o & [=] & _)]|].
      split; [split; [discriminate|intros (q & o & m & [=] & _)]|].
      split; [intros r [= <-]; auto|].
      split; [intros r [= <-] _; cbn; eauto|].
      split; [reflexivity|discriminate]. }
  destruct (String.eqb_spec questionID "") as [->|Hq].
  { cbn [orb fmap option_fmap option_map fst snd api.respondWithError api.respondWithJSON
         api.code api.body].
    split; [split; [eauto 6|reflexivity]|].
    split; [split; [discriminate|
                    intros (q & o & [= <- <-] & Hne & _); now destruct Hne]|].
    split; [split; [discriminate|
                    intros (q & o & m & [= <- <-] & Hne & _); now destruct Hne]|].
    split; [intros r [= <-]; auto|].
    split; [intros r [= <-] _; cbn; eauto|].
    split; [reflexivity|discriminate]. }
  destruct (String.eqb_spec optionID "") as [->|Ho].
  { cbn [orb fmap option_fmap option_map fst snd api.respondWithError api.respondWithJSON
         api.code api.body].
    split; [split; [eauto 6|reflexivity]|].
    split; [split; [discriminate|
                    intros (q & o & [= <- <-] & _ & Hne & _); now destruct Hne]|].
    split; [split; [discriminate|
                    intros (q & o & m & [= <- <-] & _ & Hne & _); now destruct Hne]|].
    split; [intros r [= <-]; auto|].
    split; [intros r [= <-] _; cbn; eauto|].
    split; [reflexivity|discriminate]. }
  cbn [orb].
  destruct (services.SaveAnswer assessmentID questionID optionID s)
    as [s' [[[]|msg]|msg]] eqn:H;
    cbn [fmap option_fmap option_map fst snd api.respondWithError api.respondWithJSON
         api.code api.body].
  - split; [split; [discriminate|]|].
    { intros [(e & [=])|(q & o & [= <- <-] & [?|?])]; contradiction. }
    split; [split; [eauto 8|reflexivity]|].
    split; [split; [discriminate|]|].
    { intros (q & o & m & [= <- <-] & _ & _ & E). rewrite H in E. discriminate. }
    split; [intros r [= <-]; auto|].
    split; [intros r [= <-] Hne; now destruct Hne|].
    split; [intros [[=]|[=]]|discriminate].
  - split; [split; [discriminate|]|].
    { intros [(e & [=])|(q & o & [= <- <-] & [?|?])]; contradiction. }
    split; [split; [discriminate|]|].
    { intros (q & o & [= <- <-] & _ & _ & E). rewrite H in E. discriminate. }
    split; [split; [discriminate|]|].
    { intros (q & o & m & [= <- <-] & _ & _ & E). rewrite H in E. discriminate. }
    split; [intros r [= <-]; auto|].
    split; [intros r [= <-] _; cbn; eauto|].
    split; [intros [[=]|[=]]|].
    intros _. apply SaveAnswer_err_inv in H
      as [->|(a & fault & Ha & Hfault & Hleaves & _ & _ & Hsame & _)]; [now left|].
    right. exists a, fault. auto.
  - apply SaveAnswer_panic_inv in H as Hs. subst s'.
    split; [split; [discriminate|]|].
    { intros [(e & [=])|(q & o & [= <- <-] & [?|?])]; contradiction. }
    split; [split; [discriminate|]|].
    { intros (q & o & [= <- <-] & _ & _ & E). rewrite H in E. discriminate. }
    split; [split; [eauto 8|reflexivity]|].
    split; [discriminate|]. split; [discriminate|].
    split; [reflexivity|discriminate].
Qed.

(** The first answer in the started store is saved with a 200; a request
    without option is refused with a 400. *)
Lemma SaveAnswer_handler_responses_witness :
  api.code <$> (api.SaveAnswer "a1" (Ok ("q1", "q1_a1")) Samples.started).2 = Some 200 /\
  api.code <$> (api.SaveAnswer "a1" (Ok ("q1", "")) Samples.started).2 = Some 400.
Proof.
  assert (Hplain : forall assessment,
            FileStorage.assessments Samples.started !! "a1" = Some assessment ->
            FileStorage.plain (Assessment.ID assessment) = true).
  { intros a. unfold Samples.started, Samples.seeded.
    cbn [FileStorage.putAssessment FileStorage.assessments].
    change (Assessment.ID (Samples.assessment ∅ "in_progress")) with "a1".
    rewrite lookup_insert_eq. intros [= <-]. reflexivity. }
  split.
  - apply (proj1 (proj2 (SaveAnswer_handler_responses Samples.started "a1"
                           (Ok ("q1", "q1_a1")) Hplain))).
    exists "q1", "q1_a1".
    split; [reflexivity|]. split; [discriminate|]. split; [discriminate|].
    vm_compute; reflexivity.
  - apply (proj1 (SaveAnswer_handler_responses Samples.started "a1"
                    (Ok ("q1", "")) Hplain)).
    right. exists "q1", "". auto.
Defined.

(** X21. When the [StartAssessment] handler answers 201 to a request
    whose application identifier is a single path element, the
    application exists, the body is the new assessment, for that
    application and with no answers, and the [GetAssessment] handler then
    serves the same assessment under its identifier. *)
Theorem started_assessment_is_served (now newUUID : string) s applicationID s1 response :
  FileStorage.plain applicationID = true ->
  FileStorage.plain newUUID = true ->
  api.StartAssessment now newUUID (Ok applicationID) s = (s1, response) ->
  api.code response = 201 ->
  FileStorage.path "assessments" newUUID ∉ FileStorage.unreadable s ->
  let assessment := Assessment.mk newUUID applicationID now ∅ false "in_progress" in
  applicationID <> "" /\
  is_Some (FileStorage.applications s !! applicationID) /\
  api.body response = api.AssessmentBody assessment /\
  api.GetAssessment newUUID s1 =
    (s1, api.respondWithJSON api.StatusOK (api.AssessmentBody assessment)).
Proof.
  intros _ _ H Hcode Hread assessment. unfold api.StartAssessment in H.
  destruct (String.eqb_spec applicationID "") as [->|Hne];
    [injection H as <- <-; discriminate|].
  rewrite StartAssessment_steps in H. cbv zeta in H. fold assessment in H.
  revert H. cbn [GetApplication CreateAssessment FileStorage.storage].
  unfold FileStorage.GetApplication, FileStorage.CreateAssessment.
  change (Assessment.ID assessment) with newUUID.
  destruct (FileStorage.readFile "application" "applications" applicationID
              (FileStorage.applications s !! applicationID) s)
    as [s0 [[app|]|e1]] eqn:Happ; [|intros [= <- <-]; discriminate..].
  apply readFile_found in Happ as (_ & Happ & _).
  destruct (writeFile_cases "assessment" "assessments" newUUID
              (FileStorage.putAssessment assessment) s)
    as [[_ ->]|(fault & _ & ->)]; [|intros [= <- <-]; discriminate].
  intros [= <- <-]. split; [assumption|]. split; [rewrite Happ; eauto|].
  split; [reflexivity|].
  unfold api.GetAssessment, services.GetAssessment.
  cbn [GetAssessment FileStorage.storage]. unfold FileStorage.GetAssessment.
  rewrite readFile_readable.
  - cbn [FileStorage.putAssessment FileStorage.assessments].
    change (Assessment.ID assessment) with newUUID. now rewrite lookup_insert_eq.
  - apply unreadable_spec. apply unreadable_spec in Hread.
    cbn [FileStorage.putAssessment FileStorage.readFaults].
    change (Assessment.ID assessment) with newUUID.
    now rewrite decodable_self, Hread.
Qed.

(** Starting an assessment for "app1" in the seeded store. *)
Lemma started_assessment_is_served_witness :
  let outcome :=
    api.StartAssessment "2024-01-01T00:00:00Z" "a1" (Ok "app1") Samples.seeded in
  api.code (api.GetAssessment "a1" outcome.1).2 = 200.
Proof.
  intros outcome.
  destruct (started_assessment_is_served "2024-01-01T00:00:00Z" "a1" Samples.seeded
              "app1" outcome.1 outcome.2) as (_ & _ & _ & ->).
  - reflexivity.
  - reflexivity.
  - vm_compute; reflexivity.
  - vm_compute; reflexivity.
  - vm_compute; discriminate.
  - reflexivity.
Defined.

(** X22. When the [CompleteAssessment] handler answers 200 in a store
    whose assessment files are named after their IDs, the [GetReport]
    handler then serves the very same report, and the [GetAssessment]
    handler serves the assessment with status "completed". *)
Theorem completed_report_is_served (now : string) (range : MapRange)
    s assessmentID s1 response :
  keyedByID s ->
  api.CompleteAssessment now range assessmentID s = (s1, response) ->
  api.code response = 200 ->
  FileStorage.path "reports" assessmentID ∉ FileStorage.unreadable s ->
  api.GetReport assessmentID s1 = (s1, response) /\
  exists assessment,
    FileStorage.assessments s !! assessmentID = Some assessment /\
    api.GetAssessment assessmentID s1 =
      (s1, api.respondWithJSON api.StatusOK
             (api.AssessmentBody (Assessment.setStatus "completed" assessment))).
Proof.
  intros Hkeyed H Hcode Hread. unfold api.CompleteAssessment in H.
  destruct (services.CompleteAssessment now range assessmentID s) as [s' [report|e]] eqn:Hc;
    injection H as <- <-; [|discriminate].
  apply CompleteAssessment_ok_inv in Hc
    as (a & qs & Hget & _ & _ & _ & Hrid & -> & _).
  destruct (GetAssessment_inv _ _ _ _ Hget) as (_ & Hfound & Hreada).
  assert (Hid : Assessment.ID a = assessmentID) by (apply Hkeyed; now symmetry).
  apply unreadable_spec in Hread, Hreada.
  assert (Hne : FileStorage.path "reports" assessmentID <>
                FileStorage.path "assessments" assessmentID)
    by apply reports_not_assessments.
  split.
  - unfold api.GetReport, services.GetReport. cbn [GetReport FileStorage.storage].
    unfold FileStorage.GetReport. rewrite readFile_readable.
    + cbn [FileStorage.putReport FileStorage.reports].
      rewrite Hrid, Hid, lookup_insert_eq. reflexivity.
    + apply unreadable_spec.
      cbn [FileStorage.putReport FileStorage.putAssessment FileStorage.readFaults].
      change (Assessment.ID (Assessment.setStatus "completed" a)) with (Assessment.ID a).
      rewrite Hrid, Hid, decodable_self.
      rewrite decodable_other by (intros E; now apply Hne). now rewrite Hread.
  - exists a. split; [now symmetry|].
    unfold api.GetAssessment, services.GetAssessment.
    cbn [GetAssessment FileStorage.storage]. unfold FileStorage.GetAssessment.
    rewrite readFile_readable.
    + cbn [FileStorage.putReport FileStorage.putAssessment FileStorage.assessments
           Assessment.setStatus Assessment.ID].
      rewrite Hid, lookup_insert_eq. reflexivity.
    + apply unreadable_spec.
      cbn [FileStorage.putReport FileStorage.putAssessment FileStorage.readFaults].
      change (Assessment.ID (Assessment.setStatus "completed" a)) with (Assessment.ID a).
      rewrite Hrid, Hid, decodable_other by exact Hne.
      now rewrite decodable_self, Hreada.
Qed.

(** Completing "a1" in the started store, then asking for its report. *)
Lemma completed_report_is_served_witness :
  let outcome :=
    api.CompleteAssessment "2024-01-01T00:00:00Z" map_to_list "a1" Samples.started in
  api.GetReport "a1" outcome.1 = outcome.
Proof.
  intros outcome.
  destruct (completed_report_is_served "2024-01-01T00:00:00Z" map_to_list
              Samples.started "a1" outcome.1 outcome.2) as [H _].
  - exact started_keyed.
  - apply surjective_pairing.
  - subst outcome. unfold api.CompleteAssessment.
    destruct (generateReport_ok "2024-01-01T00:00:00Z" map_to_list
                (Samples.assessment ∅ "completed") Samples.sampleQuestions)
      as [report Hreport].
    assert (Hc : (services.CompleteAssessment "2024-01-01T00:00:00Z" map_to_list "a1"
                    Samples.started).2 = Ok report).
    { injection Hreport as <-. vm_compute; reflexivity. }
    destruct (services.CompleteAssessment _ _ _ _) as [s' [r|e]]; [reflexivity|].
    discriminate.
  - vm_compute; discriminate.
  - rewrite H. symmetry. apply surjective_pairing.
Defined.

Lemma readQuestions_succeeds s (files : list (string * Question.t)) (acc : list Question.t) :
  (exists l, FileStorage.readQuestions s files acc = Ok l) <->
  forall name question, (name, question) ∈ files ->
    FileStorage.path "questions" name ∉ FileStorage.unreadable s.
Proof.
  revert acc. induction files as [|[n q] files IH]; intros acc;
    cbn [FileStorage.readQuestions].
  - split; [|eauto]. intros _ name question Hin. now apply elem_of_nil in Hin.
  - destruct (FileStorage.readFaults s !! FileStorage.path "questions" n)
      as [fault|] eqn:Hfault.
    + assert (Hbad : FileStorage.path "questions" n ∈ FileStorage.unreadable s)
        by now apply elem_of_dom_2 in Hfault.
      split; [destruct fault; intros [l [=]]|]. intros Hall. exfalso.
      apply (Hall n q); [apply list_elem_of_here|exact Hbad].
    + apply unreadable_spec in Hfault. rewrite IH. split.
      * intros Hall name question Hin. apply elem_of_cons in Hin as [[= -> ->]|Hin];
          [exact Hfault|now apply (Hall name question)].
      * intros Hall name question Hin. apply (Hall name question).
        now apply list_elem_of_further.
Qed.

(** X23. The [GetQuestions] handler never changes the store.  It answers
    200 exactly when the questions directory and every question file in
    it can be read, and then serves the questions of all files in the
    order of the directory listing; otherwise it answers 500. *)
Theorem GetQuestions_handler_serves s :
  let outcome := api.GetQuestions s in
  outcome.1 = s /\
  (api.code outcome.2 = 200 <->
     ("questions" ∉ FileStorage.unreadable s) /\
     forall name question, (name, question) ∈ FileStorage.questions s ->
       FileStorage.path "questions" name ∉ FileStorage.unreadable s) /\
  (api.code outcome.2 = 200 ->
     api.body outcome.2 = api.QuestionsBody (snd <$> FileStorage.questions s)) /\
  (api.code outcome.2 <> 200 ->
     api.code outcome.2 = 500 /\ exists message, api.body outcome.2 = api.ErrorBody message).
Proof.
  intros outcome. subst outcome. unfold api.GetQuestions, services.GetQuestions.
  cbn [GetQuestions FileStorage.storage]. unfold FileStorage.GetQuestions.
  destruct (FileStorage.readFaults s !! "questions") as [fault|] eqn:Hdir.
  { apply elem_of_dom_2 in Hdir. fold (FileStorage.unreadable s) in Hdir.
    cbn [fst snd api.respondWithError api.respondWithJSON api.code api.body].
    split; [reflexivity|]. split; [split; [discriminate|intros [H _]; contradiction]|].
    split; [discriminate|]. intros _. split; [reflexivity|eauto]. }
  apply unreadable_spec in Hdir.
  pose proof (readQuestions_succeeds s (FileStorage.questions s) []) as Hloop.
  destruct (FileStorage.readQuestions s (FileStorage.questions s) []) as [l|e] eqn:Hread;
    cbn [fst snd api.respondWithError api.respondWithJSON api.code api.body].
  - apply readQuestions_ok in Hread as ->. cbn [app].
    split; [reflexivity|]. split; [split; [|reflexivity]|].
    { intros _. split; [exact Hdir|]. apply Hloop. eauto. }
    split; [reflexivity|]. intros Hne. now destruct Hne.
  - split; [reflexivity|]. split; [split; [discriminate|]|].
    { intros [_ Hall]. apply Hloop in Hall as [l [=]]. }
    split; [discriminate|]. intros _. split; [reflexivity|eauto].
Qed.

End Handlers.
